(** * Notion to Anki converter: the structural extraction of [notion_import.py]

    A shallow embedding of the card parser and of the document walker of
    [src/notion_import.py], with the properties the specification states
    about them.

    Conventions of the embedding.
    - Text is a [string] of ASCII characters; the character classes of
      Python's [re] and [str] modules ([\w], [\s], [str.strip],
      [str.lower]) are written out for the code points below 128.  Text
      beyond ASCII is outside the embedding: there Python's classes are
      those of Unicode ([\w] and [\s] hold more characters, [str.lower]
      may change the length of a string, [unquote] decodes UTF-8), and
      nothing below is stated about it.
    - A parsed document is a tree of tags and strings.  A string is a
      plain [NavigableString] or an instance of one of its subclasses
      ([SpecialString]: comments, declarations, and the strings
      [html.parser] builds below [script], [style], [template], [rt] and
      [rp]); the code tells them apart from tags by their having no
      [name], [bs4] tells them apart from each other in [get_text].  As
      [html.parser] builds it, [class] is a list of tokens and every other
      attribute is a string.
    - The code rewrites the tree in place; here every function returns
      the tree it leaves.  [parse_callout] only touches the first [div] of
      its callout and the walker hands it callouts that share no node, so
      the document is not threaded through the walk.
    - Paths are those of [posixpath].  [os.path.exists] and [str(tag)]
      are not part of the repository: the state of the disk and the
      serialiser of [bs4] are variables of the sections below.
    - [print] is modelled by the list of diagnostics a function returns;
      an exception by [None]. *)

From Stdlib Require Import Bool Arith NArith ZArith List Ascii String Lia.
From Stdlib Require Import Sorting.Sorted Sorting.Permutation.
Import ListNotations.

Open Scope string_scope.
Open Scope list_scope.

(* ================================================================= *)
(** ** Python strings *)

Definition code (c : ascii) : N := N_of_ascii c.

Definition in_range (lo hi : N) (c : ascii) : bool :=
  (lo <=? code c)%N && (code c <=? hi)%N.

(** [\s] of [re] on [str] patterns and the characters [str.strip()]
    removes: TAB, LF, VT, FF, CR, FS, GS, RS, US and the space. *)
Definition is_space (c : ascii) : bool :=
  in_range 9 13 c || in_range 28 32 c.

(** [\w]: letters, digits and the underscore. *)
Definition is_word (c : ascii) : bool :=
  in_range 48 57 c || in_range 65 90 c || in_range 97 122 c
  || (code c =? 95)%N.

Definition is_hash (c : ascii) : bool := (code c =? 35)%N.

Definition is_upper (c : ascii) : bool := in_range 65 90 c.

Definition lower_char (c : ascii) : ascii :=
  if is_upper c then ascii_of_N (code c + 32) else c.

(** [str.lower] *)
Fixpoint lower (s : string) : string :=
  match s with
  | EmptyString => EmptyString
  | String c r => String (lower_char c) (lower r)
  end.

Definition starts_with (p : ascii -> bool) (s : string) : bool :=
  match s with
  | EmptyString => false
  | String c _ => p c
  end.

Definition is_empty (s : string) : bool :=
  match s with
  | EmptyString => true
  | String _ _ => false
  end.

(** The longest prefix of word characters: what [\w+] captures when the
    match starts here. *)
Fixpoint take_word (s : string) : string :=
  match s with
  | EmptyString => EmptyString
  | String c r => if is_word c then String c (take_word r) else EmptyString
  end.

(** [re.findall(r"#(\w+)", s)].  The scan goes from left to right; a match
    starts at a [#] that a word character follows and, [\w+] being greedy,
    runs over every word character after it.  [in_tag] tells that the
    scan is inside a match. *)
Fixpoint findall_hashtag_from (in_tag : bool) (s : string) : list string :=
  match s with
  | EmptyString => []
  | String c r =>
      if in_tag && is_word c then findall_hashtag_from true r
      else if is_hash c && starts_with is_word r
           then take_word r :: findall_hashtag_from true r
           else findall_hashtag_from false r
  end.

Definition re_findall_hashtag (s : string) : list string :=
  findall_hashtag_from false s.

(** [re.sub(r"#\w+", "", s)]: the same scan, which keeps what is outside
    the matches. *)
Fixpoint sub_hashtag_from (in_tag : bool) (s : string) : string :=
  match s with
  | EmptyString => EmptyString
  | String c r =>
      if in_tag && is_word c then sub_hashtag_from true r
      else if is_hash c && starts_with is_word r
           then sub_hashtag_from true r
           else String c (sub_hashtag_from false r)
  end.

Definition re_sub_hashtag (s : string) : string := sub_hashtag_from false s.

(** [re.sub(r"\s+", " ", s)]: every maximal run of white space becomes one
    space.  [in_run] tells that the space of the current run is written. *)
Fixpoint sub_spaces_from (in_run : bool) (s : string) : string :=
  match s with
  | EmptyString => EmptyString
  | String c r =>
      if is_space c
      then if in_run then sub_spaces_from true r
           else String " " (sub_spaces_from true r)
      else String c (sub_spaces_from false r)
  end.

Definition re_sub_spaces (s : string) : string := sub_spaces_from false s.

Fixpoint lstrip (s : string) : string :=
  match s with
  | EmptyString => EmptyString
  | String c r => if is_space c then lstrip r else s
  end.

Fixpoint rstrip (s : string) : string :=
  match s with
  | EmptyString => EmptyString
  | String c r =>
      match rstrip r with
      | EmptyString => if is_space c then EmptyString else String c EmptyString
      | r' => String c r'
      end
  end.

(** [str.strip()] *)
Definition strip (s : string) : string := lstrip (rstrip s).

(** Truth value of a Python string or list. *)
Definition truthy (s : string) : bool := negb (is_empty s).

Definition nonempty {A} (l : list A) : bool :=
  match l with
  | [] => false
  | _ :: _ => true
  end.

(** [sorted] on strings: Python orders [str] by code point, as
    [String.leb] does. *)
Fixpoint insert_sorted (x : string) (l : list string) : list string :=
  match l with
  | [] => [x]
  | y :: r => if String.leb x y then x :: l else y :: insert_sorted x r
  end.

Fixpoint sorted (l : list string) : list string :=
  match l with
  | [] => []
  | x :: r => insert_sorted x (sorted r)
  end.

(** [sorted(set(l))]: the elements of a [set] are pairwise different and
    come in no fixed order, which [sorted] makes irrelevant
    ([sorted_set_any_order] below). *)
Definition sorted_set (l : list string) : list string :=
  sorted (nodup string_dec l).

(* ================================================================= *)
(** ** Paths and URLs *)

Definition is_slash (c : ascii) : bool := (code c =? 47)%N.

Fixpoint has_slash (s : string) : bool :=
  match s with
  | EmptyString => false
  | String c r => is_slash c || has_slash r
  end.

(** [os.path.basename] (posixpath): what follows the last slash. *)
Fixpoint basename (p : string) : string :=
  match p with
  | EmptyString => EmptyString
  | String c r =>
      if has_slash p then basename r else p
  end.

Fixpoint ends_with_slash (s : string) : bool :=
  match s with
  | EmptyString => false
  | String c EmptyString => is_slash c
  | String _ r => ends_with_slash r
  end.

(** [os.path.join(a, b)] (posixpath) *)
Definition path_join (a b : string) : string :=
  if starts_with is_slash b then b
  else if is_empty a || ends_with_slash a then a ++ b
  else a ++ "/" ++ b.

Definition is_percent (c : ascii) : bool := (code c =? 37)%N.

Definition hex_digit (c : ascii) : option N :=
  if in_range 48 57 c then Some (code c - 48)%N
  else if in_range 65 70 c then Some (code c - 55)%N
  else if in_range 97 102 c then Some (code c - 87)%N
  else None.

(** [urllib.parse.unquote]: [%XY] with two hexadecimal digits is replaced
    by the character of that code, any other [%] is kept.  Python decodes
    the bytes of a run of escapes as UTF-8, with U+FFFD for what is not:
    for the escapes below [%80] that is the identity, and these are the
    escapes the embedding is faithful for. *)
Fixpoint unquote (s : string) : string :=
  match s with
  | EmptyString => EmptyString
  | String c r =>
      if is_percent c then
        match r with
        | String h (String l r') =>
            match hex_digit h, hex_digit l with
            | Some x, Some y => String (ascii_of_N (16 * x + y)) (unquote r')
            | _, _ => String c (unquote r)
            end
        | _ => String c (unquote r)
        end
      else String c (unquote r)
  end.

(* ================================================================= *)
(** ** The parsed document ([bs4]) *)

#[local] Unset Elimination Schemes.

(** The subclasses of [NavigableString]. *)
Inductive string_class : Type :=
| Comment
| CData
| ProcessingInstruction
| Declaration
| Doctype
| Stylesheet
| Script
| TemplateString
| RubyTextString
| RubyParenthesisString.

Inductive node : Type :=
| NavigableString (text : string)
| SpecialString (cls : string_class) (text : string)
| Tag (name : string) (classes : list string)
      (attrs : list (string * string)) (contents : list node).

#[local] Set Elimination Schemes.

Definition node_name (n : node) : option string :=
  match n with
  | NavigableString _ | SpecialString _ _ => None
  | Tag name _ _ _ => Some name
  end.

Definition node_classes (n : node) : list string :=
  match n with
  | NavigableString _ | SpecialString _ _ => []
  | Tag _ classes _ _ => classes
  end.

Definition node_attrs (n : node) : list (string * string) :=
  match n with
  | NavigableString _ | SpecialString _ _ => []
  | Tag _ _ attrs _ => attrs
  end.

Definition node_contents (n : node) : list node :=
  match n with
  | NavigableString _ | SpecialString _ _ => []
  | Tag _ _ _ contents => contents
  end.

(** [tag.descendants]: every node below [n], in document order. *)
Fixpoint descendants (n : node) : list node :=
  match n with
  | NavigableString _ | SpecialString _ _ => []
  | Tag _ _ _ contents => flat_map (fun c => c :: descendants c) contents
  end.

Definition is_tag (name : string) (n : node) : bool :=
  match n with
  | NavigableString _ | SpecialString _ _ => false
  | Tag name' _ _ _ => String.eqb name' name
  end.

Definition is_any_tag (n : node) : bool :=
  match n with
  | NavigableString _ | SpecialString _ _ => false
  | Tag _ _ _ _ => true
  end.

(** [class_=c], and [c in tag.get("class", [])]: one of the tokens of the
    class attribute is [c]. *)
Definition has_class (c : string) (n : node) : bool :=
  existsb (String.eqb c) (node_classes n).

(** [tag.find_all(...)], [tag.find_all(..., recursive=False)] and
    [tag.find(...)], for a test [p] on nodes. *)
Definition find_all (p : node -> bool) (n : node) : list node :=
  filter p (descendants n).

Definition find_all_children (p : node -> bool) (n : node) : list node :=
  filter p (node_contents n).

Definition find (p : node -> bool) (n : node) : option node :=
  hd_error (find_all p n).

(** The strings below [n] in document order, of whatever class, each with
    the name of its parent: [tag.find_all(string=True)] with
    [text_node.parent.name]. *)
Fixpoint strings_under (parent : string) (n : node) : list (string * string) :=
  match n with
  | NavigableString text | SpecialString _ text => [(parent, text)]
  | Tag name _ _ contents => flat_map (strings_under name) contents
  end.

Definition find_all_strings (n : node) : list (string * string) :=
  match n with
  | NavigableString _ | SpecialString _ _ => []
  | Tag _ _ _ _ => strings_under "" n
  end.

Definition string_class_eqb (a b : string_class) : bool :=
  match a, b with
  | Comment, Comment | CData, CData
  | ProcessingInstruction, ProcessingInstruction
  | Declaration, Declaration | Doctype, Doctype
  | Stylesheet, Stylesheet | Script, Script
  | TemplateString, TemplateString
  | RubyTextString, RubyTextString
  | RubyParenthesisString, RubyParenthesisString => true
  | _, _ => false
  end.

(** [builder.string_containers] of the HTML tree builders: the class of
    the strings that make up the text of a tag of that name. *)
Definition string_container (name : string) : option string_class :=
  if String.eqb name "rt" then Some RubyTextString
  else if String.eqb name "rp" then Some RubyParenthesisString
  else if String.eqb name "style" then Some Stylesheet
  else if String.eqb name "script" then Some Script
  else if String.eqb name "template" then Some TemplateString
  else None.

(** [tag.interesting_string_types] for a tag called [name]: the class of
    its container when it is one, plain strings and [CData] otherwise.
    [None] is the class of a plain [NavigableString]. *)
Definition interesting_string (name : string) (cls : option string_class)
  : bool :=
  match string_container name, cls with
  | Some c, Some c' => string_class_eqb c' c
  | Some _, None => false
  | None, None => true
  | None, Some CData => true
  | None, Some _ => false
  end.

(** The strings below [n] in document order, each with its class. *)
Fixpoint classed_strings (n : node) : list (option string_class * string) :=
  match n with
  | NavigableString text => [(None, text)]
  | SpecialString cls text => [(Some cls, text)]
  | Tag _ _ _ contents => flat_map classed_strings contents
  end.

(** [tag.get_text(strip=True)]: the strings below the tag that are of a
    class of interest to it are stripped, the empty ones are dropped and
    the rest is joined without separator.  Comments are never of
    interest; the strings of [script], [style], [template], [rt] and [rp]
    are so to these tags alone.
    [visible_strings name l] are the pieces [get_text] joins for a tag
    called [name] with the strings [l] below it.  The code calls
    [get_text] on tags only. *)
Definition visible_strings (name : string)
  (l : list (option string_class * string)) : list string :=
  filter truthy
    (map (fun cs => strip (snd cs))
         (filter (fun cs => interesting_string name (fst cs)) l)).

Definition get_text_strip (n : node) : string :=
  match n with
  | NavigableString _ | SpecialString _ _ => EmptyString
  | Tag name _ _ _ => String.concat "" (visible_strings name (classed_strings n))
  end.

(** The descendants of [n] with the name of their parent, for the child
    combinator of [select_one]. *)
Fixpoint descendants_under (parent : string) (n : node)
  : list (string * node) :=
  match n with
  | NavigableString _ | SpecialString _ _ => []
  | Tag name _ _ contents =>
      flat_map (fun c => (name, c) :: descendants_under name c) contents
  end.

(** [tag.select_one("p > c")]: the first descendant named [c] whose parent
    is named [p]. *)
Definition select_one_child (p c : string) (n : node) : option node :=
  hd_error
    (map snd
       (filter (fun pn => String.eqb (fst pn) p && is_tag c (snd pn))
               (descendants_under "" n))).

(** [tag.string]: the only child when it is a string, of whatever class,
    through a chain of only children; [None] otherwise. *)
Fixpoint tag_string (n : node) : option string :=
  match n with
  | NavigableString text | SpecialString _ text => Some text
  | Tag _ _ _ [c] => tag_string c
  | Tag _ _ _ _ => None
  end.

(** Attribute dictionaries: [attrs.get(k)] and [attrs[k] = v]. *)
Fixpoint attr_get (k : string) (attrs : list (string * string))
  : option string :=
  match attrs with
  | [] => None
  | (k', v) :: r => if String.eqb k' k then Some v else attr_get k r
  end.

Definition attr_mem (k : string) (attrs : list (string * string)) : bool :=
  existsb (fun kv => String.eqb (fst kv) k) attrs.

Definition attr_set (k v : string) (attrs : list (string * string))
  : list (string * string) :=
  if attr_mem k attrs
  then map (fun kv => if String.eqb (fst kv) k then (fst kv, v) else kv) attrs
  else attrs ++ [(k, v)].

(** The first child that is a tag (the loop over [first_div.children]
    that skips the strings). *)
Fixpoint first_tag (l : list node) : option node :=
  match l with
  | [] => None
  | c :: r => if is_any_tag c then Some c else first_tag r
  end.

(** [first_element.extract()] for that child: it leaves the contents of
    its parent. *)
Fixpoint remove_first_tag (l : list node) : list node :=
  match l with
  | [] => []
  | c :: r => if is_any_tag c then r else c :: remove_first_tag r
  end.

Definition extract_first_tag (n : node) : node :=
  match n with
  | NavigableString _ | SpecialString _ _ => n
  | Tag name classes attrs contents =>
      Tag name classes attrs (remove_first_tag contents)
  end.

(* ================================================================= *)
(** ** [notion_import.py]: the card parser *)

Definition DEFAULT_SUBDECK_NAME : string := "Default".

Record NotionCard : Type := mkNotionCard {
  front : string;
  back : string;
  tags : list string;
  media_files : list string
}.

(** What the converter prints while it parses. *)
Inductive diagnostic : Type :=
| MissingMedia (full_path : string).

Definition in_script_or_style (parent : string) : bool :=
  String.eqb parent "script" || String.eqb parent "style".

(** The body of the loop of [extract_hashtags], for one string. *)
Definition extract_hashtags_text (keep_tags : bool) (parent text : string)
  : string * list string :=
  if in_script_or_style parent then (text, [])
  else
    let found_tags := re_findall_hashtag text in
    let tags := map lower found_tags in
    if negb keep_tags && nonempty found_tags
    then (strip (re_sub_spaces (re_sub_hashtag text)), tags)
    else (text, tags).

(** Whether the loop replaces the string.  What
    [text_node.replace_with(NavigableString(cleaned_text))] puts in its
    place is a plain string, whatever the class of the string was. *)
Definition extract_hashtags_replaces (keep_tags : bool) (parent text : string)
  : bool :=
  negb (in_script_or_style parent)
  && (negb keep_tags && nonempty (re_findall_hashtag text)).

(** Whether a string below [n] that is not a plain one (a comment, the
    text of a [style], [script] or [template] element, ...) holds a tag
    that the loop removes. *)
Fixpoint hidden_tokens (parent : string) (n : node) : bool :=
  match n with
  | NavigableString _ => false
  | SpecialString _ text => extract_hashtags_replaces false parent text
  | Tag name _ _ contents => existsb (hidden_tokens name) contents
  end.

(** The loop of [extract_hashtags] as one walk in document order: every
    string is replaced where it stands and its tags are added after the
    tags of the strings before it. *)
Fixpoint extract_hashtags_under (keep_tags : bool) (parent : string)
  (n : node) : node * list string :=
  match n with
  | NavigableString text =>
      let (text', tags) := extract_hashtags_text keep_tags parent text in
      (NavigableString text', tags)
  | SpecialString cls text =>
      let (text', tags) := extract_hashtags_text keep_tags parent text in
      (if extract_hashtags_replaces keep_tags parent text
       then NavigableString text' else SpecialString cls text, tags)
  | Tag name classes attrs contents =>
      let r :=
        (fix walk (l : list node) : list node * list string :=
           match l with
           | [] => ([], [])
           | c :: l' =>
               let (c', tags1) := extract_hashtags_under keep_tags name c in
               let (l'', tags2) := walk l' in
               (c' :: l'', tags1 ++ tags2)
           end) contents in
      (Tag name classes attrs (fst r), snd r)
  end.

Definition extract_hashtags (element : node) (keep_tags : bool)
  : node * list string :=
  match element with
  | NavigableString _ | SpecialString _ _ => (element, [])
  | Tag _ _ _ _ => extract_hashtags_under keep_tags "" element
  end.

Section Disk.

(** [os.path.exists] *)
Variable path_exists : string -> bool.

(** The body of the loop of [process_images], for the attributes of one
    [img]: the new attributes, the media files and what is printed. *)
Definition process_image (assets_dir : string) (attrs : list (string * string))
  : list (string * string) * list string * list diagnostic :=
  match attr_get "src" attrs with
  | None => (attrs, [], [])
  | Some src =>
      if is_empty src then (attrs, [], [])
      else
        let decoded_src := unquote src in
        let filename := basename decoded_src in
        let full_path := path_join assets_dir filename in
        if path_exists full_path
        then (attr_set "src" filename attrs, [full_path], [])
        else (attrs, [], [MissingMedia full_path])
  end.

(** The loop of [process_images] as one walk in document order over the
    nodes below the element. *)
Fixpoint process_images_node (assets_dir : string) (n : node)
  : node * list string * list diagnostic :=
  match n with
  | NavigableString _ | SpecialString _ _ => (n, [], [])
  | Tag name classes attrs contents =>
      let '(attrs', media0, out0) :=
        if String.eqb name "img" then process_image assets_dir attrs
        else (attrs, [], []) in
      let '(contents', media1, out1) :=
        (fix walk (l : list node)
           : list node * list string * list diagnostic :=
           match l with
           | [] => ([], [], [])
           | c :: l' =>
               let '(c', m1, o1) := process_images_node assets_dir c in
               let '(l'', m2, o2) := walk l' in
               (c' :: l'', m1 ++ m2, o1 ++ o2)
           end) contents in
      (Tag name classes attrs' contents', media0 ++ media1, out0 ++ out1)
  end.

Definition process_images_list (assets_dir : string)
  : list node -> list node * list string * list diagnostic :=
  fix walk (l : list node) : list node * list string * list diagnostic :=
    match l with
    | [] => ([], [], [])
    | c :: l' =>
        let '(c', m1, o1) := process_images_node assets_dir c in
        let '(l'', m2, o2) := walk l' in
        (c' :: l'', m1 ++ m2, o1 ++ o2)
    end.

(** [process_images]: [element.find_all("img")] does not yield the element
    itself. *)
Definition process_images (element : node) (assets_dir : string)
  : node * list string * list diagnostic :=
  match element with
  | NavigableString _ | SpecialString _ _ => (element, [], [])
  | Tag name classes attrs contents =>
      let '(contents', media, out) := process_images_list assets_dir contents in
      (Tag name classes attrs contents', media, out)
  end.

(** [str(element)] *)
Variable str_of : node -> string.

(** [process_media_in_html]; the call of [process_audio_files] is a
    comment in the source.  The element after the processing comes first,
    [str(element)] second. *)
Definition process_media_in_html (element : node) (assets_dir : string)
  : node * string * list string * list diagnostic :=
  let '(element', media_files, out) := process_images element assets_dir in
  (element', str_of element', [] ++ media_files, out).

Definition parse_callout (callout : node) (assets_dir : string)
  (keep_tags : bool) : option NotionCard * list diagnostic :=
  match find (is_tag "div") callout with
  | None => (None, [])
  | Some first_div =>
      let (first_div, tags) := extract_hashtags first_div keep_tags in
      match first_tag (node_contents first_div) with
      | None => (None, [])
      | Some first_element =>
          let front_text := get_text_strip first_element in
          if is_empty front_text then (None, [])
          else
            let first_div := extract_first_tag first_div in
            let '(_, back_html, media_files, out) :=
              process_media_in_html first_div assets_dir in
            let unique_tags := sorted_set (map lower tags) in
            (Some (mkNotionCard front_text back_html unique_tags media_files),
             out)
      end
  end.

End Disk.

(* ================================================================= *)
(** ** [notion_import.py]: the document walker *)

(** [Dict[str, List[NotionCard]]]: a Python [dict] keeps its keys in the
    order of their insertion. *)
Definition subdecks_dict : Type := list (string * list NotionCard).

(** [k in d] *)
Definition dict_mem (k : string) (d : subdecks_dict) : bool :=
  existsb (fun kv => String.eqb (fst kv) k) d.

(** [d[k]]; [None] is [KeyError]. *)
Fixpoint dict_get (k : string) (d : subdecks_dict) : option (list NotionCard) :=
  match d with
  | [] => None
  | (k', v) :: r => if String.eqb k' k then Some v else dict_get k r
  end.

(** [d[k] = v]: a new key goes last, a present key keeps its place. *)
Fixpoint dict_set (k : string) (v : list NotionCard) (d : subdecks_dict)
  : subdecks_dict :=
  match d with
  | [] => [(k, v)]
  | (k', v') :: r =>
      if String.eqb k' k then (k', v) :: r else (k', v') :: dict_set k v r
  end.

(** [d[k].append(card)]: the list under [k] grows in place; [None] is the
    [KeyError] of [d[k]]. *)
Fixpoint dict_append (k : string) (card : NotionCard) (d : subdecks_dict)
  : option subdecks_dict :=
  match d with
  | [] => None
  | (k', v) :: r =>
      if String.eqb k' k then Some ((k', v ++ [card]) :: r)
      else option_map (cons (k', v)) (dict_append k card r)
  end.

Section Walker.

Variable path_exists : string -> bool.
Variable str_of : node -> string.

(** The state of the walk: the dictionary and what was printed so far. *)
Definition walk_state : Type := subdecks_dict * list diagnostic.

(** [card = parse_callout(...)] followed by
    [if card: subdecks[name].append(card)]. *)
Definition append_callout (name : string) (assets_dir : string)
  (keep_tags : bool) (st : option walk_state) (callout : node)
  : option walk_state :=
  match st with
  | None => None
  | Some (subdecks, out) =>
      let (card, out') :=
        parse_callout path_exists str_of callout assets_dir keep_tags in
      match card with
      | Some card =>
          option_map (fun d => (d, out ++ out')) (dict_append name card subdecks)
      | None => Some (subdecks, out ++ out')
      end
  end.

Definition _process_details_subdeck (details : node) (st : walk_state)
  (assets_dir : string) (keep_tags : bool) : option walk_state :=
  let (subdecks, out) := st in
  match find (is_tag "summary") details with
  | None => Some st
  | Some summary =>
      let subdeck_name := get_text_strip summary in
      let subdecks :=
        if negb (dict_mem subdeck_name subdecks)
        then dict_set subdeck_name [] subdecks else subdecks in
      match find (fun n => is_tag "div" n && has_class "indented" n) details with
      | None => Some (subdecks, out)
      | Some indented =>
          let callouts :=
            find_all_children
              (fun n => is_tag "figure" n && has_class "callout" n) indented in
          fold_left (append_callout subdeck_name assets_dir keep_tags)
                    callouts (Some (subdecks, out))
      end
  end.

Definition _process_standalone_callout (callout : node) (st : walk_state)
  (assets_dir : string) (keep_tags : bool) : option walk_state :=
  let (subdecks, out) := st in
  let subdecks :=
    if negb (dict_mem DEFAULT_SUBDECK_NAME subdecks)
    then dict_set DEFAULT_SUBDECK_NAME [] subdecks else subdecks in
  append_callout DEFAULT_SUBDECK_NAME assets_dir keep_tags
                 (Some (subdecks, out)) callout.

(** [extract_css_from_html], which parses the file once more; the result
    is [None] when [style_tag.string] is. *)
Definition extract_css_from_html (soup : node) : option string :=
  match find (is_tag "style") soup with
  | Some style_tag => tag_string style_tag
  | None => Some ""
  end.

(** The body of the loop of [parse_html_file] over the children of the
    page body. *)
Definition process_element (assets_dir : string) (keep_tags : bool)
  (st : option walk_state) (element : node) : option walk_state :=
  match st with
  | None => None
  | Some st =>
      if is_tag "details" element
      then _process_details_subdeck element st assets_dir keep_tags
      else if is_tag "figure" element && has_class "callout" element
           then _process_standalone_callout element st assets_dir keep_tags
           else Some st
  end.

(** [parse_html_file], from the parsed file [soup] on: the deck name, the
    subdecks and the style sheet, with what was printed. *)
Definition parse_html_file (soup : node) (assets_dir : string)
  (keep_tags : bool)
  : option (string * subdecks_dict * option string * list diagnostic) :=
  let subdecks : subdecks_dict := [] in
  let deck_name := "Notion Deck" in
  let css := extract_css_from_html soup in
  match find (is_tag "article") soup with
  | None => Some (deck_name, subdecks, css, [])
  | Some article =>
      let deck_name :=
        match select_one_child "header" "h1" article with
        | Some header => get_text_strip header
        | None => deck_name
        end in
      match find (fun n => is_tag "div" n && has_class "page-body" n) article with
      | None => Some (deck_name, subdecks, css, [])
      | Some page_body =>
          let elements :=
            find_all_children
              (fun n => is_tag "details" n || is_tag "figure" n) page_body in
          match fold_left (process_element assets_dir keep_tags) elements
                          (Some (subdecks, [])) with
          | Some (subdecks, out) => Some (deck_name, subdecks, css, out)
          | None => None
          end
      end
  end.

End Walker.

(* ================================================================= *)
(** ** [notion_import.py]: the two exports *)

(** [export_csv]: the rows handed to [csv.writer], the header first. *)
Definition export_csv (deck_name : string) (subdecks : subdecks_dict)
  : list (list string) :=
  ["Deck"; "Subdeck"; "Front"; "Back"; "Tags"]
  :: flat_map
       (fun kv =>
          map (fun card =>
                 [deck_name; fst kv; front card; back card;
                  String.concat ", " (tags card)])
              (snd kv))
       subdecks.

Record Note : Type := mkNote {
  note_fields : list string;
  note_tags : list string
}.

Record Deck : Type := mkDeck {
  deck_id : Z;
  deck_title : string;
  deck_notes : list Note
}.

Section Package.

(** Python's [hash] on strings, which differs from run to run. *)
Variable py_hash : string -> Z.

(** [export_apkg]: the decks handed to [genanki.Package], one for each key
    of the dictionary, and the media files of all the cards before
    [list(set(...))] drops the repetitions. *)
Definition export_apkg (deck_name : string) (subdecks : subdecks_dict)
  : list Deck * list string :=
  (map (fun kv =>
          let full_deck_name :=
            if negb (String.eqb (fst kv) DEFAULT_SUBDECK_NAME)
            then (deck_name ++ "::" ++ fst kv)%string else deck_name in
          let deck_id := (Z.abs (py_hash full_deck_name) mod 10 ^ 10)%Z in
          mkDeck deck_id full_deck_name
                 (map (fun card => mkNote [front card; back card] (tags card))
                      (snd kv)))
       subdecks,
   flat_map (fun kv => flat_map media_files (snd kv)) subdecks).

End Package.

(* ================================================================= *)
(** ** Vocabulary of the specification *)

(** Somewhere in [s] a character of class [p] stands right before one of
    class [q]. *)
Fixpoint has_pair (p q : ascii -> bool) (s : string) : bool :=
  match s with
  | EmptyString => false
  | String c r => (p c && starts_with q r) || has_pair p q r
  end.

(** A [#word] token occurs in [s]: a [#] that a word character follows. *)
Definition has_hashtag (s : string) : bool := has_pair is_hash is_word s.

(** Two white-space characters in a row occur in [s]. *)
Definition has_space_run (s : string) : bool := has_pair is_space is_space s.

Definition is_blank (c : ascii) : bool := (code c =? 32)%N.

(** Two spaces in a row occur in [s]. *)
Definition has_two_spaces (s : string) : bool := has_pair is_blank is_blank s.

Fixpoint ends_with (p : ascii -> bool) (s : string) : bool :=
  match s with
  | EmptyString => false
  | String c EmptyString => p c
  | String _ r => ends_with p r
  end.

(** No upper-case letter occurs in [s]. *)
Fixpoint is_lowercase (s : string) : bool :=
  match s with
  | EmptyString => true
  | String c r => negb (is_upper c) && is_lowercase r
  end.

(** The names of [l] in the order of their first occurrence. *)
Fixpoint first_seen (l : list string) : list string :=
  match l with
  | [] => []
  | k :: r => k :: filter (fun k' => negb (String.eqb k' k)) (first_seen r)
  end.

Definition card_list (c : option NotionCard) : list NotionCard :=
  match c with
  | Some card => [card]
  | None => []
  end.

Section Sections.

Variable path_exists : string -> bool.
Variable str_of : node -> string.
Variable assets_dir : string.
Variable keep_tags : bool.

(** The cards of a list of callouts, in the order of the callouts. *)
Definition cards_of (callouts : list node) : list NotionCard :=
  flat_map
    (fun callout =>
       card_list (fst (parse_callout path_exists str_of callout
                                     assets_dir keep_tags)))
    callouts.

Definition is_callout (n : node) : bool :=
  is_tag "figure" n && has_class "callout" n.

Definition is_indented (n : node) : bool :=
  is_tag "div" n && has_class "indented" n.

Definition is_page_body (n : node) : bool :=
  is_tag "div" n && has_class "page-body" n.

(** What one child of the page body introduces: a collapsible section
    with a label gives the label and the cards of the callouts of its
    indented region; a callout gives ["Default"] and its card; anything
    else gives nothing. *)
Definition section_of (element : node) : option (string * list NotionCard) :=
  if is_tag "details" element then
    match find (is_tag "summary") element with
    | None => None
    | Some summary =>
        Some (get_text_strip summary,
              match find is_indented element with
              | None => []
              | Some indented =>
                  cards_of (find_all_children is_callout indented)
              end)
    end
  else if is_callout element then Some (DEFAULT_SUBDECK_NAME, cards_of [element])
  else None.

Definition option_list {A} (o : option A) : list A :=
  match o with
  | Some a => [a]
  | None => []
  end.

(** The sections of a document in document order; none when the article
    or the page body is missing. *)
Definition sections_of (soup : node) : list (string * list NotionCard) :=
  match find (is_tag "article") soup with
  | None => []
  | Some article =>
      match find is_page_body article with
      | None => []
      | Some page_body =>
          flat_map (fun e => option_list (section_of e))
                   (node_contents page_body)
      end
  end.

(** The cards of the sections labelled [k], in document order. *)
Definition cards_labelled (k : string) (l : list (string * list NotionCard))
  : list NotionCard :=
  flat_map snd (filter (fun s => String.eqb (fst s) k) l).

End Sections.

(** The subdecks the sections of a document stand for: the labels in the
    order of their first occurrence, each with the cards of all the
    sections that carry it, in document order. *)
Definition grouped (l : list (string * list NotionCard)) : subdecks_dict :=
  map (fun k => (k, cards_labelled k l)) (first_seen (map fst l)).

(** The target of an image reference: the decoded file name and the path
    looked up on the disk.  An [img] without [src], or with an empty one,
    is no reference. *)
Definition image_target (assets_dir : string) (img : node)
  : option (string * string) :=
  match attr_get "src" (node_attrs img) with
  | None => None
  | Some src =>
      if is_empty src then None
      else Some (basename (unquote src),
                 path_join assets_dir (basename (unquote src)))
  end.

(** The reference of [img] is resolved: its target is on the disk. *)
Definition resolved (path_exists : string -> bool) (assets_dir : string)
  (img : node) : bool :=
  match image_target assets_dir img with
  | Some (_, full_path) => path_exists full_path
  | None => false
  end.

(** What [parse_callout] holds when it calls [process_media_in_html]: the
    front text, the container (the first [div], hashtags extracted, front
    element detached) and the tags found. *)
Definition callout_parts (callout : node) (keep_tags : bool)
  : option (string * node * list string) :=
  match find (is_tag "div") callout with
  | None => None
  | Some first_div =>
      let (first_div, tags) := extract_hashtags first_div keep_tags in
      match first_tag (node_contents first_div) with
      | None => None
      | Some first_element =>
          if is_empty (get_text_strip first_element) then None
          else Some (get_text_strip first_element,
                     extract_first_tag first_div, tags)
      end
  end.

(** What [process_images] does to the attributes of a tag named [name],
    and what it adds to the media files and prints for a node. *)
Definition image_attrs (path_exists : string -> bool) (assets_dir : string)
  (name : string) (attrs : list (string * string)) : list (string * string) :=
  if String.eqb name "img"
  then fst (fst (process_image path_exists assets_dir attrs)) else attrs.

Definition image_media (path_exists : string -> bool) (assets_dir : string)
  (n : node) : list string :=
  if is_tag "img" n
  then snd (fst (process_image path_exists assets_dir (node_attrs n))) else [].

Definition image_out (path_exists : string -> bool) (assets_dir : string)
  (n : node) : list diagnostic :=
  if is_tag "img" n
  then snd (process_image path_exists assets_dir (node_attrs n)) else [].

(** The tree [n] with every string rewritten by [f], which is given the
    name of the parent, and with the attributes of every tag rewritten by
    [g], which is given the name of the tag.  A string of a subclass that
    [f] changes becomes a plain string. *)
Fixpoint rewrite_under (f : string -> string -> string)
  (g : string -> list (string * string) -> list (string * string))
  (parent : string) (n : node) : node :=
  match n with
  | NavigableString text => NavigableString (f parent text)
  | SpecialString cls text =>
      if String.eqb (f parent text) text then SpecialString cls text
      else NavigableString (f parent text)
  | Tag name classes attrs contents =>
      Tag name classes (g name attrs) (map (rewrite_under f g name) contents)
  end.

(** The name, the classes and the attributes of a tag, without what is
    below it. *)
Definition tag_head (n : node)
  : option string * list string * list (string * string) :=
  (node_name n, node_classes n, node_attrs n).

(** The order of [sorted], and its strict part. *)
Definition str_le (a b : string) : Prop := String.leb a b = true.
Definition str_lt (a b : string) : Prop := String.ltb a b = true.

(** The tags [extract_hashtags] collects from one string, and the text
    it leaves there. *)
Definition hashtag_text (keep_tags : bool) (parent text : string) : string :=
  fst (extract_hashtags_text keep_tags parent text).

Definition hashtag_tags (ps : string * string) : list string :=
  if in_script_or_style (fst ps) then []
  else map lower (re_findall_hashtag (snd ps)).

(** A test on nodes that only looks at the name and the classes of a
    tag. *)
Definition head_test (p : node -> bool) : Prop :=
  (forall text, p (NavigableString text) = false) /\
  (forall cls text, p (SpecialString cls text) = false) /\
  (forall name classes attrs attrs' contents contents',
      p (Tag name classes attrs contents) = p (Tag name classes attrs' contents')).

(** [d[k].extend(cards)]: the effect of appending [cards] one by one. *)
Fixpoint dict_extend (k : string) (cards : list NotionCard) (d : subdecks_dict)
  : subdecks_dict :=
  match d with
  | [] => []
  | (k', v) :: r =>
      if String.eqb k' k then (k', v ++ cards) :: r
      else (k', v) :: dict_extend k cards r
  end.

(** [if k not in d: d[k] = []] *)
Definition dict_ensure (k : string) (d : subdecks_dict) : subdecks_dict :=
  if negb (dict_mem k d) then dict_set k [] d else d.

(** What a section adds to the dictionary. *)
Definition add_section (s : string * list NotionCard) (d : subdecks_dict)
  : subdecks_dict :=
  dict_extend (fst s) (snd s) (dict_ensure (fst s) d).

(** [k in l] for a list of names. *)
Definition mem (k : string) (l : list string) : bool := existsb (String.eqb k) l.

(* ================================================================= *)
(** ** Sample documents *)

Definition dquote : string := String (ascii_of_N 34) EmptyString.

Definition markup_attr (kv : string * string) : string :=
  " " ++ fst kv ++ "=" ++ dquote ++ snd kv ++ dquote.

(** A serialiser for the examples: tags with their attributes around their
    contents, strings as they are. *)
Fixpoint plain_markup (n : node) : string :=
  match n with
  | NavigableString text => text
  | SpecialString Comment text => "<!--" ++ text ++ "-->"
  | SpecialString _ text => text
  | Tag name classes attrs contents =>
      "<" ++ name
      ++ match classes with
         | [] => ""
         | _ => markup_attr ("class", String.concat " " classes)
         end
      ++ String.concat "" (map markup_attr attrs)
      ++ ">" ++ String.concat "" (map plain_markup contents)
      ++ "</" ++ name ++ ">"
  end.

(** A disk that holds [assets/diagram.png] and [assets/clip.mp3]. *)
Definition sample_disk (p : string) : bool :=
  String.eqb p "assets/diagram.png" || String.eqb p "assets/clip.mp3".

Definition p_ (contents : list node) : node := Tag "p" [] [] contents.
Definition txt (s : string) : node := NavigableString s.

(** A callout with a tagged front, a link to an audio file, an image that
    is on the disk and one that is not. *)
Definition callout_math : node :=
  Tag "figure" ["callout"] []
    [Tag "div" [] [("style", "width:100%")]
       [txt " ";
        p_ [txt "Q1 #Math"];
        p_ [txt "Answer  #Algebra rules"];
        Tag "a" [] [("href", "clip.mp3")] [txt "clip"];
        Tag "img" [] [("src", "notes/diagram.png")] [];
        Tag "img" [] [("src", "notes/lost%20file.png"); ("alt", "x")] []]].


(** A callout whose front holds a token that spans two strings, and two
    spaces in a string without a token. *)
Definition callout_split_token : node :=
  Tag "figure" ["callout"] []
    [Tag "div" [] []
       [p_ [txt "#"; Tag "b" [] [] [txt "tag"]; txt " a  b"];
        p_ [txt "Answer"]]].

Definition page (article_contents : list node) : node :=
  Tag "[document]" [] []
    [Tag "html" [] []
       [Tag "head" [] [] [Tag "style" [] [] [SpecialString Stylesheet "p{}"]];
        Tag "body" [] [] [Tag "article" ["page"] [] article_contents]]].

Definition header_ (title : string) : node :=
  Tag "header" [] [] [Tag "h1" ["page-title"] [] [txt title]].

Definition details_ (label : string) (rest : list node) : node :=
  Tag "details" [] [] (Tag "summary" [] [] [txt label] :: rest).

Definition indented_ (contents : list node) : node :=
  Tag "div" ["indented"] [] contents.

Definition callout_ (q a : string) : node :=
  Tag "figure" ["callout"] [] [Tag "div" [] [] [p_ [txt q]; p_ [txt a]]].

(** An article with a title and no page body. *)
Definition page_without_body : node := page [header_ "Biology"].

(** A document without an article. *)
Definition page_without_article : node :=
  Tag "[document]" [] [] [Tag "html" [] [] [Tag "body" [] [] [p_ [txt "x"]]]].

(** A page body with a labelled section that has no indented region,
    next to a callout. *)
Definition page_with_empty_section : node :=
  page [header_ "Biology";
        Tag "div" ["page-body"] []
          [details_ "Later" []; callout_ "Q1" "A1"]].

(** A page body where the label [Cells] comes twice, around a callout
    outside any section. *)
Definition page_with_repeated_label : node :=
  page [header_ "Biology";
        Tag "div" ["page-body"] []
          [details_ "Cells" [indented_ [callout_ "Q1" "A1"; callout_ "Q2" "A2"]];
           callout_ "Q3" "A3";
           p_ [txt "notes"];
           details_ "Cells" [indented_ [callout_ "Q4" "A4"]]]].


(* ================================================================= *)
(** ** [notion_import.py]: [main], from the parse result on *)

(** [s.endswith(suffix)] *)
Fixpoint str_endswith (s suffix : string) : bool :=
  if String.eqb s suffix then true
  else match s with
       | EmptyString => false
       | String _ r => str_endswith r suffix
       end.

Definition newline : string := String (ascii_of_N 10) EmptyString.

(** How [main] ends once the file is parsed: with [SystemExit], with the
    [TypeError] of [css + "\n" + CARD_STYLE_CSS] in [export_apkg] when
    [css] is [None], or with a file written. *)
Inductive outcome : Type :=
| NoCardsFound
| BadOutputName
| CssTypeError
| WroteCsv (rows : list (list string))
| WroteApkg (card_css : string) (decks : list Deck) (media : list string).

(** [sum(len(cards) for cards in subdecks.values())] *)
Definition total_cards (subdecks : subdecks_dict) : nat :=
  list_sum (map (fun kv => List.length (snd kv)) subdecks).

Section Main.

Variable py_hash : string -> Z.

(** The contents of [card_style.css], read when the module is loaded. *)
Variable CARD_STYLE_CSS : string.

(** [main], lines 541 to 552: the check of the number of cards, then the
    export the name of the output asks for.  [export_apkg] builds
    [card_css] before anything else. *)
Definition main_export (deck_name : string) (subdecks : subdecks_dict)
  (css : option string) (output : string) : outcome :=
  if Nat.eqb (total_cards subdecks) 0 then NoCardsFound
  else if str_endswith output ".csv"
       then WroteCsv (export_csv deck_name subdecks)
       else if str_endswith output ".apkg"
            then match css with
                 | None => CssTypeError
                 | Some css =>
                     let card_css := (css ++ newline ++ CARD_STYLE_CSS)%string in
                     let (decks, all_media) :=
                       export_apkg py_hash deck_name subdecks in
                     WroteApkg card_css decks all_media
                 end
            else BadOutputName.

End Main.

(* ================================================================= *)
(** ** Further vocabulary *)

(** Every character of [s] is of class [p]. *)
Fixpoint all_chars (p : ascii -> bool) (s : string) : bool :=
  match s with
  | EmptyString => true
  | String c r => p c && all_chars p r
  end.

(** A piece of [get_text(strip=True)]: not empty, no white space at
    either end. *)
Definition trimmed_piece (s : string) : Prop :=
  truthy s = true /\ starts_with is_space s = false /\ ends_with is_space s = false.

(** [img] carries an image reference: a [src] that is not empty. *)
Definition has_reference (assets_dir : string) (img : node) : bool :=
  match image_target assets_dir img with
  | Some _ => true
  | None => false
  end.

(** The deck name [parse_html_file] settles on. *)
Definition deck_name_of (soup : node) : string :=
  match find (is_tag "article") soup with
  | None => "Notion Deck"
  | Some article =>
      match select_one_child "header" "h1" article with
      | Some header => get_text_strip header
      | None => "Notion Deck"
      end
  end.

(** The attributes other than [k], in their order. *)
Definition attrs_without (k : string) (attrs : list (string * string))
  : list (string * string) :=
  filter (fun kv => negb (String.eqb (fst kv) k)) attrs.

(** The title [export_apkg] gives the deck of the subdeck [k]. *)
Definition full_deck_name (deck_name k : string) : string :=
  if negb (String.eqb k DEFAULT_SUBDECK_NAME)
  then (deck_name ++ "::" ++ k)%string else deck_name.

(** The row [export_csv] writes for a card of the subdeck [k], and the
    subdeck a row names. *)
Definition csv_row (deck_name k : string) (card : NotionCard) : list string :=
  [deck_name; k; front card; back card; String.concat ", " (tags card)].

Definition row_subdeck (row : list string) : string := nth 1 row "".

(** The note [export_apkg] makes of a card. *)
Definition note_of (card : NotionCard) : Note :=
  mkNote [front card; back card] (tags card).

(** A callout with an image in its front element and one in its back. *)
Definition callout_front_image : node :=
  Tag "figure" ["callout"] []
    [Tag "div" [] []
       [txt " ";
        p_ [txt "Which organ? #Anatomy";
            Tag "img" [] [("src", "notes/lost%20file.png")] []];
        p_ [txt "The heart #anatomy";
            Tag "img" [] [("src", "notes/diagram.png"); ("alt", "heart")] []]]].

(** A callout with a tagged front that holds a comment without a tag. *)
Definition callout_front_comment : node :=
  Tag "figure" ["callout"] []
    [Tag "div" [] []
       [txt " ";
        p_ [txt "Which organ? #Anatomy"; SpecialString Comment " figure 3 "];
        p_ [txt "The heart #anatomy";
            Tag "img" [] [("src", "notes/diagram.png"); ("alt", "heart")] []]]].

(** A callout whose front element holds the text of a [style] element
    and nothing else. *)
Definition callout_style_front : node :=
  Tag "figure" ["callout"] []
    [Tag "div" [] []
       [p_ [Tag "style" [] [] [SpecialString Stylesheet "x{}"]];
        p_ [txt "Answer"]]].

(** A callout whose front element holds a comment with a token and
    nothing else. *)
Definition callout_comment_front : node :=
  Tag "figure" ["callout"] []
    [Tag "div" [] []
       [p_ [SpecialString Comment " see #Later "]; p_ [txt "Answer"]]].

(** A callout with a token in a comment of its back. *)
Definition callout_comment_tag : node :=
  Tag "figure" ["callout"] []
    [Tag "div" [] []
       [p_ [txt "Q"];
        SpecialString Comment " #Hidden ";
        p_ [txt "A #Shown"]]].

(** A callout whose back holds an anchor around an image, both pointing
    at an audio file that is on the disk. *)
Definition callout_audio_image : node :=
  Tag "figure" ["callout"] []
    [Tag "div" [] []
       [p_ [txt "Q"];
        Tag "a" [] [("href", "notes/clip.mp3")]
          [Tag "img" [] [("src", "notes/clip.mp3")] []]]].

(** A page body where the label [Later] heads a section without an
    indented region and then a section with a card. *)
Definition page_with_label_only_section : node :=
  page [header_ "Biology";
        Tag "div" ["page-body"] []
          [details_ "Later" [];
           callout_ "Q1" "A1";
           details_ "Later" [indented_ [callout_ "Q2" "A2"]]]].

(** A page whose style element is empty. *)
Definition page_with_empty_style : node :=
  Tag "[document]" [] []
    [Tag "html" [] []
       [Tag "head" [] [] [Tag "style" [] [] []];
        Tag "body" [] []
          [Tag "article" ["page"] []
             [header_ "Biology";
              Tag "div" ["page-body"] [] [callout_ "Q1" "A1"]]]]].

(* ================================================================= *)
(** * Properties *)

(** ** Characters and strings *)

Example findall_example :
  re_findall_hashtag "Q1 #Math and ##b#c_d9! #" = ["Math"; "b"; "c_d9"].
Proof. reflexivity. Qed.

Example sub_example :
  re_sub_hashtag "Q1 #Math and ##b#c_d9! #" = "Q1  and #! #".
Proof. reflexivity. Qed.

Example cleaned_example :
  strip (re_sub_spaces (re_sub_hashtag "  Q1 #Math  and  x ")) = "Q1 and x".
Proof. reflexivity. Qed.

Example unquote_example :
  unquote "My%20Page/a%2fb%zz%4" = "My Page/a/b%zz%4".
Proof. reflexivity. Qed.

Example path_examples :
  basename "notes/diagram.png" = "diagram.png" /\ basename "notes/" = "" /\
  path_join "assets" "f.png" = "assets/f.png" /\
  path_join "assets/" "f.png" = "assets/f.png" /\ path_join "" "f.png" = "f.png".
Proof. repeat split. Qed.

(** Scenario A of the specification. *)
Example scenario_a :
  let callout :=
    Tag "figure" ["callout"] []
      [Tag "div" [] [] [p_ [txt "Q1 #math"]; p_ [txt "Answer"]]] in
  (exists back out,
      parse_callout sample_disk plain_markup callout "assets" true
      = (Some (mkNotionCard "Q1 #math" back ["math"] []), out)) /\
  (exists back out,
      parse_callout sample_disk plain_markup callout "assets" false
      = (Some (mkNotionCard "Q1" back ["math"] []), out)).
Proof. split; eexists; eexists; reflexivity. Qed.

(** Scenario C of the specification: a first [div] with text only. *)
Example scenario_c :
  parse_callout sample_disk plain_markup
    (Tag "figure" ["callout"] [] [Tag "div" [] [] [txt "only text"]])
    "assets" true
  = (None, []).
Proof. reflexivity. Qed.

Ltac by_ascii_cases c :=
  destruct c as [[] [] [] [] [] [] [] []]; try reflexivity; try discriminate.

Lemma word_not_hash (c : ascii) : is_word c = true -> is_hash c = false.
Proof. by_ascii_cases c. Qed.

Lemma space_not_word (c : ascii) : is_space c = true -> is_word c = false.
Proof. by_ascii_cases c. Qed.

Lemma space_not_hash (c : ascii) : is_space c = true -> is_hash c = false.
Proof. by_ascii_cases c. Qed.

Lemma blank_is_space (c : ascii) : is_blank c = true -> is_space c = true.
Proof. by_ascii_cases c. Qed.

Lemma lower_char_not_upper (c : ascii) : is_upper (lower_char c) = false.
Proof. by_ascii_cases c. Qed.

Lemma lower_char_fixed (c : ascii) : is_upper c = false -> lower_char c = c.
Proof. unfold lower_char. intros ->. reflexivity. Qed.

Lemma lower_is_lowercase (s : string) : is_lowercase (lower s) = true.
Proof.
  induction s as [|c r IH]; simpl; [reflexivity|].
  rewrite lower_char_not_upper, IH. reflexivity.
Qed.

Lemma lowercase_lower_fixed (s : string) :
  is_lowercase s = true -> lower s = s.
Proof.
  induction s as [|c r IH]; simpl; [reflexivity|].
  intros H. apply andb_true_iff in H. destruct H as [Hc Hr].
  apply negb_true_iff in Hc.
  rewrite (lower_char_fixed c Hc), (IH Hr). reflexivity.
Qed.

(** *** The scan for hashtags *)

Lemma findall_nonempty_from (b : bool) (s : string) :
  nonempty (findall_hashtag_from b s) = has_hashtag s.
Proof.
  unfold has_hashtag. revert b. induction s as [|c r IH]; intros b; simpl; [reflexivity|].
  destruct (b && is_word c) eqn:Hin.
  - apply andb_true_iff in Hin. destruct Hin as [_ Hw].
    rewrite (word_not_hash c Hw). simpl. apply IH.
  - destruct (is_hash c && starts_with is_word r); simpl; [reflexivity|].
    apply IH.
Qed.

Lemma findall_nonempty (s : string) :
  nonempty (re_findall_hashtag s) = has_hashtag s.
Proof. apply findall_nonempty_from. Qed.

Lemma findall_nil_iff (s : string) :
  re_findall_hashtag s = [] <-> has_hashtag s = false.
Proof.
  rewrite <- findall_nonempty.
  destruct (re_findall_hashtag s); simpl; split; congruence.
Qed.

Lemma sub_hashtag_in_tag_start (s : string) :
  starts_with is_word (sub_hashtag_from true s) = false.
Proof.
  induction s as [|c r IH]; simpl; [reflexivity|].
  destruct (is_word c) eqn:Hw; simpl; [exact IH|].
  destruct (is_hash c && starts_with is_word r); simpl; [exact IH|exact Hw].
Qed.

Lemma sub_hashtag_start (s : string) :
  starts_with is_word s = false ->
  starts_with is_word (sub_hashtag_from false s) = false.
Proof.
  destruct s as [|c r]; simpl; [reflexivity|]. intros Hw.
  destruct (is_hash c && starts_with is_word r); simpl.
  - apply sub_hashtag_in_tag_start.
  - exact Hw.
Qed.

Lemma sub_hashtag_from_clean (b : bool) (s : string) :
  has_hashtag (sub_hashtag_from b s) = false.
Proof.
  unfold has_hashtag. revert b. induction s as [|c r IH]; intros b; simpl; [reflexivity|].
  destruct (b && is_word c); [apply IH|].
  destruct (is_hash c) eqn:Hh; simpl.
  - destruct (starts_with is_word r) eqn:Hr; simpl; [apply IH|].
    rewrite Hh, (sub_hashtag_start r Hr), IH. reflexivity.
  - rewrite Hh, IH. reflexivity.
Qed.

(** *** Collapsing white space *)

Lemma sub_spaces_start_word (s : string) :
  starts_with is_word (sub_spaces_from false s) = starts_with is_word s.
Proof.
  destruct s as [|c r]; simpl; [reflexivity|].
  destruct (is_space c) eqn:Hs; simpl; [|reflexivity].
  symmetry. apply space_not_word, Hs.
Qed.

Lemma sub_spaces_keeps_clean (b : bool) (s : string) :
  has_hashtag s = false -> has_hashtag (sub_spaces_from b s) = false.
Proof.
  unfold has_hashtag. revert b. induction s as [|c r IH]; intros b; simpl; [reflexivity|].
  intros H. apply orb_false_iff in H. destruct H as [Hc Hr].
  destruct (is_space c) eqn:Hs.
  - destruct b; simpl; auto.
  - simpl. rewrite sub_spaces_start_word, Hc. simpl. auto.
Qed.

Lemma sub_spaces_in_run_start (s : string) :
  starts_with is_space (sub_spaces_from true s) = false.
Proof.
  induction s as [|c r IH]; simpl; [reflexivity|].
  destruct (is_space c) eqn:Hs; simpl; [exact IH|exact Hs].
Qed.

Lemma sub_spaces_no_run (b : bool) (s : string) :
  has_space_run (sub_spaces_from b s) = false.
Proof.
  unfold has_space_run. revert b. induction s as [|c r IH]; intros b; simpl; [reflexivity|].
  destruct (is_space c) eqn:Hs.
  - destruct b; simpl; [apply IH|].
    rewrite sub_spaces_in_run_start, IH. reflexivity.
  - simpl. rewrite Hs, IH. reflexivity.
Qed.

(** *** Stripping *)

Lemma lstrip_keeps_no_pair (p q : ascii -> bool) (s : string) :
  has_pair p q s = false -> has_pair p q (lstrip s) = false.
Proof.
  induction s as [|c r IH]; simpl; [reflexivity|].
  intros H. destruct (is_space c); [|exact H].
  apply orb_false_iff in H. apply IH, H.
Qed.

Lemma rstrip_start (q : ascii -> bool) (s : string) :
  starts_with q (rstrip s) = true -> starts_with q s = true.
Proof.
  destruct s as [|c r]; simpl; [discriminate|].
  destruct (rstrip r); [destruct (is_space c)|]; simpl; auto; discriminate.
Qed.

Lemma rstrip_keeps_no_pair (p q : ascii -> bool) (s : string) :
  has_pair p q s = false -> has_pair p q (rstrip s) = false.
Proof.
  induction s as [|c r IH]; simpl; [reflexivity|].
  intros H. apply orb_false_iff in H. destruct H as [Hc Hr].
  specialize (IH Hr). pose proof (rstrip_start q r) as Hstart.
  destruct (rstrip r) as [|c' r'] eqn:E.
  - destruct (is_space c); simpl; [reflexivity|].
    rewrite andb_false_r. reflexivity.
  - change (has_pair p q (String c (String c' r')))
      with ((p c && starts_with q (String c' r')) || has_pair p q (String c' r')).
    rewrite IH, orb_false_r.
    destruct (p c); simpl in *; [|reflexivity].
    destruct (q c') eqn:Hq; [|reflexivity].
    rewrite Hstart in Hc; [discriminate|reflexivity].
Qed.

Lemma strip_keeps_no_pair (p q : ascii -> bool) (s : string) :
  has_pair p q s = false -> has_pair p q (strip s) = false.
Proof.
  intros H. apply lstrip_keeps_no_pair, rstrip_keeps_no_pair, H.
Qed.

Lemma lstrip_start (s : string) : starts_with is_space (lstrip s) = false.
Proof.
  induction s as [|c r IH]; simpl; [reflexivity|].
  destruct (is_space c) eqn:Hs; simpl; [exact IH|exact Hs].
Qed.

Lemma rstrip_end (s : string) : ends_with is_space (rstrip s) = false.
Proof.
  induction s as [|c r IH]; simpl; [reflexivity|].
  destruct (rstrip r) as [|c' r'] eqn:E.
  - destruct (is_space c) eqn:Hs; simpl; [reflexivity|exact Hs].
  - exact IH.
Qed.

Lemma lstrip_end (p : ascii -> bool) (s : string) :
  ends_with p s = false -> ends_with p (lstrip s) = false.
Proof.
  induction s as [|c r IH]; simpl; [reflexivity|].
  intros H. destruct (is_space c); [|exact H].
  destruct r as [|c' r']; [reflexivity|]. apply IH, H.
Qed.

Lemma strip_start (s : string) : starts_with is_space (strip s) = false.
Proof. apply lstrip_start. Qed.

Lemma strip_end (s : string) : ends_with is_space (strip s) = false.
Proof. apply lstrip_end, rstrip_end. Qed.

Lemma two_spaces_space_run (s : string) :
  has_space_run s = false -> has_two_spaces s = false.
Proof.
  unfold has_space_run, has_two_spaces.
  induction s as [|c r IH]; simpl; [reflexivity|].
  intros H. apply orb_false_iff in H. destruct H as [Hc Hr].
  rewrite (IH Hr), orb_false_r.
  destruct (is_blank c) eqn:Hb; [|reflexivity]. simpl.
  rewrite (blank_is_space c Hb) in Hc. simpl in Hc.
  destruct r as [|c' r']; simpl in *; [reflexivity|].
  destruct (is_blank c') eqn:Hb'; [|reflexivity].
  rewrite (blank_is_space c' Hb') in Hc. discriminate.
Qed.

(** What [extract_hashtags] writes back into a string with hashtags when
    [keep_tags] is false. *)
Lemma cleaned_text_facts (text : string) :
  let cleaned := strip (re_sub_spaces (re_sub_hashtag text)) in
  has_hashtag cleaned = false /\ has_space_run cleaned = false /\
  has_two_spaces cleaned = false /\
  starts_with is_space cleaned = false /\ ends_with is_space cleaned = false.
Proof.
  assert (Hrun : has_space_run (strip (re_sub_spaces (re_sub_hashtag text))) = false)
    by apply strip_keeps_no_pair, sub_spaces_no_run.
  repeat split.
  - apply strip_keeps_no_pair, sub_spaces_keeps_clean, sub_hashtag_from_clean.
  - exact Hrun.
  - apply two_spaces_space_run, Hrun.
  - apply strip_start.
  - apply strip_end.
Qed.

(** ** Sorting *)

Lemma insert_sorted_In (x y : string) (l : list string) :
  In x (insert_sorted y l) <-> x = y \/ In x l.
Proof.
  induction l as [|z r IH]; simpl; [intuition|].
  destruct (String.leb y z); simpl; [intuition|].
  rewrite IH. intuition.
Qed.

Lemma sorted_In (x : string) (l : list string) : In x (sorted l) <-> In x l.
Proof.
  induction l as [|y r IH]; simpl; [tauto|].
  rewrite insert_sorted_In, IH. intuition.
Qed.

Lemma insert_sorted_NoDup (y : string) (l : list string) :
  NoDup l -> ~ In y l -> NoDup (insert_sorted y l).
Proof.
  induction l as [|z r IH]; simpl; intros Hnd Hin.
  - constructor; [tauto|constructor].
  - destruct (String.leb y z).
    + constructor; [simpl; tauto|exact Hnd].
    + inversion Hnd as [|? ? Hz Hr]; subst. constructor.
      * rewrite insert_sorted_In. intros [->|H]; tauto.
      * apply IH; tauto.
Qed.

Lemma sorted_NoDup (l : list string) : NoDup l -> NoDup (sorted l).
Proof.
  induction 1 as [|x r Hx Hr IH]; simpl; [constructor|].
  apply insert_sorted_NoDup; [exact IH|]. rewrite sorted_In. exact Hx.
Qed.

Lemma insert_sorted_HdRel (a y : string) (l : list string) :
  str_le a y -> HdRel str_le a l -> HdRel str_le a (insert_sorted y l).
Proof.
  intros Hay Hl. destruct l as [|z r]; simpl.
  - constructor. exact Hay.
  - destruct (String.leb y z); constructor; [exact Hay|].
    inversion Hl; assumption.
Qed.

Lemma insert_sorted_Sorted (y : string) (l : list string) :
  Sorted str_le l -> Sorted str_le (insert_sorted y l).
Proof.
  induction 1 as [|z r Hr IH Hz]; simpl.
  - repeat constructor.
  - destruct (String.leb y z) eqn:E.
    + constructor; [constructor; assumption|]. constructor. exact E.
    + constructor; [exact IH|].
      apply insert_sorted_HdRel; [|exact Hz].
      destruct (String.leb_total y z) as [H|H]; [congruence|exact H].
Qed.

Lemma sorted_Sorted (l : list string) : Sorted str_le (sorted l).
Proof.
  induction l as [|x r IH]; simpl; [constructor|].
  apply insert_sorted_Sorted, IH.
Qed.

Lemma le_neq_lt (a b : string) : str_le a b -> a <> b -> str_lt a b.
Proof.
  unfold str_le, str_lt, String.leb, String.ltb. intros Hle Hne.
  destruct (String.compare a b) eqn:E; try reflexivity; try discriminate.
  apply String.compare_eq_iff in E. contradiction.
Qed.

Lemma Sorted_strict (l : list string) :
  Sorted str_le l -> NoDup l -> Sorted str_lt l.
Proof.
  induction 1 as [|x r Hr IH Hx]; intros Hnd; constructor.
  - apply IH. inversion Hnd; assumption.
  - destruct Hx as [|y r' Hxy]; constructor.
    apply le_neq_lt; [exact Hxy|].
    inversion Hnd as [|? ? Hin _]; subst. simpl in Hin. intros ->. tauto.
Qed.

Lemma sorted_set_facts (l : list string) :
  Sorted str_lt (sorted_set l) /\ NoDup (sorted_set l) /\
  (forall x, In x (sorted_set l) <-> In x l).
Proof.
  unfold sorted_set.
  assert (Hnd : NoDup (sorted (nodup string_dec l)))
    by apply sorted_NoDup, NoDup_nodup.
  repeat split.
  - apply Sorted_strict; [apply sorted_Sorted|exact Hnd].
  - exact Hnd.
  - rewrite sorted_In, nodup_In. tauto.
  - rewrite sorted_In, nodup_In. tauto.
Qed.

Lemma compare_refl (a : string) : String.compare a a = Eq.
Proof.
  induction a as [|x r IH]; simpl; [reflexivity|].
  unfold Ascii.compare. rewrite N.compare_refl. exact IH.
Qed.

Lemma compare_lt_trans (a b c : string) :
  String.compare a b = Lt -> String.compare b c = Lt -> String.compare a c = Lt.
Proof.
  revert b c. induction a as [|x r IH]; intros [|y s] [|z t]; simpl;
    try congruence.
  unfold Ascii.compare.
  destruct (N.compare_spec (N_of_ascii x) (N_of_ascii y)) as [Exy|Lxy|Gxy];
    destruct (N.compare_spec (N_of_ascii y) (N_of_ascii z)) as [Eyz|Lyz|Gyz];
    try discriminate; intros H1 H2.
  - rewrite Exy, Eyz, N.compare_refl. exact (IH s t H1 H2).
  - rewrite Exy, (proj2 (N.compare_lt_iff _ _) Lyz). reflexivity.
  - rewrite <- Eyz, (proj2 (N.compare_lt_iff _ _) Lxy). reflexivity.
  - rewrite (proj2 (N.compare_lt_iff _ _) (N.lt_trans _ _ _ Lxy Lyz)).
    reflexivity.
Qed.

Lemma str_lt_trans (a b c : string) : str_lt a b -> str_lt b c -> str_lt a c.
Proof.
  unfold str_lt, String.ltb. intros Hab Hbc.
  destruct (String.compare a b) eqn:Eab; try discriminate.
  destruct (String.compare b c) eqn:Ebc; try discriminate.
  rewrite (compare_lt_trans a b c Eab Ebc). reflexivity.
Qed.

Lemma str_lt_irrefl (a : string) : ~ str_lt a a.
Proof. unfold str_lt, String.ltb. rewrite compare_refl. discriminate. Qed.

(** A strictly ascending list is determined by its elements. *)
Lemma strictly_sorted_unique (l l' : list string) :
  Sorted str_lt l -> Sorted str_lt l' ->
  (forall x, In x l <-> In x l') -> l = l'.
Proof.
  intros Hl Hl'.
  apply Sorted_StronglySorted in Hl; [|exact str_lt_trans].
  apply Sorted_StronglySorted in Hl'; [|exact str_lt_trans].
  revert l' Hl'. induction Hl as [|a r Hr IH Ha]; intros l' Hl' Hsame.
  - destruct l' as [|a' r']; [reflexivity|].
    destruct (proj2 (Hsame a') (or_introl eq_refl)).
  - destruct Hl' as [|a' r' Hr' Ha'].
    + destruct (proj1 (Hsame a) (or_introl eq_refl)).
    + rewrite Forall_forall in Ha, Ha'.
      assert (Heq : a = a').
      { destruct (proj1 (Hsame a) (or_introl eq_refl)) as [E|Hin]; [auto|].
        destruct (proj2 (Hsame a') (or_introl eq_refl)) as [E|Hin']; [auto|].
        destruct (str_lt_irrefl a).
        exact (str_lt_trans _ _ _ (Ha _ Hin') (Ha' _ Hin)). }
      subst a'. f_equal. apply IH; [exact Hr'|].
      intros x. split; intros Hx.
      * destruct (proj1 (Hsame x) (or_intror Hx)) as [E|Hin]; [|exact Hin].
        subst x. destruct (str_lt_irrefl a). exact (Ha _ Hx).
      * destruct (proj2 (Hsame x) (or_intror Hx)) as [E|Hin]; [|exact Hin].
        subst x. destruct (str_lt_irrefl a). exact (Ha' _ Hx).
Qed.

(** [sorted(set(l))] does not depend on the order in which the set gives
    its elements: sorting any duplicate-free list with the elements of
    [l] gives [sorted_set l]. *)
Lemma sorted_set_any_order (l elements : list string) :
  NoDup elements -> (forall x, In x elements <-> In x l) ->
  sorted elements = sorted_set l.
Proof.
  intros Hnd Hsame. destruct (sorted_set_facts l) as (Hs & _ & Hin).
  apply strictly_sorted_unique; [|exact Hs|].
  - apply Sorted_strict; [apply sorted_Sorted|apply sorted_NoDup, Hnd].
  - intros x. rewrite sorted_In, Hin. apply Hsame.
Qed.

(** ** Trees *)

Lemma node_ind' (P : node -> Prop) :
  (forall text, P (NavigableString text)) ->
  (forall cls text, P (SpecialString cls text)) ->
  (forall name classes attrs contents,
      Forall P contents -> P (Tag name classes attrs contents)) ->
  forall n, P n.
Proof.
  intros Hs Hc Ht. fix IH 1. intros [text|cls text|name classes attrs contents].
  - apply Hs.
  - apply Hc.
  - apply Ht. induction contents as [|c r IHr]; constructor.
    + apply IH.
    + exact IHr.
Qed.

Lemma rewrite_special_keep g (q : string) cls text :
  rewrite_under (fun _ s => s) g q (SpecialString cls text)
  = SpecialString cls text.
Proof. cbn. rewrite String.eqb_refl. reflexivity. Qed.

Lemma rewrite_tag_parent f g (q q' : string) (n : node) :
  is_any_tag n = true -> rewrite_under f g q n = rewrite_under f g q' n.
Proof. destruct n; simpl; [discriminate|discriminate|reflexivity]. Qed.

Lemma rewrite_strings f g (parent : string) (n : node) :
  strings_under parent (rewrite_under f g parent n)
  = map (fun ps => (fst ps, f (fst ps) (snd ps))) (strings_under parent n).
Proof.
  revert parent. induction n as [text|cls text|name classes attrs contents IH] using node_ind';
    intros parent; simpl; [reflexivity| |].
  { destruct (String.eqb (f parent text) text) eqn:E; [|reflexivity].
    apply String.eqb_eq in E. simpl. rewrite E. reflexivity. }
  clear parent. induction IH as [|c r Hc _ IHr]; simpl; [reflexivity|].
  rewrite map_app, Hc, IHr. reflexivity.
Qed.

Lemma rewrite_descendants f g (parent : string) (n : node) :
  descendants_under parent (rewrite_under f g parent n)
  = map (fun pn => (fst pn, rewrite_under f g (fst pn) (snd pn)))
        (descendants_under parent n).
Proof.
  revert parent. induction n as [text|cls text|name classes attrs contents IH] using node_ind';
    intros parent; simpl; [reflexivity| |].
  { destruct (String.eqb (f parent text) text); reflexivity. }
  clear parent. induction IH as [|c r Hc _ IHr]; simpl; [reflexivity|].
  rewrite map_app, Hc, IHr. reflexivity.
Qed.

Lemma descendants_snd (parent : string) (n : node) :
  descendants n = map snd (descendants_under parent n).
Proof.
  revert parent. induction n as [text|cls text|name classes attrs contents IH] using node_ind';
    intros parent; simpl; [reflexivity|reflexivity|].
  clear parent. induction IH as [|c r Hc _ IHr]; simpl; [reflexivity|].
  rewrite map_app, <- (Hc name), IHr. reflexivity.
Qed.

Lemma head_test_rewrite p f g (q : string) (n : node) :
  head_test p -> p (rewrite_under f g q n) = p n.
Proof.
  intros (Hs & Hc & Ht). destruct n as [text|cls text|name classes attrs contents];
    simpl; [rewrite !Hs; reflexivity| |apply Ht].
  destruct (String.eqb (f q text) text); [reflexivity|].
  rewrite Hs, Hc. reflexivity.
Qed.

Lemma head_test_tag p (n : node) : head_test p -> p n = true -> is_any_tag n = true.
Proof.
  intros (Hs & Hc & _).
  destruct n; simpl; [rewrite Hs; discriminate|rewrite Hc; discriminate|reflexivity].
Qed.

Lemma is_tag_head_test (name : string) : head_test (is_tag name).
Proof. repeat split. Qed.

Lemma is_tag_class_head_test (name c : string) :
  head_test (fun n => is_tag name n && has_class c n).
Proof. repeat split. Qed.

Lemma filter_map_rewrite p f g (l : list (string * node)) :
  head_test p ->
  filter p (map snd (map (fun pn => (fst pn, rewrite_under f g (fst pn) (snd pn))) l))
  = map (rewrite_under f g "") (filter p (map snd l)).
Proof.
  intros Hp. induction l as [|[q n] r IH]; simpl; [reflexivity|].
  rewrite (head_test_rewrite p f g q n Hp).
  destruct (p n) eqn:E; [|exact IH]. simpl. rewrite IH. f_equal.
  apply rewrite_tag_parent. exact (head_test_tag p n Hp E).
Qed.

(** The tags a rewriting leaves in the tree are the rewritten tags, in
    the same order. *)
Lemma find_all_rewrite p f g (parent : string) (n : node) :
  head_test p ->
  find_all p (rewrite_under f g parent n)
  = map (rewrite_under f g "") (find_all p n).
Proof.
  intros Hp. unfold find_all.
  rewrite (descendants_snd parent (rewrite_under f g parent n)).
  rewrite (descendants_snd parent n), rewrite_descendants.
  apply filter_map_rewrite, Hp.
Qed.

Lemma first_tag_rewrite f g (parent : string) (l : list node) :
  first_tag (map (rewrite_under f g parent) l)
  = option_map (rewrite_under f g parent) (first_tag l).
Proof.
  induction l as [|c r IH]; simpl; [reflexivity|].
  destruct c as [text|cls text|name classes attrs contents]; simpl;
    [exact IH| |reflexivity].
  destruct (String.eqb (f parent text) text); exact IH.
Qed.

Lemma remove_first_tag_rewrite f g (parent : string) (l : list node) :
  remove_first_tag (map (rewrite_under f g parent) l)
  = map (rewrite_under f g parent) (remove_first_tag l).
Proof.
  induction l as [|c r IH]; simpl; [reflexivity|].
  destruct c as [text|cls text|name classes attrs contents]; simpl;
    [rewrite IH; reflexivity| |reflexivity].
  destruct (String.eqb (f parent text) text); simpl; rewrite IH; reflexivity.
Qed.

Lemma rewrite_id (parent : string) (n : node) :
  rewrite_under (fun _ s => s) (fun _ a => a) parent n = n.
Proof.
  revert parent. induction n as [text|cls text|name classes attrs contents IH] using node_ind';
    intros parent; simpl; [reflexivity| |].
  { rewrite String.eqb_refl. reflexivity. }
  f_equal. clear parent. induction IH as [|c r Hc _ IHr]; simpl; [reflexivity|].
  rewrite Hc, IHr. reflexivity.
Qed.

Lemma rewrite_ext f f' g g' (parent : string) (n : node) :
  (forall p s, f p s = f' p s) -> (forall name a, g name a = g' name a) ->
  rewrite_under f g parent n = rewrite_under f' g' parent n.
Proof.
  intros Hf Hg. revert parent.
  induction n as [text|cls text|name classes attrs contents IH] using node_ind';
    intros parent; simpl; [rewrite Hf; reflexivity|rewrite Hf; reflexivity|].
  rewrite Hg. f_equal. clear parent.
  induction IH as [|c r Hc _ IHr]; simpl; [reflexivity|].
  rewrite Hc, IHr. reflexivity.
Qed.

(** ** [extract_hashtags] as a rewriting and a collection *)

Lemma extract_hashtags_text_tags (keep_tags : bool) (parent text : string) :
  snd (extract_hashtags_text keep_tags parent text) = hashtag_tags (parent, text).
Proof.
  unfold extract_hashtags_text, hashtag_tags. simpl.
  destruct (in_script_or_style parent); [reflexivity|].
  destruct (negb keep_tags && nonempty (re_findall_hashtag text)); reflexivity.
Qed.

(** A string is replaced exactly when its text changes: what is put in
    the place of a string with a token holds none. *)
Lemma extract_hashtags_replaces_changes (keep_tags : bool) (parent text : string) :
  extract_hashtags_replaces keep_tags parent text
  = negb (String.eqb (hashtag_text keep_tags parent text) text).
Proof.
  unfold extract_hashtags_replaces, hashtag_text, extract_hashtags_text.
  destruct (in_script_or_style parent); cbn [negb andb fst];
    [rewrite String.eqb_refl; reflexivity|].
  destruct (negb keep_tags && nonempty (re_findall_hashtag text)) eqn:E;
    cbn [fst]; [|rewrite String.eqb_refl; reflexivity].
  apply andb_true_iff in E. destruct E as [_ E]. rewrite findall_nonempty in E.
  destruct (String.eqb (strip (re_sub_spaces (re_sub_hashtag text))) text) eqn:Q;
    [|reflexivity].
  apply String.eqb_eq in Q. pose proof (cleaned_text_facts text) as [Hclean _].
  cbv zeta in Hclean. rewrite Q, E in Hclean. discriminate.
Qed.

Lemma extract_hashtags_under_spec (keep_tags : bool) (parent : string) (n : node) :
  extract_hashtags_under keep_tags parent n
  = (rewrite_under (hashtag_text keep_tags) (fun _ a => a) parent n,
     flat_map hashtag_tags (strings_under parent n)).
Proof.
  revert parent. induction n as [text|cls text|name classes attrs contents IH] using node_ind';
    intros parent; simpl.
  - unfold hashtag_text. rewrite app_nil_r, <- (extract_hashtags_text_tags keep_tags).
    destruct (extract_hashtags_text keep_tags parent text). reflexivity.
  - rewrite extract_hashtags_replaces_changes, app_nil_r.
    rewrite <- (extract_hashtags_text_tags keep_tags). unfold hashtag_text.
    destruct (extract_hashtags_text keep_tags parent text) as [text' found].
    cbn [fst snd]. destruct (String.eqb text' text); reflexivity.
  - clear parent.
    match goal with
    | |- (Tag _ _ _ (fst ?w), snd ?w) = _ =>
        assert (Hw : w = (map (rewrite_under (hashtag_text keep_tags)
                                 (fun _ a => a) name) contents,
                          flat_map hashtag_tags
                                   (flat_map (strings_under name) contents)))
    end.
    { induction IH as [|c r Hc _ IHr]; simpl; [reflexivity|].
      rewrite Hc, IHr, flat_map_app. reflexivity. }
    rewrite Hw. reflexivity.
Qed.

Lemma extract_hashtags_spec (element : node) (keep_tags : bool) :
  extract_hashtags element keep_tags
  = (rewrite_under (hashtag_text keep_tags) (fun _ a => a) "" element,
     flat_map hashtag_tags (find_all_strings element)) \/
  (is_any_tag element = false /\
   extract_hashtags element keep_tags = (element, [])).
Proof.
  destruct element as [text|cls text|name classes attrs contents].
  - right. split; reflexivity.
  - right. split; reflexivity.
  - left. unfold extract_hashtags, find_all_strings.
    apply extract_hashtags_under_spec.
Qed.

(** ** [process_images] as a rewriting and a collection *)

Section ImageFacts.

Variable path_exists : string -> bool.
Variable assets_dir : string.

Let keep_text : string -> string -> string := fun _ s => s.
Let new_attrs := image_attrs path_exists assets_dir.
Let media_of := image_media path_exists assets_dir.
Let out_of := image_out path_exists assets_dir.

Lemma rewrite_keep_text_parent g (q q' : string) (n : node) :
  rewrite_under keep_text g q n = rewrite_under keep_text g q' n.
Proof. destruct n; reflexivity. Qed.

Lemma rewrite_keep_text_special g (q : string) cls text :
  rewrite_under keep_text g q (SpecialString cls text)
  = SpecialString cls text.
Proof. cbn. unfold keep_text. rewrite String.eqb_refl. reflexivity. Qed.

Lemma process_images_node_unfold name classes attrs contents :
  process_images_node path_exists assets_dir (Tag name classes attrs contents)
  = let '(attrs', media0, out0) :=
      if String.eqb name "img"
      then process_image path_exists assets_dir attrs else (attrs, [], []) in
    let '(contents', media1, out1) :=
      process_images_list path_exists assets_dir contents in
    (Tag name classes attrs' contents', media0 ++ media1, out0 ++ out1).
Proof. reflexivity. Qed.

Lemma process_images_list_cons (c : node) (l : list node) :
  process_images_list path_exists assets_dir (c :: l)
  = let '(c', m1, o1) := process_images_node path_exists assets_dir c in
    let '(l'', m2, o2) := process_images_list path_exists assets_dir l in
    (c' :: l'', m1 ++ m2, o1 ++ o2).
Proof. reflexivity. Qed.

Lemma process_images_node_spec (n : node) :
  process_images_node path_exists assets_dir n
  = (rewrite_under keep_text new_attrs "" n,
     flat_map media_of (n :: descendants n),
     flat_map out_of (n :: descendants n)).
Proof.
  induction n as [text|cls text|name classes attrs contents IH] using node_ind';
    [reflexivity|cbn; unfold keep_text; rewrite String.eqb_refl; reflexivity|].
  rewrite process_images_node_unfold.
  assert (Hw : process_images_list path_exists assets_dir contents
               = (map (rewrite_under keep_text new_attrs name) contents,
                  flat_map media_of
                    (flat_map (fun c => c :: descendants c) contents),
                  flat_map out_of
                    (flat_map (fun c => c :: descendants c) contents))).
  { induction IH as [|c r Hc _ IHr]; [reflexivity|].
    rewrite process_images_list_cons, Hc, IHr. cbn [map flat_map].
    rewrite !flat_map_app, (rewrite_keep_text_parent new_attrs "" name).
    reflexivity. }
  rewrite Hw. cbn [rewrite_under descendants flat_map].
  unfold media_of, out_of, new_attrs, image_media, image_out, image_attrs.
  cbn [is_tag node_attrs].
  destruct (String.eqb name "img"); [|reflexivity].
  destruct (process_image path_exists assets_dir attrs) as [[a m] o].
  reflexivity.
Qed.

Lemma process_images_list_spec (parent : string) (l : list node) :
  process_images_list path_exists assets_dir l
  = (map (rewrite_under keep_text new_attrs parent) l,
     flat_map media_of (flat_map (fun c => c :: descendants c) l),
     flat_map out_of (flat_map (fun c => c :: descendants c) l)).
Proof.
  induction l as [|c r IH]; [reflexivity|].
  rewrite process_images_list_cons, process_images_node_spec, IH.
  cbn [map flat_map].
  rewrite !flat_map_app, (rewrite_keep_text_parent new_attrs "" parent).
  reflexivity.
Qed.

Lemma flat_map_filter {A B} (p : A -> bool) (f : A -> list B) (l : list A) :
  (forall a, p a = false -> f a = []) ->
  flat_map f l = flat_map f (filter p l).
Proof.
  intros H. induction l as [|a r IH]; simpl; [reflexivity|].
  destruct (p a) eqn:E; simpl; rewrite IH; [reflexivity|].
  rewrite (H a E). reflexivity.
Qed.

(** [process_images] rewrites the attributes of the [img] tags below the
    element, takes its media files from them in document order, and
    prints for them in that order. *)
Lemma process_images_spec (element : node) :
  is_tag "img" element = false ->
  process_images path_exists element assets_dir
  = (rewrite_under keep_text new_attrs "" element,
     flat_map media_of (find_all (is_tag "img") element),
     flat_map out_of (find_all (is_tag "img") element)).
Proof.
  destruct element as [text|cls text|name classes attrs contents];
    [reflexivity|intros _; rewrite rewrite_keep_text_special; reflexivity|].
  intros Himg. cbn [process_images].
  rewrite (process_images_list_spec name). unfold find_all.
  cbn [rewrite_under descendants].
  assert (Hattrs : new_attrs name attrs = attrs).
  { unfold new_attrs, image_attrs. cbn [is_tag] in Himg. rewrite Himg.
    reflexivity. }
  rewrite Hattrs.
  rewrite <- !(flat_map_filter (is_tag "img")); [reflexivity| |].
  - intros a Ha. unfold out_of, image_out. rewrite Ha. reflexivity.
  - intros a Ha. unfold media_of, image_media. rewrite Ha. reflexivity.
Qed.

End ImageFacts.

(** ** [find] *)

Lemma find_Some p (n m : node) :
  find p n = Some m -> p m = true /\ In m (descendants n).
Proof.
  unfold find, find_all. intros H.
  assert (Hin : In m (filter p (descendants n))).
  { destruct (filter p (descendants n)); [discriminate|].
    injection H as ->. left. reflexivity. }
  apply filter_In in Hin. tauto.
Qed.

Lemma find_None p (n : node) :
  find p n = None <-> forall m, In m (descendants n) -> p m = false.
Proof.
  unfold find, find_all. split.
  - intros H m Hin. destruct (p m) eqn:E; [|reflexivity].
    assert (Hf : In m (filter p (descendants n))) by (apply filter_In; tauto).
    destruct (filter p (descendants n)); [contradiction|discriminate].
  - intros H. induction (descendants n) as [|c r IH]; simpl; [reflexivity|].
    rewrite (H c) by (left; reflexivity). apply IH.
    intros m Hin. apply H. right. exact Hin.
Qed.

(** ** The card parser *)

Section CardFacts.

Variable path_exists : string -> bool.
Variable str_of : node -> string.

Lemma parse_callout_parts (callout : node) (assets_dir : string) (keep_tags : bool) :
  parse_callout path_exists str_of callout assets_dir keep_tags
  = match callout_parts callout keep_tags with
    | None => (None, [])
    | Some (front_text, before, found) =>
        let '(after, media, out) := process_images path_exists before assets_dir in
        (Some (mkNotionCard front_text (str_of after)
                            (sorted_set (map lower found)) media), out)
    end.
Proof.
  unfold parse_callout, callout_parts, process_media_in_html.
  destruct (find (is_tag "div") callout) as [first_div|]; [|reflexivity].
  destruct (extract_hashtags first_div keep_tags) as [first_div' found].
  destruct (first_tag (node_contents first_div')) as [first_element|]; [|reflexivity].
  destruct (is_empty (get_text_strip first_element)); [reflexivity|].
  destruct (process_images path_exists (extract_first_tag first_div') assets_dir)
    as [[after media] out].
  reflexivity.
Qed.

Lemma callout_parts_container (callout : node) (keep_tags : bool) front_text before found :
  callout_parts callout keep_tags = Some (front_text, before, found) ->
  is_tag "div" before = true.
Proof.
  unfold callout_parts.
  destruct (find (is_tag "div") callout) as [first_div|] eqn:Hdiv; [|discriminate].
  apply find_Some in Hdiv. destruct Hdiv as [Hdiv _].
  destruct first_div as [text|cls text|name classes attrs contents]; [discriminate|discriminate|].
  unfold extract_hashtags. rewrite extract_hashtags_under_spec.
  cbn [rewrite_under node_contents].
  destruct (first_tag _) as [first_element|]; [|discriminate].
  destruct (is_empty (get_text_strip first_element)); [discriminate|].
  intros H. injection H as _ <- _. exact Hdiv.
Qed.

Lemma parse_callout_Some (callout : node) (assets_dir : string) (keep_tags : bool)
  (card : NotionCard) (out : list diagnostic) :
  parse_callout path_exists str_of callout assets_dir keep_tags = (Some card, out) ->
  exists front_text before found,
    callout_parts callout keep_tags = Some (front_text, before, found) /\
    is_tag "div" before = true /\
    card = mkNotionCard front_text
             (str_of (rewrite_under (fun _ s => s)
                        (image_attrs path_exists assets_dir) "" before))
             (sorted_set (map lower found))
             (flat_map (image_media path_exists assets_dir)
                       (find_all (is_tag "img") before)) /\
    out = flat_map (image_out path_exists assets_dir)
                   (find_all (is_tag "img") before).
Proof.
  rewrite parse_callout_parts.
  destruct (callout_parts callout keep_tags) as [[[front_text before] found]|] eqn:Hparts;
    [|discriminate].
  pose proof (callout_parts_container _ _ _ _ _ Hparts) as Hdiv.
  rewrite process_images_spec.
  - intros H. injection H as <- <-.
    exists front_text, before, found. repeat split; assumption.
  - destruct before; [reflexivity|reflexivity|]. simpl in *.
    apply String.eqb_eq in Hdiv. subst. reflexivity.
Qed.

End CardFacts.

(** ** Hashtags *)

Lemma hashtag_text_keep (parent text : string) :
  hashtag_text true parent text = text.
Proof.
  unfold hashtag_text, extract_hashtags_text.
  destruct (in_script_or_style parent); reflexivity.
Qed.

Lemma hashtag_text_remove (parent text : string) :
  hashtag_text false parent text
  = if in_script_or_style parent || negb (has_hashtag text) then text
    else strip (re_sub_spaces (re_sub_hashtag text)).
Proof.
  unfold hashtag_text, extract_hashtags_text.
  destruct (in_script_or_style parent); [reflexivity|].
  rewrite findall_nonempty. simpl.
  destruct (has_hashtag text); reflexivity.
Qed.

Lemma extract_hashtags_strings (element : node) (keep_tags : bool) :
  find_all_strings (fst (extract_hashtags element keep_tags))
  = map (fun ps => (fst ps, hashtag_text keep_tags (fst ps) (snd ps)))
        (find_all_strings element).
Proof.
  destruct element as [text|cls text|name classes attrs contents]; [reflexivity|reflexivity|].
  unfold extract_hashtags. rewrite extract_hashtags_under_spec.
  cbn [fst]. unfold find_all_strings.
  apply rewrite_strings.
Qed.

(** C8.  With [keep_tags] true the extraction returns the element as it
    was given, strings included, so every [#word] token stays where and as
    it was written; the tags are collected all the same: they are the
    lower-cased tokens of the strings outside [script] and [style], the
    tags the extraction collects when it removes them. *)
Theorem extract_hashtags_keep_untouched (element : node) :
  fst (extract_hashtags element true) = element /\
  find_all_strings (fst (extract_hashtags element true))
  = find_all_strings element /\
  snd (extract_hashtags element true)
  = flat_map hashtag_tags (find_all_strings element) /\
  snd (extract_hashtags element true) = snd (extract_hashtags element false).
Proof.
  assert (Hfst : fst (extract_hashtags element true) = element).
  { destruct (extract_hashtags_spec element true) as [H|[_ H]];
      rewrite H; [|reflexivity].
    cbn [fst]. rewrite <- (rewrite_id "" element) at 2.
    apply rewrite_ext; [apply hashtag_text_keep|reflexivity]. }
  split; [exact Hfst|]. split; [rewrite Hfst; reflexivity|].
  destruct element as [text|cls text|name classes attrs contents].
  - split; reflexivity.
  - split; reflexivity.
  - unfold extract_hashtags. rewrite !extract_hashtags_under_spec.
    split; reflexivity.
Qed.

(** C5, as the code has it.  With [keep_tags] false the extraction keeps
    the strings where they are and rewrites those outside [script] and
    [style] in which a [#word] token occurs: such a string becomes its
    text without the tokens, white space collapsed and stripped, in which
    no token, no two white-space characters in a row (so no two spaces)
    and no white space at either end is left.  Every other string is kept
    as it was. *)
Theorem extract_hashtags_remove_per_string (element : node) :
  Forall2
    (fun before after =>
       fst after = fst before /\
       if in_script_or_style (fst before) || negb (has_hashtag (snd before))
       then snd after = snd before
       else snd after = strip (re_sub_spaces (re_sub_hashtag (snd before))) /\
            has_hashtag (snd after) = false /\
            has_space_run (snd after) = false /\
            has_two_spaces (snd after) = false /\
            starts_with is_space (snd after) = false /\
            ends_with is_space (snd after) = false)
    (find_all_strings element)
    (find_all_strings (fst (extract_hashtags element false))).
Proof.
  rewrite extract_hashtags_strings.
  induction (find_all_strings element) as [|[parent text] r IH]; simpl;
    constructor; [|exact IH].
  simpl. split; [reflexivity|]. rewrite hashtag_text_remove.
  destruct (in_script_or_style parent || negb (has_hashtag text));
    [reflexivity|].
  split; [reflexivity|]. apply cleaned_text_facts.
Qed.

(** ** The card parser: when a card is produced *)



Section CardClaims.

Variable path_exists : string -> bool.
Variable str_of : node -> string.



(** C7.  The tags of a card are lower-case, pairwise different and in
    strictly ascending order. *)
Theorem card_tags_lower_unique_sorted (callout : node) (assets_dir : string)
  (keep_tags : bool) (card : NotionCard) (out : list diagnostic) :
  parse_callout path_exists str_of callout assets_dir keep_tags = (Some card, out) ->
  Forall (fun tag => is_lowercase tag = true /\ lower tag = tag) (tags card) /\
  NoDup (tags card) /\
  Sorted str_lt (tags card).
Proof.
  intros H. apply parse_callout_Some in H.
  destruct H as (front_text & before & found & _ & _ & -> & _). cbn [tags].
  destruct (sorted_set_facts (map lower found)) as (Hsorted & Hnodup & Hin).
  repeat split; try assumption.
  apply Forall_forall. intros tag Htag. apply Hin, in_map_iff in Htag.
  destruct Htag as (t & <- & _).
  pose proof (lower_is_lowercase t) as Hl.
  split; [exact Hl|]. apply lowercase_lower_fixed, Hl.
Qed.

End CardClaims.

Lemma card_tags_lower_unique_sorted_witness :
  exists card out,
    parse_callout sample_disk plain_markup callout_math "assets" false
    = (Some card, out) /\
    tags card = ["algebra"; "math"] /\
    (Forall (fun tag => is_lowercase tag = true /\ lower tag = tag) (tags card) /\
     NoDup (tags card) /\ Sorted str_lt (tags card)).
Proof.
  eexists. eexists. split; [reflexivity|]. split; [reflexivity|].
  apply (card_tags_lower_unique_sorted sample_disk plain_markup callout_math
           "assets" false _ _ eq_refl).
Defined.


(** The text of a [style] element is not visible: a front element that
    holds nothing else gives no card. *)
Example parse_callout_style_front :
  get_text_strip (p_ [Tag "style" [] [] [SpecialString Stylesheet "x{}"]]) = ""
  /\ parse_callout sample_disk plain_markup callout_style_front "assets" true
     = (None, []).
Proof. split; reflexivity. Qed.

(** A comment is not visible either, until the removal of its token
    puts a plain string in its place. *)
Example parse_callout_comment_front :
  parse_callout sample_disk plain_markup callout_comment_front "assets" true
  = (None, [])
  /\ exists card,
       parse_callout sample_disk plain_markup callout_comment_front "assets" false
       = (Some card, []) /\
       front card = "see" /\ tags card = ["later"].
Proof. split; [reflexivity|]. eexists. repeat split. Qed.

(** ** Paths *)

Lemma has_slash_basename (s : string) : has_slash (basename s) = false.
Proof.
  induction s as [|c r IH]; [reflexivity|].
  cbn [basename]. destruct (has_slash (String c r)) eqn:E; [exact IH|exact E].
Qed.

Lemma basename_no_slash (s : string) : has_slash s = false -> basename s = s.
Proof.
  destruct s as [|c r]; [reflexivity|]. cbn [basename]. intros ->. reflexivity.
Qed.

Lemma has_slash_after_slash (a f : string) :
  ends_with_slash a = true -> has_slash (a ++ f) = true.
Proof.
  induction a as [|c r IH]; [discriminate|].
  destruct r as [|c' r']; simpl in *.
  - intros ->. reflexivity.
  - intros H. rewrite (IH H). apply orb_true_r.
Qed.

Lemma basename_after_slash (a f : string) :
  ends_with_slash a = true -> has_slash f = false -> basename (a ++ f) = f.
Proof.
  intros Ha Hf. induction a as [|c r IH]; [discriminate|].
  destruct r as [|c' r'].
  - simpl in Ha. change (String c "" ++ f)%string with (String c f).
    cbn [basename has_slash]. rewrite Ha. simpl. apply basename_no_slash, Hf.
  - change (String c (String c' r') ++ f)%string
      with (String c (String c' r' ++ f)).
    cbn [basename]. cbn [has_slash].
    change (ends_with_slash (String c (String c' r')))
      with (ends_with_slash (String c' r')) in Ha.
    change (is_slash c' || has_slash (r' ++ f))
      with (has_slash (String c' r' ++ f)).
    rewrite (has_slash_after_slash _ f Ha), orb_true_r. apply IH, Ha.
Qed.

Lemma append_assoc (a b c : string) : ((a ++ b) ++ c = a ++ (b ++ c))%string.
Proof. induction a as [|x r IH]; simpl; [reflexivity|]. rewrite IH. reflexivity. Qed.

Lemma ends_with_slash_append (a : string) : ends_with_slash (a ++ "/") = true.
Proof.
  induction a as [|c r IH]; [reflexivity|].
  simpl. destruct (r ++ "/")%string eqn:E; [|exact IH].
  destruct r; discriminate.
Qed.

(** The file name of a path built by [process_images] is the file name
    it was built from. *)
Lemma basename_path_join (a f : string) :
  has_slash f = false -> basename (path_join a f) = f.
Proof.
  intros Hf. unfold path_join.
  assert (Hstart : starts_with is_slash f = false).
  { destruct f as [|c r]; [reflexivity|]. simpl in *.
    apply orb_false_iff in Hf. tauto. }
  rewrite Hstart.
  destruct a as [|c r]; [apply basename_no_slash, Hf|].
  cbn [is_empty orb].
  destruct (ends_with_slash (String c r)) eqn:E.
  - apply basename_after_slash; assumption.
  - rewrite <- append_assoc.
    apply basename_after_slash; [apply ends_with_slash_append|exact Hf].
Qed.

(** ** Attributes *)

Lemma attr_get_set (k v : string) (attrs : list (string * string)) :
  attr_get k (attr_set k v attrs) = Some v.
Proof.
  unfold attr_set. destruct (attr_mem k attrs) eqn:Hmem.
  - induction attrs as [|[k' v'] r IH]; [discriminate|].
    simpl in *. destruct (String.eqb k' k) eqn:E; simpl; rewrite E; [reflexivity|].
    apply IH, Hmem.
  - induction attrs as [|[k' v'] r IH]; simpl in *.
    + rewrite String.eqb_refl. reflexivity.
    + destruct (String.eqb k' k); [discriminate|]. apply IH, Hmem.
Qed.

(** ** Media *)

Section MediaFacts.

Variable path_exists : string -> bool.
Variable assets_dir : string.

Let rewritten : node -> node :=
  rewrite_under (fun _ s => s) (image_attrs path_exists assets_dir) "".

Lemma process_image_target (attrs : list (string * string)) :
  process_image path_exists assets_dir attrs
  = match image_target assets_dir (Tag "img" [] attrs []) with
    | None => (attrs, [], [])
    | Some (filename, full_path) =>
        if path_exists full_path
        then (attr_set "src" filename attrs, [full_path], [])
        else (attrs, [], [MissingMedia full_path])
    end.
Proof.
  unfold process_image, image_target. cbn [node_attrs].
  destruct (attr_get "src" attrs) as [src|]; [|reflexivity].
  destruct (is_empty src); reflexivity.
Qed.

Lemma image_target_attrs (m : node) :
  image_target assets_dir m
  = image_target assets_dir (Tag "img" [] (node_attrs m) []).
Proof. reflexivity. Qed.

Lemma image_target_file (m : node) (filename full_path : string) :
  image_target assets_dir m = Some (filename, full_path) ->
  full_path = path_join assets_dir filename /\ basename full_path = filename.
Proof.
  unfold image_target. destruct (attr_get "src" (node_attrs m)) as [src|];
    [|discriminate].
  destruct (is_empty src); [discriminate|].
  intros H. injection H as <- <-. split; [reflexivity|].
  apply basename_path_join, has_slash_basename.
Qed.

Lemma rewritten_attrs (m : node) :
  is_tag "img" m = true ->
  node_attrs (rewritten m)
  = fst (fst (process_image path_exists assets_dir (node_attrs m))).
Proof.
  destruct m as [text|cls text|name classes attrs contents]; [discriminate|discriminate|].
  unfold rewritten, image_attrs. simpl. intros ->. reflexivity.
Qed.

Lemma rewritten_head_other (m : node) :
  is_tag "img" m = false -> tag_head (rewritten m) = tag_head m.
Proof.
  destruct m as [text|cls text|name classes attrs contents];
    [reflexivity|unfold rewritten; rewrite rewrite_special_keep; reflexivity|].
  unfold rewritten, tag_head, image_attrs. simpl. intros ->. reflexivity.
Qed.

Lemma rewritten_name_classes (m : node) :
  node_name (rewritten m) = node_name m /\
  node_classes (rewritten m) = node_classes m.
Proof.
  destruct m; unfold rewritten; rewrite ?rewrite_special_keep;
    split; reflexivity.
Qed.

Lemma image_media_exists (m : node) (p : string) :
  In p (image_media path_exists assets_dir m) ->
  is_tag "img" m = true /\ path_exists p = true /\
  exists filename, image_target assets_dir m = Some (filename, p).
Proof.
  unfold image_media. destruct (is_tag "img" m); [|contradiction].
  rewrite process_image_target, <- image_target_attrs.
  destruct (image_target assets_dir m) as [[filename full_path]|]; [|contradiction].
  destruct (path_exists full_path) eqn:E; [|contradiction].
  simpl. intros [<-|[]]. split; [reflexivity|]. split; [exact E|].
  exists filename. reflexivity.
Qed.

End MediaFacts.

Section MediaClaims.

Variable path_exists : string -> bool.
Variable str_of : node -> string.
Variable assets_dir : string.

Let rewritten : node -> node :=
  rewrite_under (fun _ s => s) (image_attrs path_exists assets_dir) "".

(** The images with a resolved reference, before and after the
    processing, stand in order against the media files. *)
Lemma resolved_images_media (l : list node) :
  Forall (fun m => is_tag "img" m = true) l ->
  Forall2
    (fun ba full_path =>
       attr_get "src" (node_attrs (snd ba)) = Some (basename full_path) /\
       image_target assets_dir (fst ba) = Some (basename full_path, full_path) /\
       path_exists full_path = true)
    (filter (fun ba => resolved path_exists assets_dir (fst ba))
            (combine l (map rewritten l)))
    (flat_map (image_media path_exists assets_dir) l).
Proof.
  induction 1 as [|m r Hm _ IH]; [constructor|].
  cbn [map combine filter flat_map fst].
  pose proof (rewritten_attrs path_exists assets_dir m Hm) as Hattrs.
  pose proof (image_target_file assets_dir m) as Hfile.
  unfold resolved, image_media. rewrite Hm.
  rewrite process_image_target, <- image_target_attrs in *.
  destruct (image_target assets_dir m) as [[filename full_path]|] eqn:Htarget;
    [|exact IH].
  destruct (Hfile _ _ eq_refl) as [_ Hbase].
  destruct (path_exists full_path) eqn:E; [|exact IH].
  simpl. constructor; [|exact IH]. cbn [fst snd] in *.
  unfold rewritten. rewrite Hattrs, Hbase, attr_get_set, Htarget. auto.
Qed.

Lemma Forall2_map_In {A B} (R : A -> B -> Prop) (f : A -> B) (l : list A) :
  (forall a, In a l -> R a (f a)) -> Forall2 R l (map f l).
Proof.
  induction l as [|a r IH]; intros H; simpl; constructor.
  - apply H. left. reflexivity.
  - apply IH. intros b Hb. apply H. right. exact Hb.
Qed.

Lemma find_all_all p (n : node) : Forall (fun m => p m = true) (find_all p n).
Proof. apply Forall_forall. intros m Hm. apply filter_In in Hm. tauto. Qed.

Lemma process_images_strings (before : node) :
  find_all_strings (rewritten before) = find_all_strings before.
Proof.
  destruct before as [text|cls text|name classes attrs contents];
    [reflexivity|unfold rewritten; rewrite rewrite_special_keep; reflexivity|].
  unfold find_all_strings, rewritten.
  change (rewrite_under (fun _ s => s) (image_attrs path_exists assets_dir) ""
            (Tag name classes attrs contents))
    with (Tag name classes (image_attrs path_exists assets_dir name attrs)
            (map (rewrite_under (fun _ s => s)
                    (image_attrs path_exists assets_dir) name) contents)).
  cbn [strings_under].
  induction contents as [|c r IH]; simpl; [reflexivity|].
  rewrite IH, rewrite_strings. f_equal.
  induction (strings_under name c) as [|[p s] t IHt]; simpl; [reflexivity|].
  rewrite IHt. reflexivity.
Qed.

(** What a card is made of, with the tree its back is the markup of. *)
Lemma parse_callout_trees (callout : node) (keep_tags : bool)
  (card : NotionCard) (out : list diagnostic) :
  parse_callout path_exists str_of callout assets_dir keep_tags = (Some card, out) ->
  exists front_text before found,
    callout_parts callout keep_tags = Some (front_text, before, found) /\
    process_images path_exists before assets_dir
    = (rewritten before, media_files card, out) /\
    front card = front_text /\
    back card = str_of (rewritten before) /\
    media_files card
    = flat_map (image_media path_exists assets_dir)
               (find_all (is_tag "img") before) /\
    out = flat_map (image_out path_exists assets_dir)
                   (find_all (is_tag "img") before).
Proof.
  intros H. pose proof H as H'. rewrite parse_callout_parts in H'.
  apply parse_callout_Some in H.
  destruct H as (front_text & before & found & Hparts & Hdiv & -> & ->).
  exists front_text, before, found. rewrite Hparts in H'.
  split; [exact Hparts|]. split; [|repeat split].
  destruct (process_images path_exists before assets_dir) as [[after media] out'] eqn:E.
  rewrite process_images_spec in E.
  - injection E as <- <- <-. reflexivity.
  - destruct before; [reflexivity|reflexivity|]. simpl in *.
    apply String.eqb_eq in Hdiv. subst. reflexivity.
Qed.

(** C3.  The back of a card is the markup of the container after
    [process_images]; the images of the container whose reference was
    rewritten, taken in document order, stand one to one against the
    media files of the card, in the same order: the rewritten [src] is
    the file name of the media file, which is the decoded file name of
    the reference as it was, and the media file is on the disk. *)
Theorem media_files_match_rewritten_images (callout : node) (keep_tags : bool)
  (card : NotionCard) (out : list diagnostic) :
  parse_callout path_exists str_of callout assets_dir keep_tags = (Some card, out) ->
  exists front_text before found after,
    callout_parts callout keep_tags = Some (front_text, before, found) /\
    process_images path_exists before assets_dir = (after, media_files card, out) /\
    back card = str_of after /\
    List.length (find_all (is_tag "img") after)
    = List.length (find_all (is_tag "img") before) /\
    Forall2
      (fun ba full_path =>
         attr_get "src" (node_attrs (snd ba)) = Some (basename full_path) /\
         image_target assets_dir (fst ba) = Some (basename full_path, full_path) /\
         path_exists full_path = true)
      (filter (fun ba => resolved path_exists assets_dir (fst ba))
              (combine (find_all (is_tag "img") before)
                       (find_all (is_tag "img") after)))
      (media_files card).
Proof.
  intros H. apply parse_callout_trees in H.
  destruct H as (front_text & before & found & Hparts & Himages & _ & Hback & Hmedia & _).
  exists front_text, before, found, (rewritten before).
  split; [exact Hparts|]. split; [exact Himages|]. split; [exact Hback|].
  unfold rewritten. rewrite find_all_rewrite by apply is_tag_head_test.
  split; [apply List.length_map|].
  rewrite Hmedia. apply resolved_images_media, find_all_all.
Qed.

End MediaClaims.

Lemma media_files_match_rewritten_images_witness :
  exists card out,
    parse_callout sample_disk plain_markup callout_math "assets" false
    = (Some card, out) /\
    media_files card = ["assets/diagram.png"] /\
    exists before after,
      back card = plain_markup after /\
      Forall2
        (fun ba full_path =>
           attr_get "src" (node_attrs (snd ba)) = Some (basename full_path) /\
           image_target "assets" (fst ba) = Some (basename full_path, full_path) /\
           sample_disk full_path = true)
        (filter (fun ba => resolved sample_disk "assets" (fst ba))
                (combine (find_all (is_tag "img") before)
                         (find_all (is_tag "img") after)))
        (media_files card).
Proof.
  eexists. eexists. split; [reflexivity|]. split; [reflexivity|].
  destruct (media_files_match_rewritten_images sample_disk plain_markup "assets"
              callout_math false _ _ eq_refl)
    as (front_text & before & found & after & _ & _ & Hback & _ & Hall).
  exists before, after. split; [exact Hback|exact Hall].
Defined.

Section MissingMedia.

Variable path_exists : string -> bool.
Variable str_of : node -> string.
Variable assets_dir : string.

Let rewritten : node -> node :=
  rewrite_under (fun _ s => s) (image_attrs path_exists assets_dir) "".

Lemma missing_image_alone (l : list node) (m : node) (filename full_path : string) :
  In m l -> is_tag "img" m = true ->
  image_target assets_dir m = Some (filename, full_path) ->
  path_exists full_path = false ->
  tag_head (rewritten m) = tag_head m /\
  ~ In full_path (flat_map (image_media path_exists assets_dir) l) /\
  In (MissingMedia full_path) (flat_map (image_out path_exists assets_dir) l).
Proof.
  intros Hin Himg Htarget Hmissing.
  pose proof (rewritten_attrs path_exists assets_dir m Himg) as Hattrs.
  pose proof (rewritten_name_classes path_exists assets_dir m) as [Hname Hclasses].
  assert (Hone : process_image path_exists assets_dir (node_attrs m)
                 = (node_attrs m, [], [MissingMedia full_path])).
  { rewrite process_image_target, <- image_target_attrs, Htarget, Hmissing.
    reflexivity. }
  rewrite Hone in Hattrs. split; [|split].
  - unfold tag_head, rewritten. rewrite Hattrs, Hname, Hclasses. reflexivity.
  - intros Hmedia. apply in_flat_map in Hmedia. destruct Hmedia as (m' & _ & Hm').
    apply image_media_exists in Hm'. destruct Hm' as (_ & Hexists & _).
    congruence.
  - apply in_flat_map. exists m. split; [exact Hin|].
    unfold image_out. rewrite Himg, Hone. left. reflexivity.
Qed.

(** C4.  An image of the container whose decoded target is not on the
    disk keeps its name, classes and attributes, [src] included, through
    [process_images]; its path is not among the media files of the card;
    [MissingMedia] with its path is printed.  The strings of the container
    are not touched by the processing, and the callout gives a card with
    the same front and the same tags whatever the disk holds. *)
Theorem missing_media_left_alone (callout : node) (keep_tags : bool)
  (card : NotionCard) (out : list diagnostic) :
  parse_callout path_exists str_of callout assets_dir keep_tags = (Some card, out) ->
  exists front_text before found after,
    callout_parts callout keep_tags = Some (front_text, before, found) /\
    process_images path_exists before assets_dir = (after, media_files card, out) /\
    back card = str_of after /\
    find_all_strings after = find_all_strings before /\
    Forall2
      (fun img img' =>
         forall filename full_path,
           image_target assets_dir img = Some (filename, full_path) ->
           path_exists full_path = false ->
           tag_head img' = tag_head img /\
           ~ In full_path (media_files card) /\
           In (MissingMedia full_path) out)
      (find_all (is_tag "img") before) (find_all (is_tag "img") after) /\
    forall other_disk,
    exists card' out',
      parse_callout other_disk str_of callout assets_dir keep_tags
      = (Some card', out') /\
      front card' = front card /\ tags card' = tags card.
Proof.
  intros H. pose proof H as Hcard. apply parse_callout_Some in Hcard.
  destruct Hcard as (front0 & before0 & found0 & Hparts0 & _ & Hcard & _).
  apply parse_callout_trees in H.
  destruct H as (front_text & before & found & Hparts & Himages & Hfront & Hback
                 & Hmedia & Hout).
  exists front_text, before, found, (rewritten before).
  split; [exact Hparts|]. split; [exact Himages|]. split; [exact Hback|].
  split; [apply process_images_strings|]. split.
  - unfold rewritten. rewrite find_all_rewrite by apply is_tag_head_test.
    apply Forall2_map_In. intros m Hm filename full_path Htarget Hmissing.
    rewrite Hmedia, Hout.
    apply (missing_image_alone _ m filename full_path Hm); try assumption.
    apply filter_In in Hm. tauto.
  - intros other_disk.
    pose proof (parse_callout_parts other_disk str_of callout assets_dir keep_tags)
      as Hother.
    rewrite Hparts in Hother.
    destruct (process_images other_disk before assets_dir) as [[after' media'] out'].
    eexists. eexists. split; [exact Hother|].
    rewrite Hparts in Hparts0. injection Hparts0 as <- <- <-.
    rewrite Hcard. split; reflexivity.
Qed.

(** C9, as the code has it.  [process_media_in_html] only processes
    images, the call of [process_audio_files] being a comment.  Through
    it the anchors of the container keep their name, classes and
    attributes, in number and order, whatever they point at; no string of
    the container changes, so no sound marker is written; and every media
    file of the card is the target of an [img] of the container: the
    path, in the assets directory, of the decoded file name of its
    [src], whatever kind of file that names. *)
Theorem media_processing_skips_audio (callout : node) (keep_tags : bool)
  (card : NotionCard) (out : list diagnostic) :
  parse_callout path_exists str_of callout assets_dir keep_tags = (Some card, out) ->
  exists front_text before found after,
    callout_parts callout keep_tags = Some (front_text, before, found) /\
    process_media_in_html path_exists str_of before assets_dir
    = (after, back card, media_files card, out) /\
    map tag_head (find_all (is_tag "a") after)
    = map tag_head (find_all (is_tag "a") before) /\
    find_all_strings after = find_all_strings before /\
    forall full_path,
      In full_path (media_files card) ->
      exists img filename,
        In img (find_all (is_tag "img") before) /\
        image_target assets_dir img = Some (filename, full_path).
Proof.
  intros H. apply parse_callout_trees in H.
  destruct H as (front_text & before & found & Hparts & Himages & Hfront & Hback
                 & Hmedia & Hout).
  exists front_text, before, found, (rewritten before).
  split; [exact Hparts|]. split; [|split; [|split]].
  - unfold process_media_in_html. rewrite Himages, Hback. reflexivity.
  - unfold rewritten. rewrite find_all_rewrite by apply is_tag_head_test.
    rewrite map_map. apply map_ext_in. intros m Hm.
    apply rewritten_head_other. apply filter_In in Hm. destruct Hm as [_ Hm].
    destruct m as [text|cls text|name classes attrs contents]; [reflexivity|reflexivity|].
    simpl in *. apply String.eqb_eq in Hm. subst. reflexivity.
  - apply process_images_strings.
  - intros full_path Hin. rewrite Hmedia in Hin. apply in_flat_map in Hin.
    destruct Hin as (img & Himg & Hpath).
    apply image_media_exists in Hpath. destruct Hpath as (_ & _ & filename & Htarget).
    exists img, filename. split; assumption.
Qed.

End MissingMedia.

Lemma missing_media_left_alone_witness :
  exists card out,
    parse_callout sample_disk plain_markup callout_math "assets" false
    = (Some card, out) /\
    out = [MissingMedia "assets/lost file.png"] /\
    exists before after,
      back card = plain_markup after /\
      Forall2
        (fun img img' =>
           forall filename full_path,
             image_target "assets" img = Some (filename, full_path) ->
             sample_disk full_path = false ->
             tag_head img' = tag_head img /\
             ~ In full_path (media_files card) /\
             In (MissingMedia full_path) out)
        (find_all (is_tag "img") before) (find_all (is_tag "img") after).
Proof.
  eexists. eexists. split; [reflexivity|]. split; [reflexivity|].
  destruct (missing_media_left_alone sample_disk plain_markup "assets"
              callout_math false _ _ eq_refl)
    as (front_text & before & found & after & _ & _ & Hback & _ & Hall & _).
  exists before, after. split; [exact Hback|exact Hall].
Defined.

Lemma media_processing_skips_audio_witness :
  exists card out,
    parse_callout sample_disk plain_markup callout_math "assets" false
    = (Some card, out) /\
    sample_disk "assets/clip.mp3" = true /\
    media_files card = ["assets/diagram.png"] /\
    exists before after,
      map tag_head (find_all (is_tag "a") before)
      = [(Some "a", [], [("href", "clip.mp3")])] /\
      map tag_head (find_all (is_tag "a") after)
      = map tag_head (find_all (is_tag "a") before) /\
      find_all_strings after = find_all_strings before.
Proof.
  eexists. eexists. split; [reflexivity|]. split; [reflexivity|].
  split; [reflexivity|].
  destruct (media_processing_skips_audio sample_disk plain_markup "assets"
              callout_math false _ _ eq_refl)
    as (front_text & before & found & after & Hparts & _ & Hanchors & Hstrings & _).
  exists before, after. split; [|split; assumption].
  vm_compute in Hparts. injection Hparts as _ <- _. reflexivity.
Defined.

(** C9 as stated fails: the media files are the targets of the [img]
    tags whatever kind of file they name, and an [img] is rewritten
    wherever it stands.  The back of [callout_audio_image] holds an
    anchor around an [img] whose [src] is an audio file on the disk:
    that file is the media file of the card, and the anchor of the back
    is not the anchor there was, the [src] below it being rewritten. *)
Lemma audio_file_in_media_counterexample :
  exists card before after,
    parse_callout sample_disk plain_markup callout_audio_image "assets" true
    = (Some card, []) /\
    callout_parts callout_audio_image true = Some ("Q", before, []) /\
    process_media_in_html sample_disk plain_markup before "assets"
    = (after, back card, media_files card, []) /\
    media_files card = ["assets/clip.mp3"] /\
    find_all (is_tag "a") before
    = [Tag "a" [] [("href", "notes/clip.mp3")]
         [Tag "img" [] [("src", "notes/clip.mp3")] []]] /\
    find_all (is_tag "a") after
    = [Tag "a" [] [("href", "notes/clip.mp3")]
         [Tag "img" [] [("src", "clip.mp3")] []]] /\
    find_all (is_tag "a") after <> find_all (is_tag "a") before.
Proof.
  eexists. eexists. eexists. split; [reflexivity|]. split; [reflexivity|].
  split; [reflexivity|]. split; [reflexivity|]. split; [reflexivity|].
  split; [reflexivity|]. vm_compute. discriminate.
Qed.

(** C5 as stated fails: with [keep_tags] false the front of the card of
    [callout_split_token] holds a [#word] token, which spans two strings
    of the document, and two spaces in a row, which stand in a string
    without a token. *)
Lemma keep_tags_false_counterexample :
  exists card out,
    parse_callout sample_disk plain_markup callout_split_token "assets" false
    = (Some card, out) /\
    front card = "#taga  b" /\
    has_hashtag (front card) = true /\
    has_two_spaces (front card) = true.
Proof.
  eexists. eexists. split; [reflexivity|]. repeat split.
Qed.

(** ** The document walker *)

Section WalkerEntry.

Variable path_exists : string -> bool.
Variable str_of : node -> string.

(** C6, as the code has it.  Without an article the result is the
    default deck name with no subdeck; with an article and no page body
    it is no subdeck either, under the name the article gives: the text
    of its first [header > h1] when there is one, the default name
    otherwise.  Both are results, not exceptions, and nothing is
    printed. *)
Theorem parse_html_file_without_region (soup : node) (assets_dir : string)
  (keep_tags : bool) :
  (find (is_tag "article") soup = None ->
   parse_html_file path_exists str_of soup assets_dir keep_tags
   = Some ("Notion Deck", [], extract_css_from_html soup, [])) /\
  (forall article,
      find (is_tag "article") soup = Some article ->
      find is_page_body article = None ->
      parse_html_file path_exists str_of soup assets_dir keep_tags
      = Some (match select_one_child "header" "h1" article with
              | Some header => get_text_strip header
              | None => "Notion Deck"
              end, [], extract_css_from_html soup, [])).
Proof.
  unfold parse_html_file. split.
  - intros ->. reflexivity.
  - intros article -> Hbody. unfold is_page_body in Hbody. rewrite Hbody.
    reflexivity.
Qed.

End WalkerEntry.

Lemma parse_html_file_without_region_witness :
  find (is_tag "article") page_without_article = None /\
  parse_html_file sample_disk plain_markup page_without_article "assets" true
  = Some ("Notion Deck", [], Some "", []) /\
  (exists article,
      find (is_tag "article") page_without_body = Some article /\
      find is_page_body article = None /\
      parse_html_file sample_disk plain_markup page_without_body "assets" true
      = Some ("Biology", [], Some "p{}", [])).
Proof.
  split; [reflexivity|]. split.
  - apply (proj1 (parse_html_file_without_region sample_disk plain_markup
                    page_without_article "assets" true)).
    reflexivity.
  - eexists. split; [reflexivity|]. split; [reflexivity|].
    apply (proj2 (parse_html_file_without_region sample_disk plain_markup
                    page_without_body "assets" true) _ eq_refl eq_refl).
Defined.

(** C6 as stated fails: [page_without_body] has an article and no page
    body, and the deck name that comes back is the title of the article,
    not the default name. *)
Lemma parse_html_file_without_body_counterexample :
  (exists article,
      find (is_tag "article") page_without_body = Some article /\
      find is_page_body article = None) /\
  exists subdecks css out,
    parse_html_file sample_disk plain_markup page_without_body "assets" true
    = Some ("Biology", subdecks, css, out) /\
    "Biology" <> "Notion Deck".
Proof.
  split.
  - eexists. split; reflexivity.
  - eexists. eexists. eexists. split; [reflexivity|discriminate].
Qed.

(** ** Dictionaries *)

Lemma dict_set_new (k : string) (v : list NotionCard) (d : subdecks_dict) :
  dict_mem k d = false -> dict_set k v d = d ++ [(k, v)].
Proof.
  induction d as [|[k' v'] r IH]; simpl; [reflexivity|].
  destruct (String.eqb k' k); [discriminate|].
  simpl. intros H. rewrite (IH H). reflexivity.
Qed.

Lemma dict_mem_app (k : string) (d d' : subdecks_dict) :
  dict_mem k (d ++ d') = dict_mem k d || dict_mem k d'.
Proof. apply existsb_app. Qed.

Lemma dict_ensure_mem (k : string) (d : subdecks_dict) :
  dict_mem k (dict_ensure k d) = true.
Proof.
  unfold dict_ensure. destruct (dict_mem k d) eqn:E; simpl; [exact E|].
  rewrite (dict_set_new k [] d E), dict_mem_app. simpl.
  rewrite String.eqb_refl. apply orb_true_r.
Qed.

Lemma dict_extend_mem (k k' : string) (cards : list NotionCard) (d : subdecks_dict) :
  dict_mem k' (dict_extend k cards d) = dict_mem k' d.
Proof.
  induction d as [|[k0 v] r IH]; simpl; [reflexivity|].
  destruct (String.eqb k0 k); simpl; [reflexivity|]. rewrite IH. reflexivity.
Qed.

Lemma dict_extend_nil (k : string) (d : subdecks_dict) : dict_extend k [] d = d.
Proof.
  induction d as [|[k0 v] r IH]; simpl; [reflexivity|].
  destruct (String.eqb k0 k); [rewrite app_nil_r|rewrite IH]; reflexivity.
Qed.

Lemma dict_extend_extend (k : string) (a b : list NotionCard) (d : subdecks_dict) :
  dict_extend k b (dict_extend k a d) = dict_extend k (a ++ b) d.
Proof.
  induction d as [|[k0 v] r IH]; simpl; [reflexivity|].
  destruct (String.eqb k0 k) eqn:E; simpl; rewrite E.
  - rewrite app_assoc. reflexivity.
  - rewrite IH. reflexivity.
Qed.

Lemma dict_append_extend (k : string) (card : NotionCard) (d : subdecks_dict) :
  dict_mem k d = true -> dict_append k card d = Some (dict_extend k [card] d).
Proof.
  induction d as [|[k0 v] r IH]; simpl; [discriminate|].
  destruct (String.eqb k0 k); simpl; [reflexivity|].
  intros H. rewrite (IH H). reflexivity.
Qed.

Lemma dict_extend_past (k : string) (cards : list NotionCard) (d d' : subdecks_dict) :
  dict_mem k d = false -> dict_extend k cards (d ++ d') = d ++ dict_extend k cards d'.
Proof.
  induction d as [|[k0 v] r IH]; simpl; [reflexivity|].
  destruct (String.eqb k0 k); simpl; [discriminate|].
  intros H. rewrite (IH H). reflexivity.
Qed.

(** ** First occurrences *)

Lemma filter_other_mem (k a : string) (l : list string) :
  String.eqb k a = false ->
  mem k (filter (fun k' => negb (String.eqb k' a)) l) = mem k l.
Proof.
  intros Hka. induction l as [|x r IH]; simpl; [reflexivity|].
  destruct (String.eqb x a) eqn:E; simpl; rewrite IH; [|reflexivity].
  apply String.eqb_eq in E. subst x. rewrite Hka. reflexivity.
Qed.

Lemma first_seen_mem (k : string) (l : list string) :
  mem k (first_seen l) = mem k l.
Proof.
  induction l as [|a r IH]; simpl; [reflexivity|].
  destruct (String.eqb k a) eqn:E; simpl; [reflexivity|].
  rewrite (filter_other_mem k a _ E). exact IH.
Qed.

Lemma first_seen_NoDup (l : list string) : NoDup (first_seen l).
Proof.
  induction l as [|a r IH]; simpl; constructor.
  - intros H. apply filter_In in H. destruct H as [_ H].
    rewrite String.eqb_refl in H. discriminate.
  - apply NoDup_filter, IH.
Qed.

Lemma first_seen_snoc (k : string) (l : list string) :
  first_seen (l ++ [k])
  = if mem k l then first_seen l else first_seen l ++ [k].
Proof.
  induction l as [|a r IH]; simpl; [reflexivity|].
  rewrite IH. destruct (String.eqb k a) eqn:E; simpl.
  - destruct (mem k r); [reflexivity|].
    rewrite filter_app. simpl. rewrite E. simpl. rewrite app_nil_r. reflexivity.
  - destruct (mem k r); [reflexivity|].
    rewrite filter_app. simpl. rewrite E. reflexivity.
Qed.

Lemma mem_In (k : string) (l : list string) : mem k l = true <-> In k l.
Proof.
  unfold mem. rewrite existsb_exists. split.
  - intros (x & Hx & E). apply String.eqb_eq in E. subst. exact Hx.
  - intros H. exists k. split; [exact H|apply String.eqb_refl].
Qed.

(** ** Grouping the sections *)

Lemma cards_labelled_snoc (k : string) (l : list (string * list NotionCard))
  (s : string * list NotionCard) :
  cards_labelled k (l ++ [s])
  = cards_labelled k l ++ (if String.eqb (fst s) k then snd s else []).
Proof.
  unfold cards_labelled. rewrite filter_app, flat_map_app. simpl.
  destruct (String.eqb (fst s) k); simpl; [rewrite app_nil_r|]; reflexivity.
Qed.

Lemma cards_labelled_absent (k : string) (l : list (string * list NotionCard)) :
  mem k (map fst l) = false -> cards_labelled k l = [].
Proof.
  unfold cards_labelled. induction l as [|[k' v] r IH]; simpl; [reflexivity|].
  rewrite (String.eqb_sym k' k). destruct (String.eqb k k'); simpl; [discriminate|].
  exact IH.
Qed.

Lemma dict_mem_keyed (k : string) (f : string -> list NotionCard) (l : list string) :
  dict_mem k (map (fun k' => (k', f k')) l) = mem k l.
Proof.
  unfold dict_mem, mem. induction l as [|a r IH]; simpl; [reflexivity|].
  rewrite IH, (String.eqb_sym a k). reflexivity.
Qed.

(** Adding cards under [k] to every entry of a dictionary without
    repeated keys is [dict_extend], which stops at the first. *)
Lemma dict_extend_keyed (k : string) (cards : list NotionCard)
  (f : string -> list NotionCard) (l : list string) :
  NoDup l ->
  map (fun k' => (k', f k' ++ (if String.eqb k k' then cards else []))) l
  = dict_extend k cards (map (fun k' => (k', f k')) l).
Proof.
  induction 1 as [|a r Ha Hr IH]; simpl; [reflexivity|].
  rewrite (String.eqb_sym a k). destruct (String.eqb k a) eqn:E.
  - f_equal. apply map_ext_in. intros k' Hk'.
    destruct (String.eqb k k') eqn:E'; [|rewrite app_nil_r; reflexivity].
    apply String.eqb_eq in E, E'. subst. contradiction.
  - rewrite app_nil_r, IH. reflexivity.
Qed.

Lemma grouped_snoc (l : list (string * list NotionCard))
  (s : string * list NotionCard) :
  grouped (l ++ [s]) = add_section s (grouped l).
Proof.
  destruct s as [k cards]. unfold grouped, add_section, dict_ensure. cbn [fst snd].
  rewrite map_app. change (map fst [(k, cards)]) with [k].
  rewrite first_seen_snoc, dict_mem_keyed, first_seen_mem.
  assert (Hmap : forall keys,
             map (fun k' => (k', cards_labelled k' (l ++ [(k, cards)]))) keys
             = map (fun k' => (k', cards_labelled k' l
                                   ++ (if String.eqb k k' then cards else [])))
                   keys).
  { intros keys. apply map_ext. intros k'. rewrite cards_labelled_snoc.
    reflexivity. }
  rewrite Hmap. destruct (mem k (map fst l)) eqn:E; simpl.
  - apply dict_extend_keyed, first_seen_NoDup.
  - rewrite dict_set_new by (rewrite dict_mem_keyed, first_seen_mem; exact E).
    rewrite dict_extend_past by (rewrite dict_mem_keyed, first_seen_mem; exact E).
    rewrite map_app. simpl.
    rewrite String.eqb_refl, (cards_labelled_absent k l E). simpl. f_equal.
    rewrite dict_extend_keyed by apply first_seen_NoDup.
    assert (Hd : dict_mem k (map (fun k' => (k', cards_labelled k' l))
                                 (first_seen (map fst l))) = false)
      by (rewrite dict_mem_keyed, first_seen_mem; exact E).
    rewrite <- (app_nil_r (map _ (first_seen (map fst l)))) at 1.
    rewrite (dict_extend_past k cards _ [] Hd). apply app_nil_r.
Qed.

Lemma grouped_keys (l : list (string * list NotionCard)) :
  map fst (grouped l) = first_seen (map fst l).
Proof.
  unfold grouped. rewrite map_map. simpl. apply map_id.
Qed.

Lemma grouped_cards (l : list (string * list NotionCard)) (k : string)
  (cards : list NotionCard) :
  In (k, cards) (grouped l) -> cards = cards_labelled k l.
Proof.
  unfold grouped. intros H. apply in_map_iff in H.
  destruct H as (k' & E & _). injection E as -> <-. reflexivity.
Qed.

(** ** The walk over the page body *)

Section WalkFacts.

Variable path_exists : string -> bool.
Variable str_of : node -> string.
Variable assets_dir : string.
Variable keep_tags : bool.

Let cards := cards_of path_exists str_of assets_dir keep_tags.
Let section := section_of path_exists str_of assets_dir keep_tags.

Lemma append_callouts (name : string) (callouts : list node)
  (d : subdecks_dict) (out : list diagnostic) :
  dict_mem name d = true ->
  exists out',
    fold_left (append_callout path_exists str_of name assets_dir keep_tags)
              callouts (Some (d, out))
    = Some (dict_extend name (cards callouts) d, out').
Proof.
  revert d out. induction callouts as [|c r IH]; intros d out Hmem.
  - exists out. simpl. rewrite dict_extend_nil. reflexivity.
  - cbn [fold_left]. unfold append_callout at 2.
    unfold cards, cards_of in *. cbn [flat_map].
    destruct (parse_callout path_exists str_of c assets_dir keep_tags)
      as [[card|] out1]; cbn [fst card_list].
    + rewrite (dict_append_extend name card d Hmem). cbn [option_map].
      destruct (IH (dict_extend name [card] d) (out ++ out1)) as [out' Hout].
      { rewrite dict_extend_mem. exact Hmem. }
      exists out'. rewrite Hout, dict_extend_extend. reflexivity.
    + apply IH, Hmem.
Qed.

Lemma process_details (details : node) (d : subdecks_dict) (out : list diagnostic) :
  is_tag "details" details = true ->
  exists out',
    _process_details_subdeck path_exists str_of details (d, out)
                             assets_dir keep_tags
    = Some (match section details with
            | Some s => add_section s d
            | None => d
            end, out').
Proof.
  intros Hd. unfold section, section_of, _process_details_subdeck. rewrite Hd.
  destruct (find (is_tag "summary") details) as [summary|]; [|exists out; reflexivity].
  fold (dict_ensure (get_text_strip summary) d). unfold add_section. cbn [fst snd].
  fold is_indented. destruct (find is_indented details) as [indented|].
  - fold is_callout. apply append_callouts, dict_ensure_mem.
  - exists out. rewrite dict_extend_nil. reflexivity.
Qed.

Lemma process_standalone (callout : node) (d : subdecks_dict) (out : list diagnostic) :
  exists out',
    _process_standalone_callout path_exists str_of callout (d, out)
                                assets_dir keep_tags
    = Some (add_section (DEFAULT_SUBDECK_NAME, cards [callout]) d, out').
Proof.
  unfold _process_standalone_callout.
  fold (dict_ensure DEFAULT_SUBDECK_NAME d). unfold add_section. cbn [fst snd].
  apply (append_callouts DEFAULT_SUBDECK_NAME [callout]), dict_ensure_mem.
Qed.

Lemma process_element_section (element : node) (d : subdecks_dict)
  (out : list diagnostic) :
  exists out',
    process_element path_exists str_of assets_dir keep_tags (Some (d, out)) element
    = Some (match section element with
            | Some s => add_section s d
            | None => d
            end, out').
Proof.
  unfold process_element.
  destruct (is_tag "details" element) eqn:Hd; [apply process_details, Hd|].
  unfold section, section_of, is_callout. rewrite Hd.
  destruct (is_tag "figure" element && has_class "callout" element);
    [apply process_standalone|].
  exists out. reflexivity.
Qed.

Lemma section_of_other (element : node) :
  is_tag "details" element || is_tag "figure" element = false ->
  section element = None.
Proof.
  unfold section, section_of, is_callout. intros H.
  apply orb_false_iff in H. destruct H as [-> ->]. reflexivity.
Qed.

(** The walk over the children of the page body leaves the grouping of
    the sections met so far. *)
Lemma walk_grouped (elements : list node) (seen : list (string * list NotionCard))
  (out : list diagnostic) :
  exists out',
    fold_left (process_element path_exists str_of assets_dir keep_tags)
              (filter (fun n => is_tag "details" n || is_tag "figure" n) elements)
              (Some (grouped seen, out))
    = Some (grouped (seen ++ flat_map (fun e => option_list (section e)) elements),
            out').
Proof.
  revert seen out. induction elements as [|e r IH]; intros seen out.
  - exists out. simpl. rewrite app_nil_r. reflexivity.
  - cbn [filter flat_map].
    destruct (is_tag "details" e || is_tag "figure" e) eqn:He.
    + cbn [fold_left].
      destruct (process_element_section e (grouped seen) out) as [out1 ->].
      destruct (section e) as [s|]; cbn [option_list].
      * rewrite <- grouped_snoc.
        destruct (IH (seen ++ [s]) out1) as [out' ->]. exists out'.
        rewrite <- app_assoc. reflexivity.
      * apply IH.
    + rewrite (section_of_other e He). apply IH.
Qed.

End WalkFacts.

Section WalkerClaims.

Variable path_exists : string -> bool.
Variable str_of : node -> string.
Variable assets_dir : string.
Variable keep_tags : bool.

Let sections := sections_of path_exists str_of assets_dir keep_tags.

(** C1.  [parse_html_file] always returns, and its subdecks are the
    grouping of the sections of the document: the keys are the labels in
    the order of their first occurrence, no key comes twice, and under
    each key stand the cards of all the sections with that label, section
    after section and callout after callout in document order. *)
Theorem subdecks_grouped_in_document_order (soup : node) :
  exists deck_name subdecks css out,
    parse_html_file path_exists str_of soup assets_dir keep_tags
    = Some (deck_name, subdecks, css, out) /\
    subdecks = grouped (sections soup) /\
    map fst subdecks = first_seen (map fst (sections soup)) /\
    NoDup (map fst subdecks) /\
    forall k cards,
      In (k, cards) subdecks -> cards = cards_labelled k (sections soup).
Proof.
  assert (Hgrouped : exists deck_name css out,
             parse_html_file path_exists str_of soup assets_dir keep_tags
             = Some (deck_name, grouped (sections soup), css, out)).
  { unfold parse_html_file, sections, sections_of.
    destruct (find (is_tag "article") soup) as [article|];
      [|eexists; eexists; eexists; reflexivity].
    fold is_page_body.
    destruct (find is_page_body article) as [page_body|];
      [|eexists; eexists; eexists; reflexivity].
    unfold find_all_children.
    destruct (walk_grouped path_exists str_of assets_dir keep_tags
                (node_contents page_body) [] []) as [out Hwalk].
    change (grouped []) with (@nil (string * list NotionCard)) in Hwalk.
    unfold subdecks_dict in *. rewrite Hwalk. cbn [app].
    eexists. eexists. eexists. reflexivity. }
  destruct Hgrouped as (deck_name & css & out & Hparse).
  exists deck_name, (grouped (sections soup)), css, out.
  split; [exact Hparse|]. split; [reflexivity|].
  split; [apply grouped_keys|]. split.
  - rewrite grouped_keys. apply first_seen_NoDup.
  - intros k cards. apply grouped_cards.
Qed.

(** One call of [_process_details_subdeck] on a collapsible section with
    a label and no indented region leaves the label as a key of the
    dictionary: a new label goes last with an empty list, a label that is
    a key already keeps its entry, and nothing is printed.  In the
    package export the key of a new label has a deck of its own, without
    notes; the rows of the CSV export, one for each card, are the rows
    there were without the section. *)
Lemma details_without_indented_region (details summary : node)
  (subdecks : subdecks_dict) (out : list diagnostic) :
  find (is_tag "summary") details = Some summary ->
  find is_indented details = None ->
  exists subdecks',
    _process_details_subdeck path_exists str_of details (subdecks, out)
                             assets_dir keep_tags
    = Some (subdecks', out) /\
    subdecks' = (if dict_mem (get_text_strip summary) subdecks then subdecks
                 else subdecks ++ [(get_text_strip summary, [])]) /\
    dict_mem (get_text_strip summary) subdecks' = true /\
    (forall deck_name, export_csv deck_name subdecks' = export_csv deck_name subdecks) /\
    (dict_mem (get_text_strip summary) subdecks = false ->
     forall py_hash deck_name,
     exists id title,
       In (mkDeck id title []) (fst (export_apkg py_hash deck_name subdecks')) /\
       title = if negb (String.eqb (get_text_strip summary) DEFAULT_SUBDECK_NAME)
               then (deck_name ++ "::" ++ get_text_strip summary)%string
               else deck_name).
Proof.
  intros Hsummary Hindented.
  exists (dict_ensure (get_text_strip summary) subdecks).
  split; [|split; [|split; [|split]]].
  - unfold _process_details_subdeck. rewrite Hsummary.
    unfold is_indented in Hindented. rewrite Hindented. reflexivity.
  - unfold dict_ensure. destruct (dict_mem _ subdecks) eqn:E; [reflexivity|].
    apply dict_set_new, E.
  - apply dict_ensure_mem.
  - intros deck_name. unfold dict_ensure.
    destruct (dict_mem _ subdecks) eqn:E; [reflexivity|]. simpl.
    rewrite (dict_set_new _ [] _ E). unfold export_csv.
    rewrite flat_map_app. simpl. rewrite app_nil_r. reflexivity.
  - intros E py_hash deck_name. unfold dict_ensure. rewrite E. simpl.
    rewrite (dict_set_new _ [] _ E). unfold export_apkg. cbn [fst].
    rewrite map_app. eexists. eexists. split.
    + apply in_or_app. right. left. reflexivity.
    + reflexivity.
Qed.

End WalkerClaims.

(** C10 as stated fails for the CSV export: the section [Later] of
    [page_with_empty_section] is a key of the dictionary with no card,
    and no row of the CSV export names it. *)
Lemma empty_section_csv_counterexample :
  exists deck_name subdecks css out,
    parse_html_file sample_disk plain_markup page_with_empty_section "assets" true
    = Some (deck_name, subdecks, css, out) /\
    dict_get "Later" subdecks = Some [] /\
    export_csv deck_name subdecks
    = [["Deck"; "Subdeck"; "Front"; "Back"; "Tags"];
       ["Biology"; "Default"; "Q1"; "<div><p>A1</p></div>"; ""]] /\
    forall row, In row (export_csv deck_name subdecks) -> ~ In "Later" row.
Proof.
  eexists. eexists. eexists. eexists. split; [reflexivity|].
  split; [reflexivity|]. split; [reflexivity|].
  intros row Hrow Hin. vm_compute in Hrow.
  destruct Hrow as [<-|[<-|[]]]; simpl in Hin;
    repeat (destruct Hin as [Hin|Hin]; [discriminate|]); exact Hin.
Qed.

(** Scenario F of the specification: the label [Cells] comes twice and
    gives one subdeck, with its cards in document order. *)
Example repeated_label_one_subdeck :
  exists deck_name subdecks css out,
    parse_html_file sample_disk plain_markup page_with_repeated_label "assets" true
    = Some (deck_name, subdecks, css, out) /\
    map fst subdecks = ["Cells"; "Default"] /\
    map (fun kv => map front (snd kv)) subdecks = [["Q1"; "Q2"; "Q4"]; ["Q3"]].
Proof.
  eexists. eexists. eexists. eexists. split; [reflexivity|]. split; reflexivity.
Qed.

(* ================================================================= *)
(** * Further properties of the card parser *)

Lemma append_nil_r (s : string) : (s ++ "")%string = s.
Proof. induction s as [|c r IH]; simpl; [reflexivity|]. rewrite IH. reflexivity. Qed.

Lemma starts_with_append (p : ascii -> bool) (x y : string) :
  truthy x = true -> starts_with p (x ++ y) = starts_with p x.
Proof. destruct x; [discriminate|reflexivity]. Qed.

Lemma ends_with_append (p : ascii -> bool) (x y : string) :
  truthy y = true -> ends_with p (x ++ y) = ends_with p y.
Proof.
  intros Hy. induction x as [|c r IH]; [reflexivity|].
  change (String c r ++ y)%string with (String c (r ++ y)).
  cbn [ends_with]. destruct (r ++ y)%string eqn:E; [|exact IH].
  destruct r; [destruct y|]; discriminate.
Qed.

Lemma truthy_append (x y : string) : truthy x = true -> truthy (x ++ y) = true.
Proof. destruct x; [discriminate|reflexivity]. Qed.

Lemma concat_pieces (l : list string) :
  Forall trimmed_piece l ->
  truthy (String.concat "" l) = nonempty l /\
  starts_with is_space (String.concat "" l) = false /\
  ends_with is_space (String.concat "" l) = false.
Proof.
  induction 1 as [|x xs [Hx [Hs He]] Hxs IH]; [repeat split|].
  destruct xs as [|y ys]; [simpl; auto|].
  destruct IH as (Ht & _ & He').
  change (String.concat "" (x :: y :: ys))
    with (x ++ "" ++ String.concat "" (y :: ys))%string.
  change ("" ++ String.concat "" (y :: ys))%string
    with (String.concat "" (y :: ys)).
  split; [apply truthy_append, Hx|]. split.
  - rewrite starts_with_append by exact Hx. exact Hs.
  - rewrite ends_with_append by exact Ht. exact He'.
Qed.

Lemma visible_strings_trimmed name l :
  Forall trimmed_piece (visible_strings name l).
Proof.
  apply Forall_forall. intros s Hs.
  apply filter_In in Hs. destruct Hs as [Hs Ht].
  apply in_map_iff in Hs. destruct Hs as (ps & <- & _).
  split; [exact Ht|]. split; [apply strip_start|apply strip_end].
Qed.

Lemma get_text_strip_trimmed (n : node) :
  starts_with is_space (get_text_strip n) = false /\
  ends_with is_space (get_text_strip n) = false.
Proof.
  destruct n as [text|cls text|name classes attrs contents];
    [split; reflexivity|split; reflexivity|].
  unfold get_text_strip.
  apply concat_pieces, visible_strings_trimmed.
Qed.

Lemma lstrip_fixed (s : string) : starts_with is_space s = false -> lstrip s = s.
Proof. destruct s as [|c r]; simpl; [reflexivity|]. intros ->. reflexivity. Qed.

Lemma rstrip_fixed (s : string) : ends_with is_space s = false -> rstrip s = s.
Proof.
  induction s as [|c r IH]; [reflexivity|].
  destruct r as [|c' r'].
  - simpl. intros ->. reflexivity.
  - intros H. change (ends_with is_space (String c' r') = false) in H.
    change (rstrip (String c (String c' r')))
      with (match rstrip (String c' r') with
            | EmptyString => if is_space c then EmptyString else String c EmptyString
            | String a b => String c (String a b)
            end).
    rewrite (IH H). reflexivity.
Qed.

Lemma strip_fixed (s : string) :
  starts_with is_space s = false -> ends_with is_space s = false -> strip s = s.
Proof.
  intros Hs He. unfold strip. rewrite (rstrip_fixed s He). apply lstrip_fixed, Hs.
Qed.

(** What [callout_parts] is made of. *)
Lemma callout_parts_spec (callout : node) (keep_tags : bool)
  (front_text : string) (before : node) (found : list string) :
  callout_parts callout keep_tags = Some (front_text, before, found) ->
  exists name classes attrs contents first_element,
    find (is_tag "div") callout = Some (Tag name classes attrs contents) /\
    first_tag (map (rewrite_under (hashtag_text keep_tags) (fun _ a => a) name)
                   contents) = Some first_element /\
    front_text = get_text_strip first_element /\
    is_empty front_text = false /\
    before = Tag name classes attrs
               (remove_first_tag
                  (map (rewrite_under (hashtag_text keep_tags) (fun _ a => a) name)
                       contents)) /\
    found = flat_map hashtag_tags
                     (find_all_strings (Tag name classes attrs contents)).
Proof.
  unfold callout_parts.
  destruct (find (is_tag "div") callout) as [first_div|] eqn:Hdiv; [|discriminate].
  apply find_Some in Hdiv. destruct Hdiv as [Hdiv _].
  destruct first_div as [text|cls text|name classes attrs contents]; [discriminate|discriminate|].
  unfold extract_hashtags. rewrite extract_hashtags_under_spec.
  cbn [rewrite_under node_contents extract_first_tag].
  destruct (first_tag _) as [first_element|] eqn:Hfirst; [|discriminate].
  destruct (is_empty (get_text_strip first_element)) eqn:Hempty; [discriminate|].
  intros H. injection H as <- <- <-.
  exists name, classes, attrs, contents, first_element.
  repeat split; assumption.
Qed.

Section FrontAndTags.

Variable path_exists : string -> bool.
Variable str_of : node -> string.

(** X1.  The front of a card is never empty and is already stripped: no
    white space at either end, so [strip] leaves it as it is. *)
Theorem card_front_nonempty_stripped (callout : node) (assets_dir : string)
  (keep_tags : bool) (card : NotionCard) (out : list diagnostic) :
  parse_callout path_exists str_of callout assets_dir keep_tags = (Some card, out) ->
  front card <> "" /\
  starts_with is_space (front card) = false /\
  ends_with is_space (front card) = false /\
  strip (front card) = front card.
Proof.
  intros H. apply parse_callout_Some in H.
  destruct H as (front_text & before & found & Hparts & _ & -> & _). cbn [front].
  apply callout_parts_spec in Hparts.
  destruct Hparts as (name & classes & attrs & contents & first_element
                      & _ & _ & -> & Hempty & _).
  destruct (get_text_strip_trimmed first_element) as [Hs He].
  split; [intros E; rewrite E in Hempty; discriminate|].
  split; [exact Hs|]. split; [exact He|]. apply strip_fixed; assumption.
Qed.

End FrontAndTags.

Lemma card_front_nonempty_stripped_witness :
  exists card out,
    parse_callout sample_disk plain_markup callout_front_image "assets" true
    = (Some card, out) /\
    front card = "Which organ? #Anatomy" /\
    strip (front card) = front card.
Proof.
  eexists. eexists. split; [reflexivity|]. split; [reflexivity|].
  apply (card_front_nonempty_stripped sample_disk plain_markup callout_front_image
           "assets" true _ _ eq_refl).
Defined.

(** ** The tags of a card *)

(** Lower-casing a word character gives neither a [#] nor white space. *)
Lemma lower_char_plain (c : ascii) :
  is_word c = true ->
  is_hash (lower_char c) = false /\ is_space (lower_char c) = false.
Proof.
  destruct c as [[] [] [] [] [] [] [] []]; intros H; try discriminate H;
    split; reflexivity.
Qed.

Lemma lower_truthy (s : string) : truthy (lower s) = truthy s.
Proof. destruct s; reflexivity. Qed.

Lemma lower_lower (s : string) : lower (lower s) = lower s.
Proof. apply lowercase_lower_fixed, lower_is_lowercase. Qed.

Lemma take_word_all_word (s : string) : all_chars is_word (take_word s) = true.
Proof.
  induction s as [|c r IH]; simpl; [reflexivity|].
  destruct (is_word c) eqn:E; simpl; [rewrite E; exact IH|reflexivity].
Qed.

Lemma take_word_truthy (s : string) :
  starts_with is_word s = true -> truthy (take_word s) = true.
Proof. destruct s as [|c r]; simpl; [discriminate|]. intros ->. reflexivity. Qed.

Lemma findall_words (b : bool) (s w : string) :
  In w (findall_hashtag_from b s) ->
  truthy w = true /\ all_chars is_word w = true.
Proof.
  revert b. induction s as [|c r IH]; intros b; simpl; [contradiction|].
  destruct (b && is_word c); [apply IH|].
  destruct (is_hash c && starts_with is_word r) eqn:E; [|apply IH].
  apply andb_true_iff in E. destruct E as [_ E].
  intros [<-|H]; [|exact (IH true H)].
  split; [apply take_word_truthy, E|apply take_word_all_word].
Qed.

Lemma hashtag_tags_In (ps : string * string) (t : string) :
  In t (hashtag_tags ps) <->
  in_script_or_style (fst ps) = false /\
  exists w, In w (re_findall_hashtag (snd ps)) /\ t = lower w.
Proof.
  unfold hashtag_tags. destruct (in_script_or_style (fst ps)).
  - split; [contradiction|]. intros [H _]. discriminate.
  - rewrite in_map_iff. split.
    + intros (w & <- & Hw). split; [reflexivity|]. exists w. auto.
    + intros (_ & w & Hw & ->). exists w. auto.
Qed.

Section TagClaims.

Variable path_exists : string -> bool.
Variable str_of : node -> string.

(** The tags of a card, from the strings of the first [div]. *)
Lemma card_tags_In (callout : node) (assets_dir : string) (keep_tags : bool)
  (card : NotionCard) (out : list diagnostic) :
  parse_callout path_exists str_of callout assets_dir keep_tags = (Some card, out) ->
  exists first_div,
    find (is_tag "div") callout = Some first_div /\
    forall tag,
      In tag (tags card) <->
      exists parent text w,
        In (parent, text) (find_all_strings first_div) /\
        in_script_or_style parent = false /\
        In w (re_findall_hashtag text) /\
        tag = lower w.
Proof.
  intros H. apply parse_callout_Some in H.
  destruct H as (front_text & before & found & Hparts & _ & -> & _). cbn [tags].
  apply callout_parts_spec in Hparts.
  destruct Hparts as (name & classes & attrs & contents & first_element
                      & Hdiv & _ & _ & _ & _ & ->).
  exists (Tag name classes attrs contents). split; [exact Hdiv|].
  intros tag. destruct (sorted_set_facts
                          (map lower (flat_map hashtag_tags
                             (find_all_strings (Tag name classes attrs contents)))))
    as (_ & _ & Hin).
  rewrite Hin, in_map_iff. split.
  - intros (t & <- & Ht). apply in_flat_map in Ht.
    destruct Ht as ([parent text] & Hps & Ht). apply hashtag_tags_In in Ht.
    destruct Ht as (Hp & w & Hw & ->). exists parent, text, w.
    rewrite lower_lower. auto.
  - intros (parent & text & w & Hps & Hp & Hw & ->).
    exists (lower w). split; [apply lower_lower|].
    apply in_flat_map. exists (parent, text). split; [exact Hps|].
    apply hashtag_tags_In. split; [exact Hp|]. exists w. auto.
Qed.

(** X2.  A tag of a card is never empty and holds neither a [#] nor
    white space: what [\w+] captures is a word, and lower-casing a word
    character gives neither of them. *)
Theorem card_tags_without_hash_or_space (callout : node) (assets_dir : string)
  (keep_tags : bool) (card : NotionCard) (out : list diagnostic) :
  parse_callout path_exists str_of callout assets_dir keep_tags = (Some card, out) ->
  Forall (fun tag =>
            tag <> "" /\
            all_chars (fun c => negb (is_hash c) && negb (is_space c)) tag = true)
         (tags card).
Proof.
  intros H. apply card_tags_In in H. destruct H as (first_div & _ & Hin).
  apply Forall_forall. intros tag Htag. apply Hin in Htag.
  destruct Htag as (parent & text & w & _ & _ & Hw & ->).
  apply findall_words in Hw. destruct Hw as [Ht Hword]. split.
  - intros E. rewrite <- lower_truthy, E in Ht. discriminate.
  - clear - Hword. induction w as [|c r IH]; [reflexivity|].
    simpl in *. apply andb_true_iff in Hword. destruct Hword as [Hc Hr].
    destruct (lower_char_plain c Hc) as [-> ->]. exact (IH Hr).
Qed.

(** X3.  The tags of a card are the lower-cased [#word] tokens of the
    strings of the first [div] of the callout that stand outside [script]
    and [style], whatever the class of the string: a comment counts as
    well as text, and so do the strings of the front element; which tags
    a card has does not depend on [keep_tags]. *)
Theorem card_tags_from_first_div (callout : node) (assets_dir : string)
  (keep_tags : bool) (card : NotionCard) (out : list diagnostic) :
  parse_callout path_exists str_of callout assets_dir keep_tags = (Some card, out) ->
  exists first_div,
    find (is_tag "div") callout = Some first_div /\
    (forall tag,
        In tag (tags card) <->
        exists parent text w,
          In (parent, text) (find_all_strings first_div) /\
          in_script_or_style parent = false /\
          In w (re_findall_hashtag text) /\
          tag = lower w) /\
    tags card
    = sorted_set (map lower (snd (extract_hashtags first_div (negb keep_tags)))).
Proof.
  intros H. pose proof (card_tags_In _ _ _ _ _ H) as (first_div & Hdiv & Hin).
  exists first_div. split; [exact Hdiv|]. split; [exact Hin|].
  apply parse_callout_Some in H.
  destruct H as (front_text & before & found & Hparts & _ & -> & _). cbn [tags].
  apply callout_parts_spec in Hparts.
  destruct Hparts as (name & classes & attrs & contents & first_element
                      & Hdiv' & _ & _ & _ & _ & ->).
  rewrite Hdiv in Hdiv'. injection Hdiv' as ->.
  unfold extract_hashtags. rewrite extract_hashtags_under_spec. reflexivity.
Qed.

End TagClaims.

Lemma card_tags_without_hash_or_space_witness :
  exists card out,
    parse_callout sample_disk plain_markup callout_front_image "assets" false
    = (Some card, out) /\
    tags card = ["anatomy"] /\
    Forall (fun tag =>
              tag <> "" /\
              all_chars (fun c => negb (is_hash c) && negb (is_space c)) tag = true)
           (tags card).
Proof.
  eexists. eexists. split; [reflexivity|]. split; [reflexivity|].
  apply (card_tags_without_hash_or_space sample_disk plain_markup
           callout_front_image "assets" false _ _ eq_refl).
Defined.

Lemma card_tags_from_first_div_witness :
  exists card out first_div,
    parse_callout sample_disk plain_markup callout_comment_tag "assets" false
    = (Some card, out) /\
    find (is_tag "div") callout_comment_tag = Some first_div /\
    find_all_strings first_div
    = [("p", "Q"); ("div", " #Hidden "); ("p", "A #Shown")] /\
    tags card = ["hidden"; "shown"] /\
    tags card = sorted_set (map lower (snd (extract_hashtags first_div true))).
Proof.
  eexists. eexists.
  destruct (card_tags_from_first_div sample_disk plain_markup callout_comment_tag
              "assets" false _ _ eq_refl) as (first_div & Hdiv & _ & Htags).
  exists first_div. split; [reflexivity|]. split; [exact Hdiv|].
  split; [|split; [|exact Htags]].
  - vm_compute in Hdiv. injection Hdiv as <-. reflexivity.
  - reflexivity.
Defined.

(** ** Removing the tags and keeping them *)

Lemma rstrip_empty (s : string) : rstrip s = "" -> all_chars is_space s = true.
Proof.
  induction s as [|c r IH]; [reflexivity|]. cbn [rstrip all_chars].
  destruct (rstrip r); [|discriminate].
  destruct (is_space c); [|discriminate]. intros _. apply IH. reflexivity.
Qed.

Lemma lstrip_empty (s : string) : lstrip s = "" -> all_chars is_space s = true.
Proof.
  induction s as [|c r IH]; [reflexivity|]. cbn [lstrip all_chars].
  destruct (is_space c); [exact IH|discriminate].
Qed.

Lemma all_space_end (s : string) :
  all_chars is_space s = true -> truthy s = true -> ends_with is_space s = true.
Proof.
  induction s as [|c r IH]; [discriminate|]. cbn [all_chars]. intros H _.
  apply andb_true_iff in H. destruct H as [Hc Hr].
  destruct r as [|c' r']; [exact Hc|]. apply (IH Hr). reflexivity.
Qed.

Lemma strip_empty (s : string) : strip s = "" -> all_chars is_space s = true.
Proof.
  unfold strip. intros H. apply lstrip_empty in H. apply rstrip_empty.
  pose proof (rstrip_end s) as He.
  destruct (rstrip s) as [|c r] eqn:E; [reflexivity|].
  rewrite (all_space_end _ H eq_refl) in He. discriminate.
Qed.

Lemma all_space_no_hashtag (s : string) :
  all_chars is_space s = true -> has_hashtag s = false.
Proof.
  unfold has_hashtag. induction s as [|c r IH]; [reflexivity|].
  cbn [all_chars has_pair]. intros H. apply andb_true_iff in H.
  destruct H as [Hc Hr]. rewrite (space_not_hash c Hc), (IH Hr). reflexivity.
Qed.

(** A string that strips to nothing is left alone by the removal. *)
Lemma hashtag_text_blank (parent text : string) :
  truthy (strip (hashtag_text false parent text)) = true ->
  truthy (strip text) = true.
Proof.
  destruct (strip text) eqn:E; [|reflexivity].
  rewrite hashtag_text_remove, (all_space_no_hashtag text (strip_empty text E)).
  rewrite orb_true_r, E. discriminate.
Qed.

Lemma get_text_strip_truthy name classes attrs contents :
  truthy (get_text_strip (Tag name classes attrs contents))
  = nonempty (visible_strings name (flat_map classed_strings contents)).
Proof. apply concat_pieces, visible_strings_trimmed. Qed.

Lemma find_all_strings_rewrite f g (parent : string) (n : node) :
  find_all_strings (rewrite_under f g parent n)
  = map (fun ps => (fst ps, f (fst ps) (snd ps))) (find_all_strings n).
Proof.
  destruct n as [text|cls text|name classes attrs contents];
    [reflexivity|simpl; destruct (String.eqb _ _); reflexivity|].
  exact (rewrite_strings f g "" (Tag name classes attrs contents)).
Qed.

Lemma visible_strings_app name l l' :
  visible_strings name (l ++ l')
  = visible_strings name l ++ visible_strings name l'.
Proof.
  unfold visible_strings. rewrite filter_app, map_app, filter_app. reflexivity.
Qed.

Lemma nonempty_app {A : Type} (l l' : list A) :
  nonempty (l ++ l') = nonempty l || nonempty l'.
Proof. destruct l; reflexivity. Qed.

(** The strings a tag called [top] shows below [n] once the tags are
    removed were there before, when no string of a class of its own was
    replaced. *)
Lemma visible_strings_removed g (top parent : string) (n : node) :
  hidden_tokens parent n = false ->
  nonempty (visible_strings top
              (classed_strings
                 (rewrite_under (hashtag_text false) g parent n))) = true ->
  nonempty (visible_strings top (classed_strings n)) = true.
Proof.
  revert parent.
  induction n as [text|cls text|name classes attrs contents IH] using node_ind';
    intros parent Hhidden.
  - cbn [rewrite_under classed_strings]. unfold visible_strings.
    cbn [filter map fst snd].
    destruct (interesting_string top None); [|discriminate].
    cbn [map filter snd].
    destruct (truthy (strip (hashtag_text false parent text))) eqn:E;
      [|discriminate].
    rewrite (hashtag_text_blank parent text E). reflexivity.
  - cbn [hidden_tokens] in Hhidden.
    rewrite extract_hashtags_replaces_changes in Hhidden.
    apply negb_false_iff in Hhidden.
    cbn [rewrite_under]. rewrite Hhidden. tauto.
  - cbn [hidden_tokens] in Hhidden. cbn [rewrite_under classed_strings].
    clear parent. induction IH as [|c r Hc _ IHr]; [tauto|].
    cbn [existsb] in Hhidden. apply orb_false_iff in Hhidden.
    destruct Hhidden as [Hc' Hr'].
    cbn [map flat_map]. rewrite !visible_strings_app, !nonempty_app.
    intros H. apply orb_true_iff in H. apply orb_true_iff.
    destruct H as [H|H]; [left; exact (Hc name Hc' H)|right; exact (IHr Hr' H)].
Qed.

Lemma get_text_strip_removed (parent : string) (n : node) :
  hidden_tokens parent n = false ->
  truthy (get_text_strip
            (rewrite_under (hashtag_text false) (fun _ a => a) parent n)) = true ->
  truthy (get_text_strip n) = true.
Proof.
  destruct n as [text|cls text|name classes attrs contents].
  - intros _ H. discriminate H.
  - intros _. cbn [rewrite_under].
    destruct (String.eqb _ _); intros H; discriminate H.
  - intros Hhidden.
    change (rewrite_under (hashtag_text false) (fun _ a => a) parent
              (Tag name classes attrs contents))
      with (Tag name classes attrs
              (map (rewrite_under (hashtag_text false) (fun _ a => a) name)
                   contents)).
    rewrite !get_text_strip_truthy.
    exact (visible_strings_removed (fun _ a => a) name parent
             (Tag name classes attrs contents) Hhidden).
Qed.

Lemma extract_hashtags_keep_element (element : node) :
  extract_hashtags element true
  = (element, snd (extract_hashtags element true)).
Proof.
  destruct element as [text|cls text|name classes attrs contents]; [reflexivity|reflexivity|].
  unfold extract_hashtags. rewrite extract_hashtags_under_spec. cbn [snd].
  f_equal. rewrite <- (rewrite_id "" (Tag name classes attrs contents)) at 2.
  apply rewrite_ext; [apply hashtag_text_keep|reflexivity].
Qed.

Lemma image_media_hashtag_rewrite path_exists assets_dir f (l : list node) :
  flat_map (image_media path_exists assets_dir)
           (map (rewrite_under f (fun _ a => a) "") l)
  = flat_map (image_media path_exists assets_dir) l /\
  flat_map (image_out path_exists assets_dir)
           (map (rewrite_under f (fun _ a => a) "") l)
  = flat_map (image_out path_exists assets_dir) l.
Proof.
  induction l as [|m r [IHm IHo]]; [split; reflexivity|].
  cbn [map flat_map]. rewrite IHm, IHo.
  destruct m as [text|cls text|name classes attrs contents];
    cbn [rewrite_under]; try destruct (String.eqb _ _); split; reflexivity.
Qed.

Lemma descendants_trans (n m x : node) :
  In m (descendants n) -> In x (descendants m) -> In x (descendants n).
Proof.
  induction n as [text|cls text|name classes attrs contents IH] using node_ind';
    intros Hm Hx; [contradiction|contradiction|].
  cbn [descendants] in *. apply in_flat_map in Hm.
  destruct Hm as (c & Hc & Hm). apply in_flat_map. exists c.
  split; [exact Hc|]. right. destruct Hm as [<-|Hm]; [exact Hx|].
  rewrite Forall_forall in IH. exact (IH c Hc Hm Hx).
Qed.

Lemma hidden_tokens_tag_parent (q q' : string) (n : node) :
  is_any_tag n = true -> hidden_tokens q n = hidden_tokens q' n.
Proof. destruct n; [discriminate|discriminate|reflexivity]. Qed.

Lemma hidden_tokens_descendant (n m : node) (parent q : string) :
  hidden_tokens parent n = false ->
  In m (descendants n) -> is_any_tag m = true ->
  hidden_tokens q m = false.
Proof.
  revert parent.
  induction n as [text|cls text|name classes attrs contents IH] using node_ind';
    intros parent Hn Hm Htag; [contradiction|contradiction|].
  cbn [hidden_tokens] in Hn. cbn [descendants] in Hm.
  apply in_flat_map in Hm. destruct Hm as (c & Hc & Hm).
  assert (Hhidden : hidden_tokens name c = false).
  { destruct (hidden_tokens name c) eqn:E; [|reflexivity].
    rewrite <- Hn. symmetry. apply existsb_exists. exists c. tauto. }
  destruct Hm as [<-|Hm].
  - rewrite (hidden_tokens_tag_parent q name c Htag). exact Hhidden.
  - rewrite Forall_forall in IH. exact (IH c Hc name Hhidden Hm Htag).
Qed.

Lemma first_tag_In (l : list node) (element : node) :
  first_tag l = Some element -> In element l /\ is_any_tag element = true.
Proof.
  induction l as [|c r IH]; [discriminate|]. cbn [first_tag].
  destruct (is_any_tag c) eqn:E.
  - intros H. injection H as <-. split; [left; reflexivity|exact E].
  - intros H. destruct (IH H). split; [right; assumption|assumption].
Qed.

Section KeepAndRemove.

Variable path_exists : string -> bool.
Variable str_of : node -> string.

(** X4.  Where no comment and no other string of a class of its own
    holds a tag that the extraction removes, removing the tags never
    makes a card: such a callout that gives a card with [keep_tags] false
    gives one with [keep_tags] true as well, with the same tags, the same
    media files and the same diagnostics. *)
Theorem card_without_tags_card_with_tags (callout : node) (assets_dir : string)
  (card : NotionCard) (out : list diagnostic) :
  hidden_tokens "" callout = false ->
  parse_callout path_exists str_of callout assets_dir false = (Some card, out) ->
  exists card',
    parse_callout path_exists str_of callout assets_dir true = (Some card', out) /\
    tags card' = tags card /\
    media_files card' = media_files card.
Proof.
  intros Hhidden H. apply parse_callout_Some in H.
  destruct H as (front_text & before & found & Hparts & _ & -> & ->).
  apply callout_parts_spec in Hparts.
  destruct Hparts as (name & classes & attrs & contents & first_element
                      & Hdiv & Hfirst & -> & Hempty & -> & ->).
  pose proof (find_Some _ _ _ Hdiv) as [Hname Hin]. simpl in Hname.
  apply String.eqb_eq in Hname.
  rewrite first_tag_rewrite in Hfirst.
  destruct (first_tag contents) as [element|] eqn:Helement; [|discriminate].
  injection Hfirst as <-.
  assert (Hfront : is_empty (get_text_strip element) = false).
  { destruct (first_tag_In _ _ Helement) as [Hchild Htag].
    assert (Helt : hidden_tokens name element = false).
    { apply (hidden_tokens_descendant callout element "" name Hhidden);
        [|exact Htag].
      apply (descendants_trans _ (Tag name classes attrs contents));
        [exact Hin|].
      cbn [descendants]. apply in_flat_map. exists element.
      split; [exact Hchild|left; reflexivity]. }
    pose proof (get_text_strip_removed name element Helt) as Ht.
    unfold truthy in Ht. rewrite Hempty in Ht. specialize (Ht eq_refl).
    destruct (is_empty (get_text_strip element)); [discriminate|reflexivity]. }
  assert (Hparts : callout_parts callout true
                   = Some (get_text_strip element,
                           Tag name classes attrs (remove_first_tag contents),
                           flat_map hashtag_tags
                             (find_all_strings (Tag name classes attrs contents)))).
  { unfold callout_parts. rewrite Hdiv, extract_hashtags_keep_element.
    cbn [node_contents]. rewrite Helement, Hfront.
    unfold extract_hashtags. rewrite extract_hashtags_under_spec. reflexivity. }
  pose proof (parse_callout_parts path_exists str_of callout assets_dir true) as Hrun.
  rewrite Hparts in Hrun.
  rewrite process_images_spec in Hrun by (rewrite Hname; reflexivity).
  rewrite remove_first_tag_rewrite.
  change (Tag name classes attrs
            (map (rewrite_under (hashtag_text false) (fun _ a => a) name)
                 (remove_first_tag contents)))
    with (rewrite_under (hashtag_text false) (fun _ a => a) ""
            (Tag name classes attrs (remove_first_tag contents))).
  rewrite (find_all_rewrite (is_tag "img")) by apply is_tag_head_test.
  destruct (image_media_hashtag_rewrite path_exists assets_dir (hashtag_text false)
              (find_all (is_tag "img")
                 (Tag name classes attrs (remove_first_tag contents))))
    as [Hmedia Hout].
  eexists. split; [rewrite Hout; exact Hrun|]. cbn [tags media_files].
  split; [reflexivity|]. symmetry. exact Hmedia.
Qed.

End KeepAndRemove.

Lemma card_without_tags_card_with_tags_witness :
  hidden_tokens "" callout_front_comment = false /\
  exists card out card',
    parse_callout sample_disk plain_markup callout_front_comment "assets" false
    = (Some card, out) /\
    parse_callout sample_disk plain_markup callout_front_comment "assets" true
    = (Some card', out) /\
    front card = "Which organ?" /\ front card' = "Which organ? #Anatomy" /\
    tags card' = tags card /\ media_files card' = media_files card.
Proof.
  split; [reflexivity|].
  eexists. eexists.
  destruct (card_without_tags_card_with_tags sample_disk plain_markup
              callout_front_comment "assets" _ _ eq_refl eq_refl)
    as (card' & Hrun & Htags & Hmedia).
  exists card'. split; [reflexivity|]. split; [exact Hrun|].
  split; [reflexivity|].
  vm_compute in Hrun. injection Hrun as <-.
  split; [reflexivity|]. split; reflexivity.
Defined.

(** ** Running the extraction again *)

Lemma rewrite_ext_strings f f' g (parent : string) (n : node) :
  (forall ps, In ps (strings_under parent n) ->
              f (fst ps) (snd ps) = f' (fst ps) (snd ps)) ->
  rewrite_under f g parent n = rewrite_under f' g parent n.
Proof.
  revert parent. induction n as [text|cls text|name classes attrs contents IH] using node_ind';
    intros parent H.
  - simpl. f_equal. apply (H (parent, text)). left. reflexivity.
  - cbn [rewrite_under].
    pose proof (H (parent, text) (or_introl eq_refl)) as E. cbn [fst snd] in E.
    rewrite E. reflexivity.
  - cbn [rewrite_under]. f_equal. cbn [strings_under] in H. clear parent.
    induction IH as [|c r Hc _ IHr]; [reflexivity|].
    cbn [map flat_map] in *. rewrite Hc, IHr; [reflexivity| |].
    + intros ps Hps. apply H, in_or_app. right. exact Hps.
    + intros ps Hps. apply H, in_or_app. left. exact Hps.
Qed.

(** A rewriting that changes none of the strings of [n] leaves [n] as
    it is. *)
Lemma rewrite_fixed f (parent : string) (n : node) :
  (forall ps, In ps (strings_under parent n) -> f (fst ps) (snd ps) = snd ps) ->
  rewrite_under f (fun _ a => a) parent n = n.
Proof.
  intros H. rewrite <- (rewrite_id parent n) at 2.
  apply rewrite_ext_strings. exact H.
Qed.

Lemma hashtag_text_removed_clean (parent text : string) :
  in_script_or_style parent = false ->
  has_hashtag (hashtag_text false parent text) = false.
Proof.
  intros Hp. rewrite hashtag_text_remove, Hp. simpl.
  destruct (has_hashtag text) eqn:E; simpl; [|exact E].
  apply cleaned_text_facts.
Qed.

Lemma hashtag_text_again (keep_tags : bool) (parent text : string) :
  hashtag_text keep_tags parent (hashtag_text false parent text)
  = hashtag_text false parent text.
Proof.
  destruct keep_tags; [apply hashtag_text_keep|].
  rewrite (hashtag_text_remove parent (hashtag_text false parent text)).
  destruct (in_script_or_style parent) eqn:Hp; [reflexivity|].
  rewrite (hashtag_text_removed_clean parent text Hp). reflexivity.
Qed.

Lemma hashtag_tags_removed (parent text : string) :
  hashtag_tags (parent, hashtag_text false parent text) = [].
Proof.
  unfold hashtag_tags. cbn [fst snd].
  destruct (in_script_or_style parent) eqn:Hp; [reflexivity|].
  rewrite (proj2 (findall_nil_iff _) (hashtag_text_removed_clean parent text Hp)).
  reflexivity.
Qed.

(** X5.  Once the tags are removed there is nothing left to extract: a
    second run of [extract_hashtags] over the element the first run left,
    with either setting of [keep_tags], changes nothing and finds no tag. *)
Theorem extract_hashtags_twice (element : node) (keep_tags : bool) :
  extract_hashtags (fst (extract_hashtags element false)) keep_tags
  = (fst (extract_hashtags element false), []).
Proof.
  destruct element as [text|cls text|name classes attrs contents];
    [reflexivity|reflexivity|].
  unfold extract_hashtags at 2 3. rewrite extract_hashtags_under_spec. cbn [fst].
  change (extract_hashtags
            (rewrite_under (hashtag_text false) (fun _ a => a) ""
               (Tag name classes attrs contents)) keep_tags)
    with (extract_hashtags_under keep_tags ""
            (rewrite_under (hashtag_text false) (fun _ a => a) ""
               (Tag name classes attrs contents))).
  rewrite extract_hashtags_under_spec, rewrite_strings. f_equal.
  - apply rewrite_fixed. intros ps Hps. rewrite rewrite_strings in Hps.
    apply in_map_iff in Hps. destruct Hps as ([p s] & <- & _). cbn [fst snd].
    apply hashtag_text_again.
  - induction (strings_under "" (Tag name classes attrs contents)) as [|[p s] r IH];
      [reflexivity|].
    cbn [map flat_map fst snd]. rewrite hashtag_tags_removed, IH. reflexivity.
Qed.

(** ** What [process_images] changes and what it counts *)

Lemma find_all_pass p (n : node) : Forall (fun m => p m = true) (find_all p n).
Proof.
  apply Forall_forall. intros m Hm. apply filter_In in Hm. apply Hm.
Qed.

Section ImageAccounts.

Variable path_exists : string -> bool.
Variable assets_dir : string.

Let rewritten : node -> node :=
  rewrite_under (fun _ s => s) (image_attrs path_exists assets_dir) "".

Lemma descendants_rewritten (parent : string) (n : node) :
  descendants (rewrite_under (fun _ s => s) (image_attrs path_exists assets_dir)
                 parent n)
  = map rewritten (descendants n).
Proof.
  rewrite (descendants_snd parent (rewrite_under _ _ parent n)).
  rewrite (descendants_snd parent n), rewrite_descendants, !map_map.
  apply map_ext. intros [q m]. apply rewrite_keep_text_parent.
Qed.

Lemma process_images_descendants (element : node) :
  descendants (fst (fst (process_images path_exists element assets_dir)))
  = map rewritten (descendants element).
Proof.
  destruct element as [text|cls text|name classes attrs contents]; [reflexivity|reflexivity|].
  cbn [process_images]. rewrite (process_images_list_spec _ _ name). cbn [fst].
  rewrite <- (descendants_rewritten "" (Tag name classes attrs contents)).
  reflexivity.
Qed.

Lemma process_images_collected (element : node) :
  snd (fst (process_images path_exists element assets_dir))
  = flat_map (image_media path_exists assets_dir) (find_all (is_tag "img") element)
  /\
  snd (process_images path_exists element assets_dir)
  = flat_map (image_out path_exists assets_dir) (find_all (is_tag "img") element).
Proof.
  destruct element as [text|cls text|name classes attrs contents]; [split; reflexivity|split; reflexivity|].
  cbn [process_images]. rewrite (process_images_list_spec _ _ name). cbn [fst snd].
  unfold find_all. cbn [descendants].
  rewrite <- !(flat_map_filter (is_tag "img")); [split; reflexivity| |].
  - intros a Ha. unfold image_out. rewrite Ha. reflexivity.
  - intros a Ha. unfold image_media. rewrite Ha. reflexivity.
Qed.

Lemma attr_set_keys (k v : string) (attrs : list (string * string)) :
  attr_mem k attrs = true -> map fst (attr_set k v attrs) = map fst attrs.
Proof.
  unfold attr_set. intros ->. rewrite map_map. apply map_ext.
  intros kv. destruct (String.eqb (fst kv) k); reflexivity.
Qed.

Lemma attr_set_others (k v : string) (attrs : list (string * string)) :
  attrs_without k (attr_set k v attrs) = attrs_without k attrs.
Proof.
  unfold attr_set, attrs_without. destruct (attr_mem k attrs).
  - induction attrs as [|kv r IH]; [reflexivity|]. cbn [map filter].
    destruct (String.eqb (fst kv) k) eqn:E; cbn [fst]; rewrite E; simpl;
      rewrite IH; reflexivity.
  - rewrite filter_app. simpl. rewrite String.eqb_refl. simpl. apply app_nil_r.
Qed.

Lemma attr_get_mem (k v : string) (attrs : list (string * string)) :
  attr_get k attrs = Some v -> attr_mem k attrs = true.
Proof.
  induction attrs as [|[k' v'] r IH]; simpl; [discriminate|].
  destruct (String.eqb k' k); [reflexivity|exact IH].
Qed.

Lemma process_image_attrs (attrs : list (string * string)) :
  map fst (fst (fst (process_image path_exists assets_dir attrs))) = map fst attrs /\
  attrs_without "src" (fst (fst (process_image path_exists assets_dir attrs)))
  = attrs_without "src" attrs.
Proof.
  unfold process_image. destruct (attr_get "src" attrs) as [src|] eqn:E;
    [|split; reflexivity].
  destruct (is_empty src); [split; reflexivity|].
  destruct (path_exists _); [|split; reflexivity]. cbn [fst]. split.
  - apply attr_set_keys, (attr_get_mem _ _ _ E).
  - apply attr_set_others.
Qed.

Lemma rewritten_frame (n : node) :
  node_name (rewritten n) = node_name n /\
  node_classes (rewritten n) = node_classes n /\
  map fst (node_attrs (rewritten n)) = map fst (node_attrs n) /\
  attrs_without "src" (node_attrs (rewritten n))
  = attrs_without "src" (node_attrs n) /\
  (if is_tag "img" n then True else node_attrs (rewritten n) = node_attrs n).
Proof.
  destruct n as [text|cls text|name classes attrs contents];
    [repeat split
    |unfold rewritten; rewrite rewrite_special_keep; repeat split|].
  unfold rewritten, image_attrs. cbn [rewrite_under node_name node_classes
                                        node_attrs is_tag].
  destruct (String.eqb name "img"); [|repeat split].
  destruct (process_image_attrs attrs) as [Hk Ho]. repeat split; assumption.
Qed.

(** X6.  [process_images] rewrites nothing but the value of [src] of an
    [img]: below the element the nodes keep their number and order, every
    node keeps its name and its classes, the names of its attributes in
    their order and every attribute other than [src]; a tag that is no
    [img] keeps all its attributes, and no string changes. *)
Theorem process_images_frame (element : node) :
  Forall2
    (fun n n' =>
       node_name n' = node_name n /\
       node_classes n' = node_classes n /\
       map fst (node_attrs n') = map fst (node_attrs n) /\
       attrs_without "src" (node_attrs n') = attrs_without "src" (node_attrs n) /\
       (if is_tag "img" n then True else node_attrs n' = node_attrs n))
    (descendants element)
    (descendants (fst (fst (process_images path_exists element assets_dir)))) /\
  find_all_strings (fst (fst (process_images path_exists element assets_dir)))
  = find_all_strings element.
Proof.
  split.
  - rewrite process_images_descendants. apply Forall2_map_In.
    intros n _. apply rewritten_frame.
  - destruct element as [text|cls text|name classes attrs contents]; [reflexivity|reflexivity|].
    cbn [process_images]. rewrite (process_images_list_spec _ _ name). cbn [fst].
    unfold find_all_strings. cbn [strings_under].
    induction contents as [|c r IH]; simpl; [reflexivity|].
    rewrite IH, rewrite_strings. f_equal.
    induction (strings_under name c) as [|[p s] t IHt]; simpl; [reflexivity|].
    rewrite IHt. reflexivity.
Qed.

Lemma image_account (m : node) :
  is_tag "img" m = true ->
  List.length (image_media path_exists assets_dir m)
  + List.length (image_out path_exists assets_dir m)
  = (if has_reference assets_dir m then 1 else 0) /\
  Forall (fun p => path_exists p = true) (image_media path_exists assets_dir m) /\
  Forall (fun d => exists p, d = MissingMedia p /\ path_exists p = false)
         (image_out path_exists assets_dir m).
Proof.
  intros Hm. unfold image_media, image_out, has_reference. rewrite Hm.
  rewrite process_image_target, <- image_target_attrs.
  destruct (image_target assets_dir m) as [[filename full_path]|];
    [|repeat split; constructor].
  destruct (path_exists full_path) eqn:E; repeat split; repeat constructor.
  - exact E.
  - exists full_path. auto.
Qed.

(** X7.  Every image reference below the element is accounted for once:
    the media files and the diagnostics of [process_images] are together
    as many as the [img] tags with a [src] that is not empty; every media
    file is on the disk and every diagnostic names a path that is not. *)
Theorem process_images_accounts (element : node) :
  List.length (snd (fst (process_images path_exists element assets_dir)))
  + List.length (snd (process_images path_exists element assets_dir))
  = List.length (filter (has_reference assets_dir)
                        (find_all (is_tag "img") element)) /\
  Forall (fun p => path_exists p = true)
         (snd (fst (process_images path_exists element assets_dir))) /\
  Forall (fun d => exists p, d = MissingMedia p /\ path_exists p = false)
         (snd (process_images path_exists element assets_dir)).
Proof.
  destruct (process_images_collected element) as [-> ->].
  pose proof (find_all_pass (is_tag "img") element) as Himgs.
  induction Himgs as [|m r Hm _ (IHn & IHm & IHo)]; [repeat split; constructor|].
  destruct (image_account m Hm) as (Hn & Hmedia & Hout).
  cbn [flat_map filter]. rewrite !length_app. split; [|split].
  - destruct (has_reference assets_dir m); cbn [List.length]; lia.
  - apply Forall_app. split; assumption.
  - apply Forall_app. split; assumption.
Qed.

End ImageAccounts.

(* ================================================================= *)
(** * Further properties of the walker and of the exports *)

Lemma dict_extend_cards (k : string) (cards : list NotionCard) (d : subdecks_dict) :
  dict_mem k d = true ->
  Permutation (flat_map snd (dict_extend k cards d)) (flat_map snd d ++ cards).
Proof.
  induction d as [|[k' v] r IH]; simpl; [discriminate|].
  destruct (String.eqb k' k); simpl.
  - intros _. rewrite <- !app_assoc. apply Permutation_app_head, Permutation_app_comm.
  - intros H. rewrite <- app_assoc. apply Permutation_app_head, IH, H.
Qed.

Lemma dict_ensure_cards (k : string) (d : subdecks_dict) :
  flat_map snd (dict_ensure k d) = flat_map snd d.
Proof.
  unfold dict_ensure. destruct (dict_mem k d) eqn:E; simpl; [reflexivity|].
  rewrite (dict_set_new k [] d E), flat_map_app. simpl. apply app_nil_r.
Qed.

(** Grouping neither loses nor repeats a card. *)
Lemma grouped_cards_perm (l : list (string * list NotionCard)) :
  Permutation (flat_map snd (grouped l)) (flat_map snd l).
Proof.
  induction l as [|s l IH] using rev_ind; [constructor|].
  rewrite grouped_snoc, flat_map_app. simpl. rewrite app_nil_r.
  unfold add_section.
  rewrite (dict_extend_cards _ _ _ (dict_ensure_mem (fst s) (grouped l))).
  rewrite dict_ensure_cards. apply Permutation_app_tail, IH.
Qed.

Lemma total_cards_length (d : subdecks_dict) :
  total_cards d = List.length (flat_map snd d).
Proof.
  unfold total_cards. induction d as [|kv r IH]; simpl; [reflexivity|].
  rewrite length_app, IH. reflexivity.
Qed.

Section WalkerResults.

Variable path_exists : string -> bool.
Variable str_of : node -> string.
Variable assets_dir : string.

(** The result of [parse_html_file], part by part. *)
Lemma parse_html_file_grouped (soup : node) (keep_tags : bool) :
  exists out,
    parse_html_file path_exists str_of soup assets_dir keep_tags
    = Some (deck_name_of soup,
            grouped (sections_of path_exists str_of assets_dir keep_tags soup),
            extract_css_from_html soup, out).
Proof.
  unfold parse_html_file, sections_of, deck_name_of.
  destruct (find (is_tag "article") soup) as [article|]; [|eexists; reflexivity].
  fold is_page_body.
  destruct (find is_page_body article) as [page_body|]; [|eexists; reflexivity].
  unfold find_all_children.
  destruct (walk_grouped path_exists str_of assets_dir keep_tags
              (node_contents page_body) [] []) as [out Hwalk].
  change (grouped []) with (@nil (string * list NotionCard)) in Hwalk.
  unfold subdecks_dict in *. rewrite Hwalk. cbn [app].
  eexists. reflexivity.
Qed.

(** X8.  The walk neither loses nor repeats a card: the cards of all
    the subdecks of the result are, up to their order, the cards
    [parse_callout] gives for the callouts of the sections of the
    document, each as often as it is given; [total_cards], which [main]
    computes, is their number. *)
Theorem subdecks_hold_every_card_once (soup : node) (keep_tags : bool) :
  exists deck_name subdecks css out,
    parse_html_file path_exists str_of soup assets_dir keep_tags
    = Some (deck_name, subdecks, css, out) /\
    Permutation
      (flat_map snd subdecks)
      (flat_map snd (sections_of path_exists str_of assets_dir keep_tags soup)) /\
    total_cards subdecks
    = List.length
        (flat_map snd (sections_of path_exists str_of assets_dir keep_tags soup)).
Proof.
  destruct (parse_html_file_grouped soup keep_tags) as [out Hparse].
  eexists. eexists. eexists. eexists. split; [exact Hparse|].
  split; [apply grouped_cards_perm|].
  rewrite total_cards_length. apply Permutation_length, grouped_cards_perm.
Qed.

Lemma section_label_any_keep (k1 k2 : bool) (element : node) :
  option_map fst (section_of path_exists str_of assets_dir k1 element)
  = option_map fst (section_of path_exists str_of assets_dir k2 element).
Proof.
  unfold section_of. destruct (is_tag "details" element).
  - destruct (find (is_tag "summary") element); reflexivity.
  - destruct (is_callout element); reflexivity.
Qed.

Lemma sections_labels_any_keep (k1 k2 : bool) (soup : node) :
  map fst (sections_of path_exists str_of assets_dir k1 soup)
  = map fst (sections_of path_exists str_of assets_dir k2 soup).
Proof.
  unfold sections_of.
  destruct (find (is_tag "article") soup) as [article|]; [|reflexivity].
  destruct (find is_page_body article) as [page_body|]; [|reflexivity].
  induction (node_contents page_body) as [|e r IH]; [reflexivity|].
  cbn [flat_map]. rewrite !map_app, IH. f_equal.
  pose proof (section_label_any_keep k1 k2 e) as H.
  destruct (section_of path_exists str_of assets_dir k1 e) as [[a b]|],
           (section_of path_exists str_of assets_dir k2 e) as [[a' b']|];
    simpl in *; congruence.
Qed.

(** X9.  The deck name, the names of the subdecks, their order and the
    style sheet do not depend on [keep_tags]: the label of a section is
    the stripped text of its summary as it stands, so a [#word] token in a
    label stays in the name of the subdeck when the tags are removed from
    the cards. *)
Theorem subdeck_names_ignore_keep_tags (soup : node) :
  exists deck_name css subdecks out subdecks' out',
    parse_html_file path_exists str_of soup assets_dir true
    = Some (deck_name, subdecks, css, out) /\
    parse_html_file path_exists str_of soup assets_dir false
    = Some (deck_name, subdecks', css, out') /\
    map fst subdecks' = map fst subdecks.
Proof.
  destruct (parse_html_file_grouped soup true) as [out Hkeep].
  destruct (parse_html_file_grouped soup false) as [out' Hremove].
  eexists. eexists. eexists. eexists. eexists. eexists.
  split; [exact Hkeep|]. split; [exact Hremove|].
  rewrite !grouped_keys, (sections_labels_any_keep false true). reflexivity.
Qed.

End WalkerResults.

(** ** Sections without an indented region *)

Lemma dict_get_keyed (k : string) (f : string -> list NotionCard)
  (l : list string) :
  In k l -> dict_get k (map (fun k' => (k', f k')) l) = Some (f k).
Proof.
  induction l as [|a r IH]; [contradiction|]. cbn [map dict_get].
  destruct (String.eqb a k) eqn:E.
  - apply String.eqb_eq in E. subst. reflexivity.
  - intros [->|H]; [rewrite String.eqb_refl in E; discriminate|exact (IH H)].
Qed.

Lemma flat_map_of_map {A B C} (f : B -> list C) (g : A -> B) (l : list A) :
  flat_map f (map g l) = flat_map (fun a => f (g a)) l.
Proof.
  induction l as [|a r IH]; simpl; [reflexivity|]. rewrite IH. reflexivity.
Qed.

Lemma rows_of_key {A} (label k : string) (row : string -> A -> list string)
  (l : list A) :
  (forall k a, row_subdeck (row k a) = k) ->
  filter (fun r => String.eqb (row_subdeck r) label) (map (row k) l)
  = if String.eqb k label then map (row k) l else [].
Proof.
  intros Hrow. induction l as [|a r IH]; simpl.
  - destruct (String.eqb k label); reflexivity.
  - rewrite Hrow, IH. destruct (String.eqb k label); reflexivity.
Qed.

Lemma keyed_rows_other {A} (label : string) (c : string -> list A)
  (row : string -> A -> list string) (ks : list string) :
  (forall k a, row_subdeck (row k a) = k) ->
  ~ In label ks ->
  filter (fun r => String.eqb (row_subdeck r) label)
         (flat_map (fun k => map (row k) (c k)) ks)
  = [].
Proof.
  intros Hrow. induction ks as [|a r IH]; intros Hn; [reflexivity|].
  cbn [flat_map]. rewrite filter_app, IH by (intros H; apply Hn; right; exact H).
  rewrite app_nil_r, (rows_of_key label a row (c a) Hrow).
  destruct (String.eqb a label) eqn:E; [|reflexivity].
  apply String.eqb_eq in E. exfalso. apply Hn. left. exact E.
Qed.

(** In rows that come key after key, the rows that name a key are the
    rows of that key. *)
Lemma keyed_rows_label {A} (label : string) (c : string -> list A)
  (row : string -> A -> list string) (ks : list string) :
  (forall k a, row_subdeck (row k a) = k) ->
  NoDup ks -> In label ks ->
  filter (fun r => String.eqb (row_subdeck r) label)
         (flat_map (fun k => map (row k) (c k)) ks)
  = map (row label) (c label).
Proof.
  intros Hrow. induction ks as [|a r IH]; intros Hnd Hin; [contradiction|].
  inversion Hnd as [|? ? Ha Hr]; subst. cbn [flat_map].
  rewrite filter_app, (rows_of_key label a row (c a) Hrow).
  destruct (String.eqb a label) eqn:E.
  - apply String.eqb_eq in E. subst a.
    rewrite (keyed_rows_other label c row r Hrow Ha). apply app_nil_r.
  - destruct Hin as [->|Hin]; [rewrite String.eqb_refl in E; discriminate|].
    exact (IH Hr Hin).
Qed.

Section LabelOnlySections.

Variable path_exists : string -> bool.
Variable str_of : node -> string.
Variable assets_dir : string.

(** C10, as the code has it.  A collapsible section of the page body
    with a label and no indented region adds no card, and its label is a
    key of the dictionary [parse_html_file] returns.  The cards under
    that key are those of the sections of the document that carry the
    label, in document order: none when no other section carries it.  In
    the package export the key has a deck of its own, with one note for
    each of these cards; in the CSV export the rows that name the label
    are the rows of these cards, one for each, so that no row names a
    label without cards. *)
Theorem label_only_section_in_exports
  (soup article page_body details summary : node) (keep_tags : bool) :
  find (is_tag "article") soup = Some article ->
  find is_page_body article = Some page_body ->
  In details (node_contents page_body) ->
  is_tag "details" details = true ->
  find (is_tag "summary") details = Some summary ->
  find is_indented details = None ->
  exists deck_name subdecks css out,
    parse_html_file path_exists str_of soup assets_dir keep_tags
    = Some (deck_name, subdecks, css, out) /\
    section_of path_exists str_of assets_dir keep_tags details
    = Some (get_text_strip summary, []) /\
    In (get_text_strip summary) (map fst subdecks) /\
    dict_get (get_text_strip summary) subdecks
    = Some (cards_labelled (get_text_strip summary)
              (sections_of path_exists str_of assets_dir keep_tags soup)) /\
    (forall py_hash,
      exists id,
        In (mkDeck id (full_deck_name deck_name (get_text_strip summary))
              (map note_of
                 (cards_labelled (get_text_strip summary)
                    (sections_of path_exists str_of assets_dir keep_tags soup))))
           (fst (export_apkg py_hash deck_name subdecks))) /\
    filter (fun row => String.eqb (row_subdeck row) (get_text_strip summary))
           (tl (export_csv deck_name subdecks))
    = map (csv_row deck_name (get_text_strip summary))
          (cards_labelled (get_text_strip summary)
             (sections_of path_exists str_of assets_dir keep_tags soup)).
Proof.
  intros Harticle Hbody Hin Hdetails Hsummary Hindented.
  destruct (parse_html_file_grouped path_exists str_of assets_dir soup keep_tags)
    as [out Hparse].
  assert (Hsection : section_of path_exists str_of assets_dir keep_tags details
                     = Some (get_text_strip summary, [])).
  { unfold section_of. rewrite Hdetails, Hsummary, Hindented. reflexivity. }
  assert (Hlabel : In (get_text_strip summary)
                      (map fst (sections_of path_exists str_of assets_dir
                                  keep_tags soup))).
  { unfold sections_of. rewrite Harticle, Hbody. apply in_map_iff.
    exists (get_text_strip summary, []). split; [reflexivity|].
    apply in_flat_map. exists details. split; [exact Hin|].
    rewrite Hsection. left. reflexivity. }
  assert (Hkey : In (get_text_strip summary)
                    (first_seen
                       (map fst (sections_of path_exists str_of assets_dir
                                   keep_tags soup)))).
  { apply mem_In. rewrite first_seen_mem. apply mem_In, Hlabel. }
  exists (deck_name_of soup),
         (grouped (sections_of path_exists str_of assets_dir keep_tags soup)),
         (extract_css_from_html soup), out.
  split; [exact Hparse|]. split; [exact Hsection|].
  split; [rewrite grouped_keys; exact Hkey|].
  split; [apply dict_get_keyed; exact Hkey|]. split.
  - intros py_hash. eexists. unfold export_apkg. cbn [fst]. apply in_map_iff.
    exists (get_text_strip summary,
            cards_labelled (get_text_strip summary)
              (sections_of path_exists str_of assets_dir keep_tags soup)).
    split; [reflexivity|]. unfold grouped. apply in_map_iff.
    exists (get_text_strip summary). split; [reflexivity|exact Hkey].
  - unfold export_csv. cbn [tl]. unfold grouped. rewrite flat_map_of_map.
    apply (keyed_rows_label (get_text_strip summary)
             (fun k => cards_labelled k
                         (sections_of path_exists str_of assets_dir keep_tags soup))
             (csv_row (deck_name_of soup)));
      [reflexivity|apply first_seen_NoDup|exact Hkey].
Qed.

End LabelOnlySections.

Lemma label_only_section_in_exports_witness :
  exists deck_name subdecks css out,
    parse_html_file sample_disk plain_markup page_with_label_only_section
                    "assets" true
    = Some (deck_name, subdecks, css, out) /\
    section_of sample_disk plain_markup "assets" true (details_ "Later" [])
    = Some ("Later", []) /\
    map (fun kv => (fst kv, map front (snd kv))) subdecks
    = [("Later", ["Q2"]); ("Default", ["Q1"])] /\
    (forall py_hash,
      exists id,
        In (mkDeck id "Biology::Later"
              [mkNote ["Q2"; "<div><p>A2</p></div>"] []])
           (fst (export_apkg py_hash deck_name subdecks))) /\
    filter (fun row => String.eqb (row_subdeck row) "Later")
           (tl (export_csv deck_name subdecks))
    = [["Biology"; "Later"; "Q2"; "<div><p>A2</p></div>"; ""]].
Proof.
  destruct (label_only_section_in_exports sample_disk plain_markup "assets"
              page_with_label_only_section _ _ (details_ "Later" []) _ true
              eq_refl eq_refl (or_introl eq_refl) eq_refl eq_refl eq_refl)
    as (deck_name & subdecks & css & out & Hparse & Hsection & _ & _
        & Hdeck & Hrows).
  exists deck_name, subdecks, css, out. split; [exact Hparse|].
  split; [exact Hsection|].
  vm_compute in Hparse. injection Hparse as <- <- <- <-.
  split; [reflexivity|]. split; [exact Hdeck|exact Hrows].
Defined.

(** ** The exports *)

(** X10.  The CSV export is the header followed by one row for each
    card, five fields to a row: the rows come subdeck after subdeck in
    the order of the dictionary and card after card within a subdeck, each
    with the deck name, the name of its subdeck, the front and the back of
    its card. *)
Theorem export_csv_rows (deck_name : string) (subdecks : subdecks_dict) :
  List.length (export_csv deck_name subdecks) = S (total_cards subdecks) /\
  hd [] (export_csv deck_name subdecks)
  = ["Deck"; "Subdeck"; "Front"; "Back"; "Tags"] /\
  Forall (fun row => List.length row = 5) (export_csv deck_name subdecks) /\
  map (fun row => (nth 0 row "", nth 1 row ""))
      (tl (export_csv deck_name subdecks))
  = flat_map (fun kv => map (fun _ => (deck_name, fst kv)) (snd kv)) subdecks /\
  map (fun row => (nth 2 row "", nth 3 row ""))
      (tl (export_csv deck_name subdecks))
  = map (fun card => (front card, back card)) (flat_map snd subdecks).
Proof.
  unfold export_csv. cbn [hd tl List.length].
  rewrite total_cards_length.
  split; [|split; [reflexivity|split; [|split]]].
  - f_equal. induction subdecks as [|kv r IH]; [reflexivity|].
    cbn [flat_map]. rewrite !length_app, length_map, IH. reflexivity.
  - constructor; [reflexivity|]. apply Forall_forall. intros row Hrow.
    apply in_flat_map in Hrow. destruct Hrow as (kv & _ & Hrow).
    apply in_map_iff in Hrow. destruct Hrow as (card & <- & _). reflexivity.
  - induction subdecks as [|kv r IH]; [reflexivity|].
    cbn [flat_map]. rewrite map_app, IH, map_map. reflexivity.
  - induction subdecks as [|kv r IH]; [reflexivity|].
    cbn [flat_map]. rewrite !map_app, IH, map_map. reflexivity.
Qed.

Lemma append_same_head (a b c : string) : (a ++ b = a ++ c)%string -> b = c.
Proof.
  induction a as [|x r IH]; simpl; [auto|]. intros H. injection H as H. auto.
Qed.

Lemma append_self (a b : string) : (a ++ b)%string = a -> b = "".
Proof.
  intros H. apply (append_same_head a). rewrite append_nil_r. exact H.
Qed.

(** Two subdecks with different names get decks with different titles. *)
Lemma full_deck_name_inj (deck_name k k' : string) :
  full_deck_name deck_name k = full_deck_name deck_name k' -> k = k'.
Proof.
  unfold full_deck_name.
  destruct (String.eqb k DEFAULT_SUBDECK_NAME) eqn:E;
    destruct (String.eqb k' DEFAULT_SUBDECK_NAME) eqn:E'; simpl; intros H.
  - apply String.eqb_eq in E, E'. congruence.
  - symmetry in H. apply append_self in H. discriminate.
  - apply append_self in H. discriminate.
  - apply append_same_head in H. injection H as H. exact H.
Qed.

Lemma NoDup_map_inj {A B} (f : A -> B) (l : list A) :
  (forall a b, f a = f b -> a = b) -> NoDup l -> NoDup (map f l).
Proof.
  intros Hf. induction 1 as [|a r Ha Hr IH]; simpl; constructor; [|exact IH].
  intros H. apply in_map_iff in H. destruct H as (b & E & Hb).
  apply Hf in E. subst. contradiction.
Qed.

(** X11.  The package export makes one deck for each subdeck, in the
    order of the dictionary, with a note for each card.  The deck of
    ["Default"] carries the bare deck name and every other one the deck
    name, [::] and the name of the subdeck; as the names of the subdecks
    are pairwise different, so are the titles of the decks.  The id of a
    deck is drawn from its title alone and lies between 0 and 10^10. *)
Theorem export_apkg_decks (py_hash : string -> Z) (deck_name : string)
  (subdecks : subdecks_dict) :
  NoDup (map fst subdecks) ->
  map deck_title (fst (export_apkg py_hash deck_name subdecks))
  = map (fun kv => full_deck_name deck_name (fst kv)) subdecks /\
  NoDup (map deck_title (fst (export_apkg py_hash deck_name subdecks))) /\
  Forall (fun deck =>
            deck_id deck = (Z.abs (py_hash (deck_title deck)) mod 10 ^ 10)%Z /\
            (0 <= deck_id deck < 10 ^ 10)%Z)
         (fst (export_apkg py_hash deck_name subdecks)) /\
  map (fun deck => List.length (deck_notes deck))
      (fst (export_apkg py_hash deck_name subdecks))
  = map (fun kv => List.length (snd kv)) subdecks.
Proof.
  intros Hkeys. unfold export_apkg. cbn [fst].
  assert (Htitles : map deck_title
                      (map (fun kv =>
                              mkDeck
                                (Z.abs (py_hash
                                   (if negb (String.eqb (fst kv) DEFAULT_SUBDECK_NAME)
                                    then (deck_name ++ "::" ++ fst kv)%string
                                    else deck_name)) mod 10 ^ 10)%Z
                                (if negb (String.eqb (fst kv) DEFAULT_SUBDECK_NAME)
                                 then (deck_name ++ "::" ++ fst kv)%string
                                 else deck_name)
                                (map (fun card =>
                                        mkNote [front card; back card] (tags card))
                                     (snd kv)))
                           subdecks)
                    = map (fun kv => full_deck_name deck_name (fst kv)) subdecks).
  { rewrite map_map. reflexivity. }
  split; [exact Htitles|]. split; [|split].
  - rewrite Htitles, <- (map_map fst (full_deck_name deck_name)).
    apply NoDup_map_inj; [apply full_deck_name_inj|exact Hkeys].
  - apply Forall_forall. intros deck Hdeck. apply in_map_iff in Hdeck.
    destruct Hdeck as (kv & <- & _). cbn [deck_id deck_title].
    split; [reflexivity|]. apply Z.mod_pos_bound. reflexivity.
  - rewrite map_map. apply map_ext. intros kv. cbn [deck_notes].
    apply length_map.
Qed.

Lemma export_apkg_decks_witness :
  NoDup (map fst [("Cells", @nil NotionCard); ("Default", [])]) /\
  map deck_title
      (fst (export_apkg (fun _ => (-7)%Z) "Biology"
                        [("Cells", []); ("Default", [])]))
  = ["Biology::Cells"; "Biology"] /\
  NoDup (map deck_title
           (fst (export_apkg (fun _ => (-7)%Z) "Biology"
                             [("Cells", []); ("Default", [])]))).
Proof.
  assert (Hkeys : NoDup (map fst [("Cells", @nil NotionCard); ("Default", [])])).
  { repeat constructor; simpl; intuition discriminate. }
  split; [exact Hkeys|]. split; [reflexivity|].
  apply (export_apkg_decks (fun _ => (-7)%Z) "Biology"
           [("Cells", []); ("Default", [])] Hkeys).
Defined.

Section PackageMedia.

Variable path_exists : string -> bool.
Variable str_of : node -> string.
Variable assets_dir : string.
Variable keep_tags : bool.

Lemma sections_cards_parsed (soup : node) (card : NotionCard) :
  In card (flat_map snd (sections_of path_exists str_of assets_dir keep_tags soup)) ->
  exists callout out,
    parse_callout path_exists str_of callout assets_dir keep_tags = (Some card, out).
Proof.
  assert (Hcards : forall callouts,
             In card (cards_of path_exists str_of assets_dir keep_tags callouts) ->
             exists callout out,
               parse_callout path_exists str_of callout assets_dir keep_tags
               = (Some card, out)).
  { intros callouts H. apply in_flat_map in H. destruct H as (callout & _ & H).
    destruct (parse_callout path_exists str_of callout assets_dir keep_tags)
      as [[c|] out] eqn:E; simpl in H; [|contradiction].
    destruct H as [<-|[]]. exists callout, out. exact E. }
  intros H. apply in_flat_map in H. destruct H as ([k cards] & Hsec & Hcard).
  cbn [snd] in Hcard. unfold sections_of in Hsec.
  destruct (find (is_tag "article") soup) as [article|]; [|contradiction].
  destruct (find is_page_body article) as [page_body|]; [|contradiction].
  apply in_flat_map in Hsec. destruct Hsec as (element & _ & Hsec).
  unfold section_of in Hsec.
  destruct (is_tag "details" element).
  - destruct (find (is_tag "summary") element); [|contradiction].
    destruct Hsec as [E|[]]. injection E as _ <-.
    destruct (find is_indented element); [|contradiction].
    exact (Hcards _ Hcard).
  - destruct (is_callout element); [|contradiction].
    destruct Hsec as [E|[]]. injection E as _ <-. exact (Hcards [element] Hcard).
Qed.

(** X12.  Every media file [export_apkg] collects from the subdecks of a
    parsed document is on the disk, and it lies in the assets directory
    under a name that holds no slash: the path is [os.path.join] of the
    directory and that name. *)
Theorem package_media_on_disk (soup : node) (py_hash : string -> Z) :
  exists deck_name subdecks css out,
    parse_html_file path_exists str_of soup assets_dir keep_tags
    = Some (deck_name, subdecks, css, out) /\
    Forall (fun p =>
              path_exists p = true /\
              p = path_join assets_dir (basename p) /\
              has_slash (basename p) = false)
           (snd (export_apkg py_hash deck_name subdecks)).
Proof.
  destruct (parse_html_file_grouped path_exists str_of assets_dir soup keep_tags)
    as [out Hparse].
  eexists. eexists. eexists. eexists. split; [exact Hparse|].
  apply Forall_forall. intros p Hp. unfold export_apkg in Hp. cbn [snd] in Hp.
  apply in_flat_map in Hp. destruct Hp as (kv & Hkv & Hp).
  apply in_flat_map in Hp. destruct Hp as (card & Hcard & Hp).
  assert (Hin : In card (flat_map snd
                           (grouped (sections_of path_exists str_of assets_dir
                                       keep_tags soup))))
    by (apply in_flat_map; exists kv; auto).
  apply (Permutation_in _ (grouped_cards_perm _)) in Hin.
  apply sections_cards_parsed in Hin. destruct Hin as (callout & out' & Hrun).
  apply parse_callout_Some in Hrun.
  destruct Hrun as (front_text & before & found & _ & _ & -> & _).
  cbn [media_files] in Hp. apply in_flat_map in Hp. destruct Hp as (img & _ & Hp).
  apply image_media_exists in Hp. destruct Hp as (_ & Hexists & filename & Htarget).
  apply image_target_file in Htarget. destruct Htarget as [Hjoin Hbase].
  split; [exact Hexists|]. rewrite Hbase. split; [exact Hjoin|].
  rewrite <- Hbase. apply has_slash_basename.
Qed.

End PackageMedia.

(** ** Images of the front element *)

Lemma filter_first_tag (p : node -> bool) (l : list node) (first_element : node) :
  head_test p ->
  first_tag l = Some first_element ->
  filter p (flat_map (fun c => c :: descendants c) l)
  = filter p (first_element :: descendants first_element)
    ++ filter p (flat_map (fun c => c :: descendants c) (remove_first_tag l)).
Proof.
  intros (Hs & Hc & _). induction l as [|c r IH]; [discriminate|].
  destruct c as [text|cls text|name classes attrs contents].
  - cbn [first_tag is_any_tag remove_first_tag flat_map descendants app filter].
    rewrite Hs. exact IH.
  - cbn [first_tag is_any_tag remove_first_tag flat_map descendants app filter].
    rewrite Hc. exact IH.
  - cbn [first_tag is_any_tag remove_first_tag flat_map].
    intros H. injection H as <-. apply filter_app.
Qed.

Section FrontImages.

Variable path_exists : string -> bool.
Variable str_of : node -> string.

(** X14.  Only the images that are left in the container once the front
    element is detached are processed.  The images of the first [div] are
    those of the front element followed by the rest; the media files and
    the diagnostics of the card come from the rest alone, so an image in
    the front element is neither collected nor reported as missing. *)
Theorem front_images_are_dropped (callout : node) (assets_dir : string)
  (keep_tags : bool) (card : NotionCard) (out : list diagnostic) :
  parse_callout path_exists str_of callout assets_dir keep_tags = (Some card, out) ->
  exists first_div first_element back_images,
    find (is_tag "div") callout = Some first_div /\
    first_tag (node_contents first_div) = Some first_element /\
    find_all (is_tag "img") first_div
    = filter (is_tag "img") (first_element :: descendants first_element)
      ++ back_images /\
    media_files card = flat_map (image_media path_exists assets_dir) back_images /\
    out = flat_map (image_out path_exists assets_dir) back_images.
Proof.
  intros H. apply parse_callout_Some in H.
  destruct H as (front_text & before & found & Hparts & _ & -> & ->).
  apply callout_parts_spec in Hparts.
  destruct Hparts as (name & classes & attrs & contents & first_element
                      & Hdiv & Hfirst & _ & _ & -> & _).
  rewrite first_tag_rewrite in Hfirst.
  destruct (first_tag contents) as [element|] eqn:Helement; [|discriminate].
  exists (Tag name classes attrs contents), element,
    (find_all (is_tag "img") (Tag name classes attrs (remove_first_tag contents))).
  split; [exact Hdiv|]. split; [exact Helement|]. split.
  - unfold find_all. cbn [descendants].
    apply filter_first_tag; [apply is_tag_head_test|exact Helement].
  - rewrite remove_first_tag_rewrite.
    change (Tag name classes attrs
              (map (rewrite_under (hashtag_text keep_tags) (fun _ a => a) name)
                   (remove_first_tag contents)))
      with (rewrite_under (hashtag_text keep_tags) (fun _ a => a) ""
              (Tag name classes attrs (remove_first_tag contents))).
    rewrite (find_all_rewrite (is_tag "img")) by apply is_tag_head_test.
    cbn [media_files]. apply image_media_hashtag_rewrite.
Qed.

End FrontImages.

Lemma front_images_are_dropped_witness :
  exists card out first_div first_element back_images,
    parse_callout sample_disk plain_markup callout_front_image "assets" true
    = (Some card, out) /\
    find (is_tag "div") callout_front_image = Some first_div /\
    filter (is_tag "img") (first_element :: descendants first_element)
    = [Tag "img" [] [("src", "notes/lost%20file.png")] []] /\
    find_all (is_tag "img") first_div
    = filter (is_tag "img") (first_element :: descendants first_element)
      ++ back_images /\
    media_files card = ["assets/diagram.png"] /\
    out = [].
Proof.
  eexists. eexists.
  destruct (front_images_are_dropped sample_disk plain_markup callout_front_image
              "assets" true _ _ eq_refl)
    as (first_div & first_element & back_images & Hdiv & Hfirst & Himages & _).
  exists first_div, first_element, back_images.
  split; [reflexivity|]. split; [exact Hdiv|].
  vm_compute in Hdiv. injection Hdiv as <-.
  vm_compute in Hfirst. injection Hfirst as <-.
  split; [reflexivity|]. split; [exact Himages|]. split; reflexivity.
Defined.

(** ** [main] *)

Lemma apkg_not_csv (s : string) :
  str_endswith s ".apkg" = true -> str_endswith s ".csv" = false.
Proof.
  induction s as [|c r IH]; [discriminate|]. cbn [str_endswith].
  destruct (String.eqb (String c r) ".apkg") eqn:E.
  - intros _. apply String.eqb_eq in E. injection E as -> ->. reflexivity.
  - intros H. rewrite (IH H).
    destruct (String.eqb (String c r) ".csv") eqn:E'; [|reflexivity].
    apply String.eqb_eq in E'. injection E' as _ ->. discriminate.
Qed.

Section MainClaims.

Variable path_exists : string -> bool.
Variable str_of : node -> string.
Variable assets_dir : string.
Variable keep_tags : bool.
Variable py_hash : string -> Z.
Variable CARD_STYLE_CSS : string.

Lemma main_export_no_cards (deck_name : string) (subdecks : subdecks_dict)
  (css : option string) (output : string) :
  main_export py_hash CARD_STYLE_CSS deck_name subdecks css output = NoCardsFound
  <-> total_cards subdecks = 0.
Proof.
  unfold main_export.
  destruct (Nat.eqb (total_cards subdecks) 0) eqn:E.
  - apply Nat.eqb_eq in E. tauto.
  - apply Nat.eqb_neq in E.
    destruct (str_endswith output ".csv"); [split; [discriminate|tauto]|].
    destruct (str_endswith output ".apkg"); [|split; [discriminate|tauto]].
    destruct css; [|split; [discriminate|tauto]].
    destruct (export_apkg py_hash deck_name subdecks).
    split; [discriminate|tauto].
Qed.

(** X13.  [main] exports nothing from a document without cards, whatever
    name the output has: it stops with [NoCardsFound] exactly when no
    callout of any section of the document gives a card, and the name of
    the output is only looked at when there is a card. *)
Theorem main_stops_without_cards (soup : node) (output : string) :
  exists deck_name subdecks css out,
    parse_html_file path_exists str_of soup assets_dir keep_tags
    = Some (deck_name, subdecks, css, out) /\
    (main_export py_hash CARD_STYLE_CSS deck_name subdecks css output = NoCardsFound
     <-> flat_map snd (sections_of path_exists str_of assets_dir keep_tags soup)
         = []).
Proof.
  destruct (parse_html_file_grouped path_exists str_of assets_dir soup keep_tags)
    as [out Hparse].
  eexists. eexists. eexists. eexists. split; [exact Hparse|].
  rewrite main_export_no_cards, total_cards_length.
  rewrite (Permutation_length (grouped_cards_perm _)).
  destruct (flat_map snd _); simpl; split; congruence.
Qed.

(** X15.  When the first [style] element of the document has no
    [.string] (it is empty, or holds more than one node), the style sheet
    of the result is [None]; a document with a card is then exported to a
    [.csv] output as ever, and an [.apkg] output ends in the [TypeError]
    of [css + "\n"]. *)
Theorem package_export_needs_style_text (soup style_tag : node) :
  find (is_tag "style") soup = Some style_tag ->
  tag_string style_tag = None ->
  flat_map snd (sections_of path_exists str_of assets_dir keep_tags soup) <> [] ->
  exists deck_name subdecks out,
    parse_html_file path_exists str_of soup assets_dir keep_tags
    = Some (deck_name, subdecks, None, out) /\
    (forall output,
        str_endswith output ".apkg" = true ->
        main_export py_hash CARD_STYLE_CSS deck_name subdecks None output
        = CssTypeError) /\
    (forall output,
        str_endswith output ".csv" = true ->
        main_export py_hash CARD_STYLE_CSS deck_name subdecks None output
        = WroteCsv (export_csv deck_name subdecks)).
Proof.
  intros Hstyle Hstring Hcards.
  destruct (parse_html_file_grouped path_exists str_of assets_dir soup keep_tags)
    as [out Hparse].
  assert (Hcss : extract_css_from_html soup = None)
    by (unfold extract_css_from_html; rewrite Hstyle; exact Hstring).
  rewrite Hcss in Hparse.
  eexists. eexists. eexists. split; [exact Hparse|].
  assert (Htotal : Nat.eqb (total_cards
                              (grouped (sections_of path_exists str_of assets_dir
                                          keep_tags soup))) 0 = false).
  { apply Nat.eqb_neq. rewrite total_cards_length.
    rewrite (Permutation_length (grouped_cards_perm _)).
    destruct (flat_map snd _); [congruence|discriminate]. }
  split; intros output Hout; unfold main_export; rewrite Htotal.
  - rewrite (apkg_not_csv output Hout), Hout. reflexivity.
  - rewrite Hout. reflexivity.
Qed.

End MainClaims.

Lemma package_export_needs_style_text_witness :
  find (is_tag "style") page_with_empty_style = Some (Tag "style" [] [] []) /\
  exists deck_name subdecks out,
    parse_html_file sample_disk plain_markup page_with_empty_style "assets" true
    = Some (deck_name, subdecks, None, out) /\
    main_export (fun _ => 0%Z) "" deck_name subdecks None "biology.apkg"
    = CssTypeError /\
    main_export (fun _ => 0%Z) "" deck_name subdecks None "biology.csv"
    = WroteCsv (export_csv deck_name subdecks).
Proof.
  split; [reflexivity|].
  destruct (package_export_needs_style_text sample_disk plain_markup "assets" true
              (fun _ => 0%Z) "" page_with_empty_style (Tag "style" [] [] [])
              eq_refl eq_refl)
    as (deck_name & subdecks & out & Hparse & Hapkg & Hcsv).
  - vm_compute. discriminate.
  - exists deck_name, subdecks, out. split; [exact Hparse|]. split.
    + apply Hapkg. reflexivity.
    + apply Hcsv. reflexivity.
Defined.

(** ** Elements without tokens *)

(** X16.  An element none of whose strings, of whatever class, comments
    included, holds a [#word] token outside [script] and [style] comes
    back from the removal exactly as it was, white space included, and
    with no tag: the removal collapses and strips white space only in
    the strings where it found a token. *)
Theorem extract_hashtags_without_tokens (element : node) :
  (forall parent text,
      In (parent, text) (find_all_strings element) ->
      in_script_or_style parent = true \/ has_hashtag text = false) ->
  extract_hashtags element false = (element, []).
Proof.
  destruct element as [text|cls text|name classes attrs contents]; [reflexivity|reflexivity|].
  intros H. unfold extract_hashtags. rewrite extract_hashtags_under_spec.
  unfold find_all_strings in H. f_equal.
  - rewrite <- (rewrite_id "" (Tag name classes attrs contents)) at 2.
    apply rewrite_ext_strings. intros [parent text] Hps. cbn [fst snd].
    rewrite hashtag_text_remove.
    destruct (H parent text Hps) as [-> | ->]; [reflexivity|].
    rewrite orb_true_r. reflexivity.
  - induction (strings_under "" (Tag name classes attrs contents)) as [|[p s] r IH];
      [reflexivity|].
    cbn [flat_map]. rewrite IH by (intros; apply H; right; assumption).
    unfold hashtag_tags. cbn [fst snd].
    destruct (H p s (or_introl eq_refl)) as [-> | Hs]; [reflexivity|].
    destruct (in_script_or_style p); [reflexivity|].
    rewrite (proj2 (findall_nil_iff s) Hs). reflexivity.
Qed.

Lemma extract_hashtags_without_tokens_witness :
  extract_hashtags
    (Tag "div" [] []
       [p_ [txt "two  spaces "; SpecialString Comment " no token  here "];
        Tag "style" [] [] [SpecialString Stylesheet "#title { color: red }"]])
    false
  = (Tag "div" [] []
       [p_ [txt "two  spaces "; SpecialString Comment " no token  here "];
        Tag "style" [] [] [SpecialString Stylesheet "#title { color: red }"]],
     []).
Proof.
  apply extract_hashtags_without_tokens. intros parent text H.
  simpl in H. destruct H as [E|[E|[E|[]]]]; injection E as <- <-.
  - right. reflexivity.
  - right. reflexivity.
  - left. reflexivity.
Defined.

(** A comment that holds a token gives its tag, and the removal puts a
    plain string in its place. *)
Example extract_hashtags_comment :
  extract_hashtags (p_ [txt "Q"; SpecialString Comment " #Hidden  note "]) true
  = (p_ [txt "Q"; SpecialString Comment " #Hidden  note "], ["hidden"])
  /\ extract_hashtags (p_ [txt "Q"; SpecialString Comment " #Hidden  note "]) false
     = (p_ [txt "Q"; txt "note"], ["hidden"]).
Proof. split; reflexivity. Qed.
